(** * TimePortal: the recording-session reconciliation engine

    A shallow embedding of [TimePortal.py]: the [Project] record and its
    JSON persistence, the [OBSController] push-event cache and final-path
    query, the [RecordingWindow] capture step and the [MainApp] poller,
    retrier and finalizer, followed by the properties of the engine.

    Conventions of the embedding.
    - Python objects that are shared by reference ([Project] instances held
      both by [MainApp.current_recording_project] and by
      [RecordingWindow.project]) live in a heap, a list indexed by
      allocation order; references are indices.
    - [time.time()] readings are inputs of the handlers, rationals.
    - The gateway ([obsws]) is an oracle: what it would answer to each of
      the two requests at the moment of the call.
    - Every handler returns the new state together with the trace of the
      externally visible effects it performed, in order.
    - An exception that no statement of the program catches (the one
      [os.makedirs] raises in [save_json]) ends the method in which it is
      raised, at that statement; the event loop goes on from the state
      reached.
    - [os.path] is the POSIX flavour ([posixpath]). *)

From Stdlib Require Import ZArith QArith Lia Ascii String.
From stdpp Require Import base option list sorting gmap strings pretty.

Close Scope Q_scope.
Open Scope Z_scope.
Open Scope string_scope.
Open Scope list_scope.

(** ** Python values that reach the persistence layer *)

#[local] Set Warnings "-register-all".

Inductive json : Type :=
| JNull
| JBool (b : bool)
| JNum (q : Q)
| JStr (s : string)
| JArr (l : list json)
| JObj (l : list (string * json)).

(** Python truthiness ([if x], [not x]). *)
Definition truthy (v : json) : bool :=
  match v with
  | JNull => false
  | JBool b => b
  | JNum q => negb (Qeq_bool q 0)
  | JStr s => negb (String.eqb s "")
  | JArr l => match l with [] => false | _ => true end
  | JObj l => match l with [] => false | _ => true end
  end.

(** Truthiness of a [str]. *)
Definition str_truthy (s : string) : bool := negb (String.eqb s "").

Inductive exn : Type :=
| KeyError
| TypeError
| JSONDecodeError
| OSError.

Inductive result (A : Type) : Type :=
| Ok (a : A)
| Raise (e : exn).
Arguments Ok {A} a.
Arguments Raise {A} e.

Fixpoint assoc (k : string) (l : list (string * json)) : option json :=
  match l with
  | [] => None
  | (k', v) :: l' => if String.eqb k k' then Some v else assoc k l'
  end.

(** [dct[k]] *)
Definition subscript (dct : json) (k : string) : result json :=
  match dct with
  | JObj l => match assoc k l with
              | Some v => Ok v
              | None => Raise KeyError
              end
  | _ => Raise TypeError
  end.

(** [dct.get(k, d)]; only reached after [dct[...]] succeeded, so on a
    [dict]. *)
Definition dict_get (dct : json) (k : string) (d : json) : json :=
  match dct with
  | JObj l => default d (assoc k l)
  | _ => d
  end.

(** ** [os.path], [str] and [time] helpers *)

Definition sep : Ascii.ascii := "/"%char.

Definition startswith_sep (p : string) : bool :=
  match p with
  | String c _ => Ascii.eqb c sep
  | EmptyString => false
  end.

Fixpoint endswith_sep (p : string) : bool :=
  match p with
  | EmptyString => false
  | String c EmptyString => Ascii.eqb c sep
  | String _ r => endswith_sep r
  end.

(** [posixpath.join(a, b)] *)
Definition os_path_join (a b : string) : string :=
  if startswith_sep b then b
  else if negb (str_truthy a) || endswith_sep a then a ++ b
  else a ++ "/" ++ b.

(** [p[p.rfind("/") + 1:]], scanning left to right: [acc] is what follows
    the last separator seen so far. *)
Fixpoint basename_from (acc p : string) : string :=
  match p with
  | EmptyString => acc
  | String c r =>
      if Ascii.eqb c sep then basename_from "" r
      else basename_from (acc ++ String c "") r
  end.

(** [posixpath.basename(p)] *)
Definition os_path_basename (p : string) : string := basename_from "" p.

(** [int(x)] on a float: truncation toward zero. *)
Definition int (x : Q) : Z := Z.quot (Qnum x) (Zpos (Qden x)).

(** Nearest integer to [a / b] for [0 < b], ties to the even one. *)
Definition round_half_even (a b : Z) : Z :=
  let f := a / b in
  match 2 * (a mod b) ?= b with
  | Lt => f
  | Gt => f + 1
  | Eq => if Z.even f then f else f + 1
  end.

(** [round(x, 2)]: the nearest multiple of one hundredth. *)
Definition round2 (x : Q) : Q :=
  Qmake (round_half_even (100 * Qnum x) (Zpos (Qden x))) 100.

(** ** The record store and the gateway, as the program sees them *)

(** What [json.load] makes of a file: a value, or an exception. *)
Inductive file_content : Type :=
| Json_text (j : json)
| Garbage.

(** The files, by the path string the program hands to the operating
    system, and the paths the system refuses: those on which
    [open(_, "w")], [os.remove] and [os.makedirs] raise. What the system
    refuses does not change with what the program writes. A file is known
    by its path string alone: two strings that spell the way to one file
    differently ([x.json] and [./x.json], links) are not identified, so a
    statement about two different files is made for names without a
    separator in one folder, whose paths do name two directory entries. *)
Record filesystem : Type := {
  files : gmap string file_content;
  locked : gset string
}.

(** [os.makedirs(path, exist_ok=True)]: [true] when it returns, [false]
    when it raises, as it does for the empty path and for a folder that
    cannot be made. *)
Definition os_makedirs (path : string) (fs : filesystem) : bool :=
  str_truthy path && negb (bool_decide (path ∈ locked fs)).

Definition os_path_exists (path : string) (fs : filesystem) : bool :=
  bool_decide (is_Some (files fs !! path)).

Inductive request : Type :=
| GetRecordStatus
| GetRecordingStatus.

(** Externally visible effects of a handler, in the order performed. *)
Inductive effect : Type :=
| Ws_call (r : request)
| Fs_write (path : string) (c : file_content)
| Fs_remove (path : string)
| Show_edit_window (project_name : string)
| Show_warning (project_name : string).

Definition trace : Type := list effect.

(** [with open(path, "w") as f: json.dump(j, f)] inside [try]: [None] when
    it raised. What is written is kept as the value [json.load] will read
    back from it. *)
Definition write_json (path : string) (j : json) (fs : filesystem)
  : option filesystem :=
  if bool_decide (path ∈ locked fs) then None
  else Some {| files := <[path := Json_text j]> (files fs);
               locked := locked fs |}.

(** [os.remove(path)] inside [try]: [None] when it raised. *)
Definition os_remove (path : string) (fs : filesystem) : option filesystem :=
  if bool_decide (path ∈ locked fs) then None
  else match files fs !! path with
       | Some _ => Some {| files := delete path (files fs);
                           locked := locked fs |}
       | None => None
       end.

(** [json.load(open(path))] *)
Definition read_json (path : string) (fs : filesystem) : result json :=
  match files fs !! path with
  | Some (Json_text j) => Ok j
  | _ => Raise JSONDecodeError
  end.

(** ** Project *)

Module Project.

(** One entry of [Project.timestamps]: the dict [{"sec": s, "note": n}]. *)
Record timestamp : Type := { sec : Q; note : string }.

(** A [Project] as the application itself builds and mutates it. *)
Record t : Type := {
  name : string;
  video_file_path : string;
  timestamps : list timestamp
}.

(** A [Project] instance whose attributes hold whatever [from_dict] read
    from a file. *)
Record obj : Type := {
  obj_name : json;
  obj_video_file_path : json;
  obj_timestamps : json
}.

Definition timestamp_json (ts : timestamp) : json :=
  JObj [("sec", JNum (sec ts)); ("note", JStr (note ts))].

(** The instance a well-typed project is. *)
Definition to_obj (p : t) : obj :=
  {| obj_name := JStr (name p);
     obj_video_file_path := JStr (video_file_path p);
     obj_timestamps := JArr (map timestamp_json (timestamps p)) |}.

(** [Project(name, video_file_path=None, timestamps=None)]; an omitted
    argument is [None]. *)
Definition __init__ (name : json) (video_file_path timestamps : option json) : obj :=
  {| obj_name := name;
     obj_video_file_path :=
       match video_file_path with
       | Some v => if truthy v then v else JStr ""
       | None => JStr ""
       end;
     obj_timestamps :=
       match timestamps with
       | Some v => if truthy v then v else JArr []
       | None => JArr []
       end |}.

Definition add_timestamp (sec : Q) (self : t) : t :=
  {| name := name self;
     video_file_path := video_file_path self;
     timestamps := timestamps self ++ [{| sec := sec; note := "" |}] |}.

Definition set_note (index : Z) (note : string) (self : t) : t :=
  if ((0 <=? index)%Z && (index <? Z.of_nat (length (timestamps self)))%Z)%bool then
    {| name := name self;
       video_file_path := video_file_path self;
       timestamps :=
         alter (fun ts => {| sec := sec ts; note := note |})
               (Z.to_nat index) (timestamps self) |}
  else self.

Definition to_dict (self : obj) : json :=
  JObj [("name", obj_name self);
        ("video_file_path", obj_video_file_path self);
        ("timestamps", obj_timestamps self)].

Definition from_dict (dct : json) : result obj :=
  match subscript dct "name" with
  | Raise e => Raise e
  | Ok n =>
      Ok (__init__ n
            (Some (dict_get dct "video_file_path" (JStr "")))
            (Some (dict_get dct "timestamps" (JArr []))))
  end.

Definition set_name (n : string) (self : t) : t :=
  {| name := n; video_file_path := video_file_path self;
     timestamps := timestamps self |}.

Definition set_video_file_path (v : string) (self : t) : t :=
  {| name := name self; video_file_path := v;
     timestamps := timestamps self |}.

Definition file_path (folder_path name : string) : string :=
  os_path_join folder_path (name ++ ".json").

(** The [try] statement of [save_json]: the write, or nothing when it
    raised. *)
Definition write_record (folder_path : string) (self : t) (fs : filesystem)
  : filesystem * trace :=
  let file_path := file_path folder_path (name self) in
  match write_json file_path (to_dict (to_obj self)) fs with
  | Some fs' => (fs', [Fs_write file_path (Json_text (to_dict (to_obj self)))])
  | None => (fs, [])
  end.

(** [os.makedirs] is called outside the [try] statement: when it raises,
    so does [save_json], and nothing is written. *)
Definition save_json (folder_path : string) (self : t) (fs : filesystem)
  : result (filesystem * trace) :=
  if os_makedirs folder_path fs then Ok (write_record folder_path self fs)
  else Raise OSError.

Definition load_json (folder_path name : string) (fs : filesystem)
  : option obj :=
  let file_path := file_path folder_path name in
  if negb (os_path_exists file_path fs) then None
  else
    match read_json file_path fs with
    | Raise _ => None
    | Ok dct =>
        match from_dict dct with
        | Raise _ => None
        | Ok p => Some p
        end
    end.

End Project.

(** ** The gateway's answers *)

(** [datain] of a [GetRecordStatus] response (protocol 5.x); [None] is an
    absent key. *)
Record record_status : Type := {
  outputActive : option bool;
  outputPath : option string
}.

(** [ws.call(requests.GetRecordStatus())]: it raises, or returns a response
    that may lack the [datain] attribute. *)
Inductive record_status_reply : Type :=
| Raises
| Response (datain : option record_status).

(** A [GetRecordingStatus] response (protocol 4.x); [None] is a getter that
    raises. *)
Record recording_status : Type := {
  getIsRecording : option bool;
  getRecordingFilename : option string
}.

(** What the gateway answers at the moment of a call; [None] for the 4.x
    request is a call that raises. *)
Record gateway : Type := {
  reply_GetRecordStatus : record_status_reply;
  reply_GetRecordingStatus : option recording_status
}.

(** [event.datain] of a [RecordStateChanged] push event (5.x). *)
Record record_state_changed : Type := {
  outputState : option string;
  ev_outputPath : option string
}.

(** ** OBSController *)

Module OBSController.

Record t : Type := {
  ws : bool;  (* whether [self.ws] holds a client object *)
  is_connected : bool;
  last_known_stop_path : option string
}.

Definition set_last_known_stop_path (v : option string) (self : t) : t :=
  {| ws := ws self; is_connected := is_connected self;
     last_known_stop_path := v |}.

(** [event] is [event.datain]; [None] when it is falsy. *)
Definition on_record_state_changed_5x (event : option record_state_changed)
    (self : t) : t :=
  match event with
  | None => self
  | Some data =>
      let output_state := default "" (outputState data) in
      let output_path := default "" (ev_outputPath data) in
      if String.eqb output_state "OBS_WEBSOCKET_OUTPUT_STOPPED"
      then set_last_known_stop_path (Some output_path) self
      else self
  end.

(** [event] is what [event.getRecordingFilename()] returns; [None] when it
    raises. *)
Definition on_recording_started_4x (event : option string) (self : t) : t :=
  let filename := default "" event in
  self.

Definition on_recording_stopped_4x (event : option string) (self : t) : t :=
  let filename := default "" event in
  set_last_known_stop_path (Some filename) self.

(** The path returned and the requests sent to obtain it. *)
Definition get_final_record_path (gw : gateway) (self : t) : string * trace :=
  let query :=
    if negb (is_connected self) || negb (ws self) then ("", [])
    else
      let path :=
        match reply_GetRecordStatus gw with
        | Response (Some data) => default "" (outputPath data)
        | Response None => ""
        | Raises => ""
        end in
      if negb (str_truthy path) then
        match reply_GetRecordingStatus gw with
        | Some old_status =>
            (default path (getRecordingFilename old_status),
             [Ws_call GetRecordStatus; Ws_call GetRecordingStatus])
        | None => (path, [Ws_call GetRecordStatus; Ws_call GetRecordingStatus])
        end
      else (path, [Ws_call GetRecordStatus]) in
  match last_known_stop_path self with
  | Some p => if str_truthy p then (p, []) else query
  | None => query
  end.

Definition clear_stop_path (self : t) : t :=
  set_last_known_stop_path None self.

End OBSController.

(** ** RecordingWindow *)

Module RecordingWindow.

(** [project] is a reference into the heap of [Project] instances. *)
Record t : Type := {
  project : nat;
  recording_start_time : Q
}.

(** [now] is the [time.time()] read by the constructor. *)
Definition __init__ (project : nat) (now : Q) : t :=
  {| project := project; recording_start_time := now |}.

(** [now] is the [time.time()] read by the method. *)
Definition add_timestamp (now : Q) (self : t) (heap : list Project.t)
  : list Project.t :=
  let current_sec := (now - recording_start_time self)%Q in
  alter (Project.add_timestamp (round2 current_sec)) (project self) heap.

Definition closeEvent (projects_path : string) (self : t)
    (heap : list Project.t) (fs : filesystem) : result (filesystem * trace) :=
  match heap !! project self with
  | Some p => Project.save_json projects_path p fs
  | None => Ok (fs, [])
  end.

End RecordingWindow.

(** ** MainApp *)

Module MainApp.

(** The poller, retrier and finalizer state. [obs_controller] is the
    controller built by [connect_to_obs] before the poll timer starts;
    [projects_path] is [config_manager.data["projects_path"]]; [timers]
    are the pending [QTimer.singleShot] retries, each with the
    [attempts_left] its callback will pass, in firing order; [heap] holds
    the [Project] instances by reference. *)
Record t : Type := {
  projects_path : string;
  obs_controller : OBSController.t;
  is_recording : bool;
  current_recording_project : option nat;
  recording_window : option RecordingWindow.t;
  timers : list Z;
  heap : list Project.t;
  fs : filesystem
}.

Definition set_obs_controller (v : OBSController.t) (self : t) : t :=
  {| projects_path := projects_path self; obs_controller := v;
     is_recording := is_recording self;
     current_recording_project := current_recording_project self;
     recording_window := recording_window self; timers := timers self;
     heap := heap self; fs := fs self |}.

Definition set_is_recording (v : bool) (self : t) : t :=
  {| projects_path := projects_path self;
     obs_controller := obs_controller self; is_recording := v;
     current_recording_project := current_recording_project self;
     recording_window := recording_window self; timers := timers self;
     heap := heap self; fs := fs self |}.

Definition set_current_recording_project (v : option nat) (self : t) : t :=
  {| projects_path := projects_path self;
     obs_controller := obs_controller self;
     is_recording := is_recording self; current_recording_project := v;
     recording_window := recording_window self; timers := timers self;
     heap := heap self; fs := fs self |}.

Definition set_recording_window (v : option RecordingWindow.t) (self : t) : t :=
  {| projects_path := projects_path self;
     obs_controller := obs_controller self;
     is_recording := is_recording self;
     current_recording_project := current_recording_project self;
     recording_window := v; timers := timers self;
     heap := heap self; fs := fs self |}.

Definition set_timers (v : list Z) (self : t) : t :=
  {| projects_path := projects_path self;
     obs_controller := obs_controller self;
     is_recording := is_recording self;
     current_recording_project := current_recording_project self;
     recording_window := recording_window self; timers := v;
     heap := heap self; fs := fs self |}.

Definition set_heap (v : list Project.t) (self : t) : t :=
  {| projects_path := projects_path self;
     obs_controller := obs_controller self;
     is_recording := is_recording self;
     current_recording_project := current_recording_project self;
     recording_window := recording_window self; timers := timers self;
     heap := v; fs := fs self |}.

Definition set_fs (v : filesystem) (self : t) : t :=
  {| projects_path := projects_path self;
     obs_controller := obs_controller self;
     is_recording := is_recording self;
     current_recording_project := current_recording_project self;
     recording_window := recording_window self; timers := timers self;
     heap := heap self; fs := v |}.

(** A handler: the state after it and the effects it performed. *)
Definition handler : Type := t -> t * trace.

Definition skip : handler := fun self => (self, []).

Definition and_then (f g : handler) : handler :=
  fun self =>
    let '(s1, tr1) := f self in
    let '(s2, tr2) := g s1 in
    (s2, tr1 ++ tr2).

Infix ">>" := and_then (at level 61, left associativity).

(** A step that only updates attributes. *)
Definition modify (f : t -> t) : handler := fun self => (f self, []).

(** Attribute assignment on the instance behind [r]. *)
Definition update_project (r : nat) (f : Project.t -> Project.t) : t -> t :=
  fun self => set_heap (alter f r (heap self)) self.

(** [p.name] for the instance [p] behind [r]. *)
Definition project_name (r : nat) (self : t) : string :=
  default "" (Project.name <$> heap self !! r).

(** Statements that an exception may leave: the state reached and the
    effects performed up to that point, and whether the statements ran to
    their end ([false] when an exception left them). *)
Definition attempt : Type := t -> t * trace * bool.

(** Statements that raise nothing. *)
Definition ret (h : handler) : attempt := fun self => (h self, true).

(** [b] runs after [a] unless an exception left [a]. *)
Definition try_then (a b : attempt) : attempt :=
  fun self =>
    let '(s1, tr1, returned) := a self in
    if returned then
      let '(s2, tr2, returned') := b s1 in
      (s2, tr1 ++ tr2, returned')
    else (s1, tr1, false).

Infix ">>>" := try_then (at level 62, left associativity).

(** A method called by the event loop: no method of the program catches
    what [save_json] raises, so the exception ends the method, and the
    loop goes on from the state reached. *)
Definition slot (a : attempt) : handler := fun self => fst (a self).

(** [p.save_json(self.config_manager.data["projects_path"])] for the
    instance [p] behind [r]. *)
Definition save_project (r : nat) : attempt :=
  fun self =>
    match heap self !! r with
    | Some p =>
        match Project.save_json (projects_path self) p (fs self) with
        | Ok (fs', tr) => (set_fs fs' self, tr, true)
        | Raise _ => (self, [], false)
        end
    | None => (self, [], true)
    end.

(** [self.recording_window.close()]: Qt delivers [closeEvent], whose
    exception is taken to leave [close()]. In every method a [save_json]
    of a project for the same folder comes before this call, so that
    [closeEvent] raises only where that one has raised already. *)
Definition close_recording_window : attempt :=
  fun self =>
    match recording_window self with
    | Some w =>
        match RecordingWindow.closeEvent (projects_path self) w (heap self)
                                         (fs self) with
        | Ok (fs', tr) => (set_fs fs' self, tr, true)
        | Raise _ => (self, [], false)
        end
    | None => (self, [], true)
    end.

Definition global_hotkey_callback (now : Q) : handler :=
  fun self =>
    match is_recording self, current_recording_project self,
          recording_window self with
    | true, Some _, Some w =>
        modify (set_heap (RecordingWindow.add_timestamp now w (heap self))) self
    | _, _, _ => (self, [])
    end.

Definition open_project_edit (project_name : string) : handler :=
  fun self =>
    match Project.load_json (projects_path self) project_name (fs self) with
    | None => (self, [Show_warning project_name])
    | Some proj => (self, [Show_edit_window project_name])
    end.

(** [if os.path.exists(old_file): try: os.remove(old_file) except: pass] *)
Definition remove_if_exists (old_file : string) : handler :=
  fun self =>
    if os_path_exists old_file (fs self) then
      match os_remove old_file (fs self) with
      | Some fs' => (set_fs fs' self, [Fs_remove old_file])
      | None => (self, [])
      end
    else (self, []).

(** [_finalize_with_path] after its guard, [r] being
    [self.current_recording_project]: first the project is updated and
    saved, *)
Definition finalize_store (final_path : string) (r : nat) : attempt :=
  if str_truthy final_path then
    let base_name := os_path_basename final_path in
    if str_truthy base_name then
      fun self =>
        let old_name := project_name r self in
        (ret (modify (update_project r (Project.set_name base_name)))
         >>> ret (modify (update_project r
                            (Project.set_video_file_path final_path)))
         >>> ret (remove_if_exists
                    (Project.file_path (projects_path self) old_name))
         >>> save_project r) self
    else
      ret (modify (update_project r (Project.set_video_file_path final_path)))
      >>> save_project r
  else save_project r.

(** then the recording window is closed, *)
Definition finalize_window : attempt :=
  fun self =>
    match recording_window self with
    | Some _ =>
        (close_recording_window
         >>> ret (modify (set_recording_window None))) self
    | None => (self, [], true)
    end.

(** then the edit window is opened and the session is over. *)
Definition finalize_statements (final_path : string) (r : nat) : attempt :=
  finalize_store final_path r
  >>> finalize_window
  >>> ret (fun self => open_project_edit (project_name r self) self)
  >>> ret (modify (fun self =>
                     set_obs_controller
                       (OBSController.clear_stop_path (obs_controller self))
                       self))
  >>> ret (modify (set_current_recording_project None)).

Definition _finalize_with_path (final_path : string) : handler :=
  fun self =>
    match current_recording_project self with
    | None => (self, [])
    | Some r => slot (finalize_statements final_path r) self
    end.

Definition _retrieve_final_path_with_retry (gw : gateway) (attempts_left : Z)
  : handler :=
  fun self =>
    match current_recording_project self with
    | None => (self, [])
    | Some _ =>
        let '(final_path, calls) :=
          OBSController.get_final_record_path gw (obs_controller self) in
        let '(self', tr) :=
          if str_truthy final_path then _finalize_with_path final_path self
          else if (attempts_left >? 1)%Z then
            modify (set_timers (timers self ++ [attempts_left - 1])) self
          else _finalize_with_path "" self in
        (self', calls ++ tr)
    end.

(** The poll of [check_record_status]: [currently_recording], or [None]
    when both protocol variants failed and the method returned. *)
Definition poll (gw : gateway) : option bool * trace :=
  match reply_GetRecordStatus gw with
  | Response (Some data) =>
      (Some (default false (outputActive data)), [Ws_call GetRecordStatus])
  | Response None => (Some false, [Ws_call GetRecordStatus])
  | Raises =>
      let calls := [Ws_call GetRecordStatus; Ws_call GetRecordingStatus] in
      match reply_GetRecordingStatus gw with
      | Some old_status =>
          match getIsRecording old_status, getRecordingFilename old_status with
          | Some b, Some _ => (Some b, calls)
          | _, _ => (None, calls)
          end
      | None => (None, calls)
      end
  end.

(** The statements of [check_record_status] for a recording that has just
    been seen to start. *)
Definition start_statements (t_name t_window : Q) : attempt :=
  fun self =>
    let fallback_name := ("Recording_" ++ pretty (int t_name))%string in
    let project :=
      {| Project.name := fallback_name;
         Project.video_file_path := "";
         Project.timestamps := [] |} in
    let r := length (heap self) in
    (ret (modify (set_is_recording true))
     >>> ret (modify (fun self => set_heap (heap self ++ [project]) self))
     >>> save_project r
     >>> ret (modify (set_current_recording_project (Some r)))
     >>> close_recording_window
     >>> ret (modify (set_recording_window
                        (Some (RecordingWindow.__init__ r t_window))))) self.

(** [gw] answers the poll, [gw_final] the final-path query of the first
    retrieval attempt; [t_name] is the [time.time()] read for the
    placeholder name, [t_window] the one read by the new window. *)
Definition check_record_status (gw gw_final : gateway) (t_name t_window : Q)
  : handler :=
  fun self =>
    if negb (OBSController.is_connected (obs_controller self)) then (self, [])
    else
      let '(signal, calls) := poll gw in
      match signal with
      | None => (self, calls)
      | Some currently_recording =>
          let '(self', tr) :=
            if currently_recording && negb (is_recording self) then
              slot (start_statements t_name t_window) self
            else if negb currently_recording && is_recording self then
              (modify (set_is_recording false)
               >> _retrieve_final_path_with_retry gw_final 5) self
            else (self, []) in
          (self', calls ++ tr)
      end.

(** The event loop fires the oldest pending single-shot timer, whose
    callback is [lambda: self._retrieve_final_path_with_retry(n)]. *)
Definition timer_fire (gw : gateway) : handler :=
  fun self =>
    match timers self with
    | [] => (self, [])
    | attempts_left :: rest =>
        (modify (set_timers rest)
         >> _retrieve_final_path_with_retry gw attempts_left) self
    end.

End MainApp.

(** ** The event loop

    The engine has three trigger sources: the one-second poll timer
    together with the single-shot retry timers, the push-event channel and
    the global hotkey. Qt runs their callbacks one at a time. *)

Inductive push_event : Type :=
| RecordStateChanged (datain : option record_state_changed)
| RecordingStarted (filename : option string)
| RecordingStopped (filename : option string).

Inductive event : Type :=
| Poll (gw gw_final : gateway) (t_name t_window : Q)
| Retry_timer (gw : gateway)
| Hotkey (now : Q)
| Push (e : push_event).

(** The handler [connect] registered for each kind of push event. *)
Definition deliver (e : push_event) (obs : OBSController.t) : OBSController.t :=
  match e with
  | RecordStateChanged datain =>
      OBSController.on_record_state_changed_5x datain obs
  | RecordingStarted filename =>
      OBSController.on_recording_started_4x filename obs
  | RecordingStopped filename =>
      OBSController.on_recording_stopped_4x filename obs
  end.

Definition step (e : event) : MainApp.handler :=
  match e with
  | Poll gw gw_final t_name t_window =>
      MainApp.check_record_status gw gw_final t_name t_window
  | Retry_timer gw => MainApp.timer_fire gw
  | Hotkey now => MainApp.global_hotkey_callback now
  | Push e =>
      MainApp.modify
        (fun self =>
           MainApp.set_obs_controller (deliver e (MainApp.obs_controller self))
                                      self)
  end.

Fixpoint run (evs : list event) : MainApp.handler :=
  match evs with
  | [] => MainApp.skip
  | e :: evs' => MainApp.and_then (step e) (run evs')
  end.

(** [MainApp.__init__] after a successful [connect_to_obs], over the
    files [fs0] and with [config_manager.data["projects_path"] = folder]. *)
Definition initial (folder : string) (fs0 : filesystem) : MainApp.t :=
  {| MainApp.projects_path := folder;
     MainApp.obs_controller :=
       {| OBSController.ws := true;
          OBSController.is_connected := true;
          OBSController.last_known_stop_path := None |};
     MainApp.is_recording := false;
     MainApp.current_recording_project := None;
     MainApp.recording_window := None;
     MainApp.timers := [];
     MainApp.heap := [];
     MainApp.fs := fs0 |}.

Definition empty_fs : filesystem := {| files := ∅; locked := ∅ |}.

(** ** Kinds of push events *)

(** Whether a push event is of the stop type. *)
Definition is_stop_event (e : push_event) : bool :=
  match e with
  | RecordStateChanged (Some data) =>
      String.eqb (default "" (outputState data)) "OBS_WEBSOCKET_OUTPUT_STOPPED"
  | RecordStateChanged None => false
  | RecordingStarted _ => false
  | RecordingStopped _ => true
  end.

(** The path a push event carries, [""] when it carries none. *)
Definition event_path (e : push_event) : string :=
  match e with
  | RecordStateChanged (Some data) => default "" (ev_outputPath data)
  | RecordStateChanged None => ""
  | RecordingStarted filename => default "" filename
  | RecordingStopped filename => default "" filename
  end.

(** The cache is left alone by every event that is not a stop event or
    that carries no path. *)
Definition cache_kept_unless_stop_with_path (e : push_event)
    (obs : OBSController.t) : Prop :=
  is_stop_event e = false \/ event_path e = "" ->
  OBSController.last_known_stop_path (deliver e obs)
  = OBSController.last_known_stop_path obs.

(** A stored text from which [from_dict] builds no project: it does not
    parse, or it parses to something without a ["name"] entry. *)
Definition corrupt (c : file_content) : Prop :=
  match c with
  | Garbage => True
  | Json_text j => forall v, subscript j "name" <> Ok v
  end.

(** ** Sample inputs *)

Definition STOPPED : string := "OBS_WEBSOCKET_OUTPUT_STOPPED".

(** A connected controller that has cached ["/rec/out.mkv"]. *)
Definition obs_cached : OBSController.t :=
  {| OBSController.ws := true;
     OBSController.is_connected := true;
     OBSController.last_known_stop_path := Some "/rec/out.mkv" |}.

(** A connected controller with an empty cache. *)
Definition obs_fresh : OBSController.t :=
  {| OBSController.ws := true;
     OBSController.is_connected := true;
     OBSController.last_known_stop_path := None |}.

(** The gateway reports an active recording. *)
Definition gw_active : gateway :=
  {| reply_GetRecordStatus :=
       Response (Some {| outputActive := Some true; outputPath := None |});
     reply_GetRecordingStatus := None |}.

(** The gateway reports no recording and knows no path. *)
Definition gw_idle : gateway :=
  {| reply_GetRecordStatus :=
       Response (Some {| outputActive := Some false; outputPath := None |});
     reply_GetRecordingStatus := None |}.

(** The gateway reports no recording and the path ["/rec/other.mkv"]. *)
Definition gw_hint : gateway :=
  {| reply_GetRecordStatus :=
       Response (Some {| outputActive := Some false;
                         outputPath := Some "/rec/other.mkv" |});
     reply_GetRecordingStatus := None |}.

(** A 5.x stop event without an [outputPath]. *)
Definition stop_without_path : push_event :=
  RecordStateChanged (Some {| outputState := Some STOPPED;
                              ev_outputPath := None |}).

(** A 5.x stop event carrying ["/rec/out.mkv"]. *)
Definition stop_with_path : push_event :=
  RecordStateChanged (Some {| outputState := Some STOPPED;
                              ev_outputPath := Some "/rec/out.mkv" |}).

(** A project with three marks, one of them annotated. *)
Definition three_marks : Project.t :=
  {| Project.name := "out.mkv";
     Project.video_file_path := "/rec/out.mkv";
     Project.timestamps :=
       [{| Project.sec := 5; Project.note := "" |};
        {| Project.sec := Qmake 1230 100; Project.note := "intro" |};
        {| Project.sec := 40; Project.note := "" |}] |}.

(** A store holding one unreadable record and one record without a name. *)
Definition damaged_fs : filesystem :=
  {| files := {[ "projects/broken.json" := Garbage;
                 "projects/nameless.json" :=
                   Json_text (JObj [("timestamps", JArr [])]) ]};
     locked := ∅ |}.

(** ** Reading a trace *)

(** What an effect does to the files. *)
Definition apply_effect (e : effect) (fs : filesystem) : filesystem :=
  match e with
  | Fs_write path c =>
      {| files := <[path := c]> (files fs); locked := locked fs |}
  | Fs_remove path =>
      {| files := delete path (files fs); locked := locked fs |}
  | _ => fs
  end.

(** The files after a write and after a removal. *)
Definition written (path : string) (c : file_content) (fs : filesystem)
  : filesystem :=
  apply_effect (Fs_write path c) fs.

Definition removed (path : string) (fs : filesystem) : filesystem :=
  apply_effect (Fs_remove path) fs.

(** The files after the effects of [tr], performed in order on [fs]. *)
Definition replay (tr : trace) (fs : filesystem) : filesystem :=
  foldl (fun fs e => apply_effect e fs) fs tr.

(** The attribute updates of [_finalize_with_path] on the project. *)
Definition finalized_project (final_path : string) (p : Project.t) : Project.t :=
  if str_truthy final_path then
    if str_truthy (os_path_basename final_path) then
      Project.set_video_file_path final_path
        (Project.set_name (os_path_basename final_path) p)
    else Project.set_video_file_path final_path p
  else p.

(** A handler that touches nothing but the files, and whose trace accounts
    for what it did to them. *)
Definition store_only (h : MainApp.handler) : Prop :=
  forall s, fst (h s) = MainApp.set_fs (replay (snd (h s)) (MainApp.fs s)) s.

(** An attribute update that neither reads nor writes the files. *)
Definition fs_independent (g : MainApp.t -> MainApp.t) : Prop :=
  forall x s, g (MainApp.set_fs x s) = MainApp.set_fs x (g s).

(** A handler whose attribute updates amount to [g] and whose trace
    accounts for what it did to the files. *)
Definition acts_as (g : MainApp.t -> MainApp.t) (h : MainApp.handler) : Prop :=
  forall s, fst (h s) = MainApp.set_fs (replay (snd (h s)) (MainApp.fs s)) (g s).

(** The attribute updates of [_finalize_with_path] on the application,
    for the current project [r]. *)
Definition finalized (final_path : string) (r : nat) (s : MainApp.t) : MainApp.t :=
  MainApp.set_current_recording_project None
    (MainApp.set_obs_controller
       (OBSController.clear_stop_path (MainApp.obs_controller s))
       (MainApp.set_recording_window None
          (MainApp.update_project r (finalized_project final_path) s))).

(** The attribute updates [_finalize_with_path] has made when an
    exception leaves it: those of the project, made before the first
    [save_json]. *)
Definition aborted (final_path : string) (r : nat) (s : MainApp.t) : MainApp.t :=
  MainApp.update_project r (finalized_project final_path) s.

(** Statements whose attribute updates amount to [g] when they run to
    their end and to [g'] when an exception leaves them, and whose trace
    accounts for what they did to the files. *)
Definition tries_as (g g' : MainApp.t -> MainApp.t) (a : MainApp.attempt)
  : Prop :=
  forall s,
    fst (fst (a s))
    = MainApp.set_fs (replay (snd (fst (a s))) (MainApp.fs s))
        (if snd (a s) then g s else g' s).

(** A handler that leaves the projects folder and the refused paths as
    they are. *)
Definition keeps_folder (h : MainApp.handler) : Prop :=
  forall s,
    MainApp.projects_path (fst (h s)) = MainApp.projects_path s
    /\ locked (MainApp.fs (fst (h s))) = locked (MainApp.fs s).

(** The placeholder project of a recording first seen at [t_name]. *)
Definition placeholder (t_name : Q) : Project.t :=
  {| Project.name := ("Recording_" ++ pretty (int t_name))%string;
     Project.video_file_path := "";
     Project.timestamps := [] |}.

(** The attribute updates of the start branch of [check_record_status]. *)
Definition started (t_name t_window : Q) (s : MainApp.t) : MainApp.t :=
  MainApp.set_recording_window
    (Some (RecordingWindow.__init__ (length (MainApp.heap s)) t_window))
    (MainApp.set_current_recording_project (Some (length (MainApp.heap s)))
       (MainApp.set_heap (MainApp.heap s ++ [placeholder t_name])
          (MainApp.set_is_recording true s))).

(** ** Poller signals *)

(** The [active] signal an event delivers to the state machine: that of a
    successful poll; nothing for a poll whose queries both failed and for
    the other events. *)
Definition signal (e : event) : option bool :=
  match e with
  | Poll gw _ _ _ => fst (MainApp.poll gw)
  | _ => None
  end.





Definition connected (s : MainApp.t) : Prop :=
  OBSController.is_connected (MainApp.obs_controller s) = true.



(** ** The retry chain *)

(** Whether handling [e] in the state [s] calls
    [_retrieve_final_path_with_retry]: the poll that detects a stop does,
    and so does the callback of a pending retry timer. *)
Definition calls_retriever (e : event) (s : MainApp.t) : bool :=
  match e with
  | Poll gw _ _ _ =>
      OBSController.is_connected (MainApp.obs_controller s)
      && MainApp.is_recording s
      && match fst (MainApp.poll gw) with
         | Some false => true
         | _ => false
         end
  | Retry_timer _ =>
      match MainApp.timers s with
      | [] => false
      | _ :: _ => true
      end
  | _ => false
  end.

(** The number of calls of [_retrieve_final_path_with_retry] while the
    events [evs] are handled from the state [s]. *)
Fixpoint retriever_calls (evs : list event) (s : MainApp.t) : nat :=
  match evs with
  | [] => 0%nat
  | e :: evs' =>
      ((if calls_retriever e s then 1 else 0)
       + retriever_calls evs' (fst (step e s)))%nat
  end.

(** The retriever is called at most five times while the poll [stop] and
    then the events [evs] are handled from [s]. *)
Definition attempts_bounded (s : MainApp.t) (stop : event) (evs : list event)
  : Prop :=
  (retriever_calls (stop :: evs) s <= 5)%nat.

Definition is_retry_timer (e : event) : bool :=
  match e with
  | Retry_timer _ => true
  | _ => false
  end.

(** The event is not a poll that sees a recording. *)
Definition no_restart (e : event) : Prop :=
  match e with
  | Poll gw _ _ _ => fst (MainApp.poll gw) <> Some true
  | _ => True
  end.

(** The final-path query finds nothing. *)
Definition no_path (obs : OBSController.t) (gw : gateway) : Prop :=
  fst (OBSController.get_final_record_path gw obs) = "".

(** The event brings no path: a retry whose query finds none, or a push
    event that is not a stop event. *)
Definition brings_no_path (obs : OBSController.t) (e : event) : Prop :=
  match e with
  | Retry_timer gw => no_path obs gw
  | Push pe => is_stop_event pe = false
  | _ => True
  end.

(** The application right before the poll that sees the recording stop:
    a session with two marks. *)
Definition session_events : list event :=
  [Poll gw_idle gw_idle 100 100;
   Poll gw_active gw_idle 101 (Qmake 1011 10);
   Hotkey (Qmake 1061 10);
   Hotkey (Qmake 1134 10);
   Poll gw_active gw_idle 115 115].

Definition before_stop : MainApp.t :=
  fst (run session_events (initial "projects" empty_fs)).

(** The project of [before_stop]. *)
Definition two_marks : Project.t :=
  {| Project.name := "Recording_101";
     Project.video_file_path := "";
     Project.timestamps :=
       [{| Project.sec := Qmake 500 100; Project.note := "" |};
        {| Project.sec := Qmake 1230 100; Project.note := "" |}] |}.

(** ** Renaming on finalization *)

(** In [tr] a record is written under [new_path] before the one under
    [old_path] is removed. *)
Definition written_before_removed (old_path new_path : string) (tr : trace)
  : Prop :=
  exists (i j : nat) (c : file_content),
    (i < j)%nat
    /\ tr !! i = Some (Fs_write new_path c)
    /\ tr !! j = Some (Fs_remove old_path).

(** At every point during the effects of [tr], performed on [fs], there is
    a record under [old_path] or one under [new_path]. *)
Definition never_without_record (old_path new_path : string) (tr : trace)
    (fs : filesystem) : Prop :=
  forall k : nat,
    is_Some (files (replay (take k tr) fs) !! old_path)
    \/ is_Some (files (replay (take k tr) fs) !! new_path).

(** [before_stop] after the gateway pushed the stop event with the path
    ["/rec/out.mkv"] and the poll saw the recording stopped, with the
    retriever about to run. *)
Definition stop_pushed : MainApp.t :=
  MainApp.set_is_recording false (fst (run [Push stop_with_path] before_stop)).

(** ** Capture order *)

(** The [sec] values of a project, in list order. *)
Definition offsets (p : Project.t) : list Q :=
  map Project.sec (Project.timestamps p).

(** The offsets never decrease along the list and none is negative. *)
Definition marks_ordered (p : Project.t) : Prop :=
  StronglySorted Qle (offsets p) /\ Forall (Qle 0) (offsets p).

(** The [time.time()] readings handed to the events of [evs], in the
    order the handlers take them, never decrease and start no earlier than
    [t]. *)
Fixpoint clock_ok (t : Q) (evs : list event) : Prop :=
  match evs with
  | [] => True
  | Poll _ _ t_name t_window :: evs' =>
      (t <= t_name)%Q /\ (t_name <= t_window)%Q /\ clock_ok t_window evs'
  | Hotkey now :: evs' => (t <= now)%Q /\ clock_ok now evs'
  | _ :: evs' => clock_ok t evs'
  end.

(** The clock after the readings of one event, [t] being the last reading
    before it. *)
Definition clock_after (t : Q) (e : event) : Q :=
  match e with
  | Poll _ _ _ t_window => t_window
  | Hotkey now => now
  | _ => t
  end.

(** Every project has ordered marks, and the one behind the recording
    window has no mark later than the last clock reading [t], which is not
    earlier than the window's start. *)
Definition sessions_ordered (t : Q) (s : MainApp.t) : Prop :=
  Forall marks_ordered (MainApp.heap s)
  /\ forall w, MainApp.recording_window s = Some w ->
       (RecordingWindow.recording_start_time w <= t)%Q
       /\ forall p, MainApp.heap s !! RecordingWindow.project w = Some p ->
            Forall (fun x => (x <= round2 (t - RecordingWindow.recording_start_time w))%Q)
                   (offsets p).

(** The five seconds after the stop was seen: the retry timers and the
    polls alternate, the gateway knows no path, the operator presses the
    hotkey once and the gateway announces nothing of interest. *)
Definition quiet_retries : list event :=
  [Retry_timer gw_idle;
   Poll gw_idle gw_idle 117 117;
   Hotkey (Qmake 1175 10);
   Retry_timer gw_idle;
   Poll gw_idle gw_idle 118 118;
   Push (RecordingStarted None);
   Retry_timer gw_idle;
   Poll gw_idle gw_idle 119 119;
   Retry_timer gw_idle;
   Poll gw_idle gw_idle 120 120;
   Retry_timer gw_idle].

(** * Further properties of the engine: definitions *)

(** ** States of the running application *)

(** The states the application passes through when started on the files
    [fs0] with the projects folder [folder]. *)
Definition reachable (folder : string) (fs0 : filesystem) (s : MainApp.t)
  : Prop :=
  exists evs : list event, s = fst (run evs (initial folder fs0)).

(** The recording window, when there is one, shows the current project,
    and there is a window exactly when there is a current project. *)
Definition window_shows_current (s : MainApp.t) : Prop :=
  match MainApp.current_recording_project s, MainApp.recording_window s with
  | None, None => True
  | Some r, Some w => RecordingWindow.project w = r
  | _, _ => False
  end.

(** The current project is still as the poller created it but for its
    marks: a placeholder name and no video path. *)
Definition current_unresolved (s : MainApp.t) : Prop :=
  forall r, MainApp.current_recording_project s = Some r ->
    exists p t,
      MainApp.heap s !! r = Some p
      /\ Project.name p = Project.name (placeholder t)
      /\ Project.video_file_path p = "".

(** Every pending retry carries between one and four attempts. *)
Definition timers_in_range (s : MainApp.t) : Prop :=
  Forall (fun n => (1 <= n <= 4)%Z) (MainApp.timers s).

(** There is a current project only where [os.makedirs] returns for the
    projects folder. *)
Definition folder_made (s : MainApp.t) : Prop :=
  is_Some (MainApp.current_recording_project s) ->
  os_makedirs (MainApp.projects_path s) (MainApp.fs s) = true.

Definition well_formed (s : MainApp.t) : Prop :=
  window_shows_current s /\ current_unresolved s /\ timers_in_range s
  /\ folder_made s.

(** No project is dropped and no list of marks loses or changes an entry
    from [s] to [s']: each list is extended at its end, if at all. *)
Definition marks_kept (s s' : MainApp.t) : Prop :=
  forall (i : nat) (p : Project.t),
    MainApp.heap s !! i = Some p ->
    exists p', MainApp.heap s' !! i = Some p'
               /\ Project.timestamps p `prefix_of` Project.timestamps p'.

(** ** What the handlers do to the outside *)

(** The record [save_json] writes for a project. *)
Definition record_of (p : Project.t) : file_content :=
  Json_text (Project.to_dict (Project.to_obj p)).

(** An effect of a handler that took the application from [s] to [s'] is
    accounted for: a request goes to a connected gateway; a write stores
    the record of a project of [s'] under that project's name; a removal
    takes away the record under the name the current project of [s] had,
    and that project is no longer current in [s'] where [os.makedirs]
    returns, and still is where it raises; the edit window, or the
    warning that stands for it, is for the name that project has in [s']. *)
Definition effect_ok (s s' : MainApp.t) (e : effect) : Prop :=
  match e with
  | Ws_call _ =>
      OBSController.is_connected (MainApp.obs_controller s) = true
  | Fs_write path c =>
      exists q, q ∈ MainApp.heap s'
                /\ path = Project.file_path (MainApp.projects_path s)
                            (Project.name q)
                /\ c = record_of q
  | Fs_remove path =>
      exists r, MainApp.current_recording_project s = Some r
                /\ path = Project.file_path (MainApp.projects_path s)
                            (MainApp.project_name r s)
                /\ (os_makedirs (MainApp.projects_path s) (MainApp.fs s) = true ->
                    MainApp.current_recording_project s' = None)
                /\ (os_makedirs (MainApp.projects_path s) (MainApp.fs s) = false ->
                    is_Some (MainApp.heap s !! r) ->
                    MainApp.current_recording_project s' = Some r)
  | Show_edit_window n | Show_warning n =>
      exists r, MainApp.current_recording_project s = Some r
                /\ MainApp.current_recording_project s' = None
                /\ n = MainApp.project_name r s'
  end.

(** [before_stop] after the gateway pushed the stop event with the path
    ["/rec/out.mkv"], the poll not having seen the stop yet. *)
Definition pushed_before_poll : MainApp.t :=
  fst (run [Push stop_with_path] before_stop).

(** [before_stop] with a controller whose connection was lost. *)
Definition offline : MainApp.t :=
  MainApp.set_obs_controller
    {| OBSController.ws := true;
       OBSController.is_connected := false;
       OBSController.last_known_stop_path := None |}
    before_stop.

(** A recording running while a retry of the stop before it is pending
    with three attempts left: after [before_stop] the recording stops
    without a path, the next recording is seen one second later, and one
    retry passes without a path. *)
Definition stale_retry_pending : MainApp.t :=
  fst (run [Poll gw_idle gw_idle 116 116;
            Poll gw_active gw_idle 117 (Qmake 1171 10);
            Retry_timer gw_idle]
           before_stop).

(** A second recording started while the retries of the first stop were
    still pending: the first session stops without a path, the poll sees
    the next recording start one second later, and three retries pass
    without a path. The last retry of the first stop is pending. *)
Definition overlapping : MainApp.t :=
  fst (run [Poll gw_idle gw_idle 116 116;
            Poll gw_active gw_idle 117 (Qmake 1171 10);
            Retry_timer gw_idle;
            Retry_timer gw_idle;
            Retry_timer gw_idle]
           before_stop).

(** ** Projects made by hand *)

(** [Project(project_name)] *)
Definition new_project (project_name : string) : Project.t :=
  {| Project.name := project_name;
     Project.video_file_path := "";
     Project.timestamps := [] |}.

(** The statements of [create_and_open_project]. *)
Definition create_statements (project_name : string) (t_window : Q)
  : MainApp.attempt :=
  fun self =>
    let project := new_project project_name in
    let r := length (MainApp.heap self) in
    let allocate :=
      MainApp.modify
        (fun self => MainApp.set_heap (MainApp.heap self ++ [project]) self) in
    let show_window :=
      MainApp.modify
        (MainApp.set_recording_window
           (Some (RecordingWindow.__init__ r t_window))) in
    let set_current :=
      MainApp.modify (MainApp.set_current_recording_project (Some r)) in
    MainApp.try_then
      (MainApp.try_then
         (MainApp.try_then
            (MainApp.try_then (MainApp.ret allocate) (MainApp.save_project r))
            MainApp.close_recording_window)
         (MainApp.ret show_window))
      (MainApp.ret set_current) self.

(** [MainApp.create_and_open_project]; [t_window] is the [time.time()]
    read by the new window. *)
Definition create_and_open_project (project_name : string) (t_window : Q)
  : MainApp.handler :=
  MainApp.slot (create_statements project_name t_window).

(** ** Listing the projects folder *)

(** [s.endswith(suffix)] *)
Definition endswith (s suffix : string) : bool :=
  (String.length suffix <=? String.length s)%nat
  && String.eqb
       (substring (String.length s - String.length suffix)
                  (String.length suffix) s)
       suffix.

(** [s[:-k]] for [0 < k] *)
Definition drop_last (k : nat) (s : string) : string :=
  substring 0 (String.length s - k) s.

(** [Project.list_projects]; [listing] is what [os.listdir(folder_path)]
    returns, [None] when the folder does not exist. *)
Definition list_projects (listing : option (list string)) : list string :=
  match listing with
  | None => []
  | Some files =>
      foldl (fun projects f =>
               if String.eqb f "config.json" then projects
               else if endswith f ".json" then projects ++ [drop_last 5 f]
               else projects)
            [] files
  end.

(** ** Showing a duration *)

(** [round(x)]: the nearest integer, ties to the even one. *)
Definition round0 (x : Q) : Z := round_half_even (Qnum x) (Zpos (Qden x)).

Definition hours_suffix : string := "時間".
Definition minutes_suffix : string := "分".
Definition seconds_suffix : string := "秒".

Definition format_duration (seconds : Q) : string :=
  let seconds := round0 seconds in
  let hrs := seconds / 3600 in
  let mins := (seconds mod 3600) / 60 in
  let secs := seconds mod 60 in
  let parts : list string := [] in
  let parts :=
    if (0 <? hrs)%Z then parts ++ [(pretty hrs ++ hours_suffix)%string]
    else parts in
  let parts :=
    if ((0 <? mins)%Z || (0 <? hrs)%Z)%bool
    then parts ++ [(pretty mins ++ minutes_suffix)%string]
    else parts in
  let parts := parts ++ [(pretty secs ++ seconds_suffix)%string] in
  String.concat "" parts.

(** A string of decimal digits. *)
Fixpoint digits (s : string) : bool :=
  match s with
  | EmptyString => true
  | String c r => (48 <=? nat_of_ascii c)%nat && (nat_of_ascii c <=? 57)%nat
                  && digits r
  end.

(** Whether a separator occurs in [p]. *)
Fixpoint has_sep (p : string) : bool :=
  match p with
  | EmptyString => false
  | String c r => Ascii.eqb c sep || has_sep r
  end.

(** * Properties *)

(** ** Truthiness *)

Lemma str_truthy_true (s : string) : str_truthy s = true <-> s <> "".
Proof.
  unfold str_truthy. rewrite negb_true_iff. apply String.eqb_neq.
Qed.

Lemma str_truthy_false (s : string) : str_truthy s = false <-> s = "".
Proof.
  unfold str_truthy. rewrite negb_false_iff. apply String.eqb_eq.
Qed.

(** ** The final-path query *)

Section FinalPath.

Variables (gw : gateway) (obs : OBSController.t) (p : string).
Hypothesis cached : OBSController.last_known_stop_path obs = Some p.
Hypothesis non_empty : p <> "".

Lemma cached_path_returned :
  OBSController.get_final_record_path gw obs = (p, []).
Proof.
  unfold OBSController.get_final_record_path. rewrite cached.
  apply str_truthy_true in non_empty. by rewrite non_empty.
Qed.

Lemma cached_path_finalizes (attempts_left : Z) (app : MainApp.t) :
  MainApp.obs_controller app = obs ->
  is_Some (MainApp.current_recording_project app) ->
  MainApp._retrieve_final_path_with_retry gw attempts_left app
  = MainApp._finalize_with_path p app.
Proof.
  intros Hobs [r Hr]. unfold MainApp._retrieve_final_path_with_retry.
  rewrite Hr, Hobs, cached_path_returned.
  apply str_truthy_true in non_empty. rewrite non_empty.
  by destruct (MainApp._finalize_with_path p app).
Qed.

End FinalPath.

(** ** The push-event cache *)

Lemma deliver_non_stop (e : push_event) (obs : OBSController.t) :
  is_stop_event e = false -> deliver e obs = obs.
Proof.
  destruct e as [[data|]| |]; simpl; try done.
  unfold OBSController.on_record_state_changed_5x. by intros ->.
Qed.

Lemma deliver_stop (e : push_event) (obs : OBSController.t) :
  is_stop_event e = true ->
  deliver e obs
  = OBSController.set_last_known_stop_path (Some (event_path e)) obs.
Proof.
  destruct e as [[data|]| |]; simpl; try done.
  unfold OBSController.on_record_state_changed_5x. by intros ->.
Qed.

(** C5, as stated, fails: a stop event without a path replaces a cached
    path by the empty string. *)
Lemma stop_without_path_overwrites_cache :
  ~ cache_kept_unless_stop_with_path stop_without_path obs_cached.
Proof.
  unfold cache_kept_unless_stop_with_path. intros H.
  specialize (H (or_intror eq_refl)). discriminate H.
Qed.

(** C5, amended. The cache is updated by stop events only: an event that is
    not a stop event leaves the whole controller unchanged, and a stop
    event stores the path it carries, also when that path is empty. *)
Theorem cache_updated_by_stop_events_only (e : push_event)
    (obs : OBSController.t) :
  (is_stop_event e = false -> deliver e obs = obs)
  /\ (is_stop_event e = true ->
      OBSController.last_known_stop_path (deliver e obs)
      = Some (event_path e)).
Proof.
  split.
  - apply deliver_non_stop.
  - intros H. by rewrite deliver_stop.
Qed.

Lemma cache_updated_by_stop_events_only_witness :
  (is_stop_event (RecordingStarted (Some "/rec/new.mkv")) = false
   /\ deliver (RecordingStarted (Some "/rec/new.mkv")) obs_cached = obs_cached)
  /\ (is_stop_event stop_with_path = true
      /\ OBSController.last_known_stop_path (deliver stop_with_path obs_fresh)
         = Some "/rec/out.mkv").
Proof.
  split; (split; [reflexivity |]).
  - apply (cache_updated_by_stop_events_only
             (RecordingStarted (Some "/rec/new.mkv")) obs_cached).
    reflexivity.
  - apply (cache_updated_by_stop_events_only stop_with_path obs_fresh).
    reflexivity.
Defined.

(** ** The hotkey *)

(** C6. A hotkey activation that finds [is_recording] false, or no current
    project, or no recording window, returns normally, leaves the whole
    application state unchanged (every timestamp list, the pending timers,
    the files) and performs no effect. *)
Theorem hotkey_ignored_unless_recording (now : Q) (app : MainApp.t) :
  MainApp.is_recording app = false
  \/ MainApp.current_recording_project app = None
  \/ MainApp.recording_window app = None ->
  MainApp.global_hotkey_callback now app = (app, []).
Proof.
  unfold MainApp.global_hotkey_callback.
  intros [-> | [-> | ->]]; [done | by destruct (MainApp.is_recording app) |].
  by destruct (MainApp.is_recording app),
              (MainApp.current_recording_project app).
Qed.

Lemma hotkey_ignored_unless_recording_witness :
  (MainApp.is_recording (initial "projects" empty_fs) = false
   \/ MainApp.current_recording_project (initial "projects" empty_fs) = None
   \/ MainApp.recording_window (initial "projects" empty_fs) = None)
  /\ MainApp.global_hotkey_callback 5 (initial "projects" empty_fs)
     = (initial "projects" empty_fs, []).
Proof.
  split; [left; reflexivity |].
  apply (hotkey_ignored_unless_recording 5 (initial "projects" empty_fs)).
  left; reflexivity.
Defined.

(** ** Project *)

Lemma set_note_out_of_range (index : Z) (note : string) (p : Project.t) :
  (index < 0 \/ Z.of_nat (length (Project.timestamps p)) <= index)%Z ->
  Project.set_note index note p = p.
Proof.
  intros H. unfold Project.set_note.
  destruct (Z.leb_spec 0 index), (Z.ltb_spec index
    (Z.of_nat (length (Project.timestamps p)))); simpl; try done; lia.
Qed.

Lemma set_note_in_range (index : Z) (note : string) (p : Project.t) :
  (0 <= index < Z.of_nat (length (Project.timestamps p)))%Z ->
  Project.set_note index note p
  = {| Project.name := Project.name p;
       Project.video_file_path := Project.video_file_path p;
       Project.timestamps :=
         alter (fun ts => {| Project.sec := Project.sec ts;
                             Project.note := note |})
               (Z.to_nat index) (Project.timestamps p) |}.
Proof.
  intros H. unfold Project.set_note.
  destruct (Z.leb_spec 0 index), (Z.ltb_spec index
    (Z.of_nat (length (Project.timestamps p)))); simpl; try done; lia.
Qed.

(** C9. [set_note] is total. With an index that is negative or not below
    the number of timestamps it returns the project unchanged; with an
    index in range it keeps the name, the video path, the number of
    timestamps and every other entry, and in the entry at the index it keeps
    [sec] and replaces [note]. *)
Theorem set_note_total_and_local (index : Z) (note : string) (p : Project.t) :
  ((index < 0 \/ Z.of_nat (length (Project.timestamps p)) <= index)%Z ->
   Project.set_note index note p = p)
  /\ ((0 <= index < Z.of_nat (length (Project.timestamps p)))%Z ->
      let p' := Project.set_note index note p in
      Project.name p' = Project.name p
      /\ Project.video_file_path p' = Project.video_file_path p
      /\ length (Project.timestamps p') = length (Project.timestamps p)
      /\ Project.timestamps p' !! Z.to_nat index
         = (fun ts => {| Project.sec := Project.sec ts; Project.note := note |})
             <$> Project.timestamps p !! Z.to_nat index
      /\ forall j : nat,
           j <> Z.to_nat index ->
           Project.timestamps p' !! j = Project.timestamps p !! j).
Proof.
  split; [apply set_note_out_of_range |].
  intros H p'. subst p'. rewrite (set_note_in_range _ _ _ H). simpl.
  repeat split.
  - apply length_alter.
  - apply list_lookup_alter_eq.
  - intros j Hj. by apply list_lookup_alter_ne.
Qed.

Lemma set_note_total_and_local_witness :
  ((-1 < 0 \/ Z.of_nat (length (Project.timestamps three_marks)) <= -1)%Z
   /\ Project.set_note (-1) "x" three_marks = three_marks)
  /\ ((0 <= 2 < Z.of_nat (length (Project.timestamps three_marks)))%Z
      /\ Project.timestamps (Project.set_note 2 "x" three_marks) !! 2%nat
         = Some {| Project.sec := 40; Project.note := "x" |}
      /\ Project.timestamps (Project.set_note 2 "x" three_marks) !! 1%nat
         = Some {| Project.sec := Qmake 1230 100; Project.note := "intro" |}).
Proof.
  split.
  - split; [left; lia |].
    apply (set_note_total_and_local (-1) "x" three_marks). left; lia.
  - split; [simpl; lia |].
    destruct (set_note_total_and_local 2 "x" three_marks) as [_ H].
    destruct H as (_ & _ & _ & H2 & Hj); [simpl; lia |].
    split; [exact H2 | exact (Hj 1%nat ltac:(discriminate))].
Defined.

Lemma os_path_exists_false (path : string) (fs : filesystem) :
  os_path_exists path fs = false <-> files fs !! path = None.
Proof.
  unfold os_path_exists. rewrite bool_decide_eq_false.
  by rewrite <- eq_None_not_Some.
Qed.

Lemma os_path_exists_true (path : string) (fs : filesystem) :
  os_path_exists path fs = true <-> is_Some (files fs !! path).
Proof. unfold os_path_exists. apply bool_decide_eq_true. Qed.

Lemma from_dict_raises (j : json) :
  (forall v, subscript j "name" <> Ok v) <->
  exists e, Project.from_dict j = Raise e.
Proof.
  unfold Project.from_dict. destruct (subscript j "name") as [v|e].
  - split; [intros H; by destruct (H v) | intros [e [=]]].
  - split; [eauto | done].
Qed.

Lemma load_json_None (folder name : string) (fs : filesystem) :
  Project.load_json folder name fs = None <->
  files fs !! Project.file_path folder name = None
  \/ exists c, files fs !! Project.file_path folder name = Some c /\ corrupt c.
Proof.
  unfold Project.load_json, read_json.
  destruct (os_path_exists _ fs) eqn:Hex; simpl.
  - apply os_path_exists_true in Hex as [c Hc]. rewrite Hc.
    destruct c as [j|]; simpl.
    + destruct (Project.from_dict j) as [o|e] eqn:Hj.
      * split; [done |]. intros [[=] | (c & [= <-] & Hcor)]. simpl in Hcor.
        apply from_dict_raises in Hcor as [e He]. congruence.
      * split; [| done]. intros _. right. eexists; split; [done |].
        simpl. apply from_dict_raises. eauto.
    + split; [| done]. intros _. right. by exists Garbage.
  - apply os_path_exists_false in Hex. split; [by left | done].
Qed.

(** C10. [load_json] is total and answers [None] both when no file exists
    for the key and when the file exists but is corrupt (unparsable, or
    parsed to a value without a ["name"] entry); these are the only cases
    in which it answers [None], and its answer does not tell them apart. *)
Theorem load_json_merges_missing_and_corrupt (folder name : string)
    (fs : filesystem) :
  (files fs !! Project.file_path folder name = None ->
   Project.load_json folder name fs = None)
  /\ (forall c, files fs !! Project.file_path folder name = Some c ->
                corrupt c -> Project.load_json folder name fs = None)
  /\ (Project.load_json folder name fs = None ->
      files fs !! Project.file_path folder name = None
      \/ exists c, files fs !! Project.file_path folder name = Some c
                   /\ corrupt c).
Proof.
  repeat split.
  - intros H. apply load_json_None. by left.
  - intros c Hc Hcor. apply load_json_None. right. eauto.
  - apply load_json_None.
Qed.

Lemma load_json_merges_missing_and_corrupt_witness :
  (files damaged_fs !! Project.file_path "projects" "absent" = None
   /\ Project.load_json "projects" "absent" damaged_fs = None)
  /\ (files damaged_fs !! Project.file_path "projects" "broken" = Some Garbage
      /\ corrupt Garbage
      /\ Project.load_json "projects" "broken" damaged_fs = None)
  /\ (files damaged_fs !! Project.file_path "projects" "nameless"
      = Some (Json_text (JObj [("timestamps", JArr [])]))
      /\ corrupt (Json_text (JObj [("timestamps", JArr [])]))
      /\ Project.load_json "projects" "nameless" damaged_fs = None).
Proof.
  assert (Hn : corrupt (Json_text (JObj [("timestamps", JArr [])])))
    by (intros v; discriminate).
  split; [| split].
  - split; [reflexivity |].
    apply (load_json_merges_missing_and_corrupt "projects" "absent" damaged_fs).
    reflexivity.
  - split; [reflexivity | split; [exact I |]].
    destruct (load_json_merges_missing_and_corrupt "projects" "broken"
                damaged_fs) as (_ & H & _).
    apply (H Garbage); [reflexivity | exact I].
  - split; [reflexivity | split; [exact Hn |]].
    destruct (load_json_merges_missing_and_corrupt "projects" "nameless"
                damaged_fs) as (_ & H & _).
    apply (H (Json_text (JObj [("timestamps", JArr [])])));
      [reflexivity | exact Hn].
Defined.

(** ** Persistence *)

Lemma timestamp_json_inj : Inj (=) (=) Project.timestamp_json.
Proof.
  intros [s1 n1] [s2 n2]. unfold Project.timestamp_json. simpl.
  by intros [= -> ->].
Qed.

Lemma to_obj_inj : Inj (=) (=) Project.to_obj.
Proof.
  intros [n1 v1 t1] [n2 v2 t2]. unfold Project.to_obj. simpl.
  intros [= -> -> Ht]. f_equal.
  revert t2 Ht. induction t1 as [|a t1 IH]; intros [|b t2]; simpl; try done.
  intros Heq. injection Heq as Hs Hn Ht.
  destruct a, b; simpl in *; subst. f_equal. by apply IH.
Qed.

Lemma from_dict_to_dict (p : Project.t) :
  Project.from_dict (Project.to_dict (Project.to_obj p))
  = Ok (Project.to_obj p).
Proof.
  destruct p as [n v ts].
  unfold Project.from_dict, Project.to_dict, Project.to_obj, Project.__init__.
  simpl. do 2 f_equal.
  - destruct (String.eqb_spec v ""); by subst.
  - by destruct ts.
Qed.

Lemma write_record_unlocked (folder : string) (p : Project.t)
    (fs : filesystem) :
  Project.file_path folder (Project.name p) ∉ locked fs ->
  Project.write_record folder p fs
  = ({| files := <[Project.file_path folder (Project.name p) :=
                     Json_text (Project.to_dict (Project.to_obj p))]> (files fs);
        locked := locked fs |},
     [Fs_write (Project.file_path folder (Project.name p))
               (Json_text (Project.to_dict (Project.to_obj p)))]).
Proof.
  intros H. unfold Project.write_record, write_json.
  by rewrite bool_decide_eq_false_2.
Qed.

Lemma write_record_locked (folder : string) (p : Project.t) (fs : filesystem) :
  Project.file_path folder (Project.name p) ∈ locked fs ->
  Project.write_record folder p fs = (fs, []).
Proof.
  intros H. unfold Project.write_record, write_json.
  by rewrite bool_decide_eq_true_2.
Qed.

Lemma save_json_returns (folder : string) (p : Project.t) (fs : filesystem) :
  os_makedirs folder fs = true ->
  Project.save_json folder p fs = Ok (Project.write_record folder p fs).
Proof. intros H. unfold Project.save_json. by rewrite H. Qed.

Lemma save_json_raises (folder : string) (p : Project.t) (fs : filesystem) :
  os_makedirs folder fs = false ->
  Project.save_json folder p fs = Raise OSError.
Proof. intros H. unfold Project.save_json. by rewrite H. Qed.

Lemma load_json_stored (folder name : string) (p : Project.t) (fs : filesystem) :
  files fs !! Project.file_path folder name
  = Some (Json_text (Project.to_dict (Project.to_obj p))) ->
  Project.load_json folder name fs = Some (Project.to_obj p).
Proof.
  intros H. unfold Project.load_json, read_json.
  rewrite (proj2 (os_path_exists_true _ fs)) by (rewrite H; eauto).
  simpl. by rewrite H, from_dict_to_dict.
Qed.

(** C7. Persistence round-trips. [from_dict] rebuilds from the dictionary
    of a project the instance that project is, and no other project is
    that instance; hence saving a project and then loading by its name
    yields that very project. This holds for every name, every video path
    including the empty one and every list of timestamps including the
    empty one, with empty or non-empty notes; for the file, provided the
    project was saved: [os.makedirs] returned for the folder and the store
    took the write. When [os.makedirs] raises, [save_json] raises and
    there is nothing to load. *)
Theorem save_load_round_trip (folder : string) (p : Project.t)
    (fs : filesystem) :
  Project.from_dict (Project.to_dict (Project.to_obj p)) = Ok (Project.to_obj p)
  /\ (forall q : Project.t, Project.to_obj q = Project.to_obj p -> q = p)
  /\ (os_makedirs folder fs = true ->
      Project.file_path folder (Project.name p) ∉ locked fs ->
      exists fs' tr,
        Project.save_json folder p fs = Ok (fs', tr)
        /\ Project.load_json folder (Project.name p) fs'
           = Some (Project.to_obj p))
  /\ (os_makedirs folder fs = false ->
      Project.save_json folder p fs = Raise OSError).
Proof.
  split; [apply from_dict_to_dict |].
  split; [intros q Hq; by apply to_obj_inj |].
  split; [| apply save_json_raises].
  intros Hm H. rewrite (save_json_returns _ _ _ Hm).
  rewrite (write_record_unlocked _ _ _ H). do 2 eexists. split; [done |].
  apply load_json_stored. cbn [files]. apply lookup_insert_eq.
Qed.

Lemma save_load_round_trip_witness :
  (os_makedirs "projects" damaged_fs = true
   /\ Project.file_path "projects" (Project.name three_marks)
      ∉ locked damaged_fs)
  /\ (exists fs' tr,
        Project.save_json "projects" three_marks damaged_fs = Ok (fs', tr)
        /\ Project.load_json "projects" (Project.name three_marks) fs'
           = Some (Project.to_obj three_marks))
  /\ Project.save_json "" three_marks damaged_fs = Raise OSError.
Proof.
  assert (H : Project.file_path "projects" (Project.name three_marks)
              ∉ locked damaged_fs) by (simpl; apply not_elem_of_empty).
  destruct (save_load_round_trip "projects" three_marks damaged_fs)
    as (_ & _ & Hsave & _).
  destruct (save_load_round_trip "" three_marks damaged_fs)
    as (_ & _ & _ & Hraise).
  split; [split; [reflexivity | exact H] |].
  split; [exact (Hsave eq_refl H) | exact (Hraise eq_refl)].
Defined.

(** ** Handlers: composition and frames *)

Import MainApp.

Lemma and_then_eq (f g : handler) (s : MainApp.t) :
  (f >> g) s = (fst (g (fst (f s))), snd (f s) ++ snd (g (fst (f s)))).
Proof.
  unfold and_then. destruct (f s) as [s1 tr1]. simpl.
  by destruct (g s1) as [s2 tr2].
Qed.

Lemma set_fs_id (s : MainApp.t) : set_fs (fs s) s = s.
Proof. by destruct s. Qed.

Lemma replay_app (tr1 tr2 : trace) (fs0 : filesystem) :
  replay (tr1 ++ tr2) fs0 = replay tr2 (replay tr1 fs0).
Proof. apply foldl_app. Qed.

Lemma replay_locked (tr : trace) (fs0 : filesystem) :
  locked (replay tr fs0) = locked fs0.
Proof.
  revert fs0. induction tr as [|e tr IH]; intros fs0; [done |].
  change (replay (e :: tr) fs0) with (replay tr (apply_effect e fs0)).
  rewrite IH. by destruct e.
Qed.

Lemma store_only_locked (h : handler) (s : t) :
  store_only h -> locked (fs (fst (h s))) = locked (fs s).
Proof. intros H. rewrite (H s). simpl. apply replay_locked. Qed.

Lemma store_only_and_then (f g : handler) :
  store_only f -> store_only g -> store_only (f >> g).
Proof.
  intros Hf Hg s. rewrite and_then_eq. simpl. rewrite replay_app.
  set (s1 := fst (f s)). rewrite (Hg s1).
  assert (Hs1 : s1 = set_fs (replay (snd (f s)) (fs s)) s) by apply Hf.
  replace (fs s1) with (replay (snd (f s)) (fs s))
    by (rewrite Hs1; by destruct s).
  generalize (replay (snd (g s1)) (replay (snd (f s)) (fs s))). intros x.
  rewrite Hs1. by destruct s.
Qed.

Lemma filesystem_eta (x : filesystem) :
  {| files := files x; locked := locked x |} = x.
Proof. by destruct x. Qed.

Lemma store_only_write_record (folder : string) (p : Project.t)
    (fs0 : filesystem) :
  fst (Project.write_record folder p fs0)
  = replay (snd (Project.write_record folder p fs0)) fs0.
Proof.
  unfold Project.write_record, write_json. by case_bool_decide.
Qed.

(** ** Statements that may raise *)

Lemma try_then_eq (a b : attempt) (s : t) :
  (a >>> b) s
  = if snd (a s) then
      (fst (fst (b (fst (fst (a s))))),
       snd (fst (a s)) ++ snd (fst (b (fst (fst (a s))))),
       snd (b (fst (fst (a s)))))
    else (fst (a s), false).
Proof.
  unfold try_then. destruct (a s) as [[s1 tr1] []]; simpl; [| done].
  by destruct (b s1) as [[s2 tr2] ok].
Qed.

Lemma slot_ret (h : handler) (s : t) : slot (ret h) s = h s.
Proof. done. Qed.

Lemma slot_try_then (a b : attempt) (s : t) :
  snd (a s) = true -> slot (a >>> b) s = (slot a >> slot b) s.
Proof.
  intros H. unfold slot. rewrite try_then_eq, H, and_then_eq. done.
Qed.

Lemma slot_try_then_raised (a b : attempt) (s : t) :
  snd (a s) = false -> slot (a >>> b) s = slot a s.
Proof. intros H. unfold slot. by rewrite try_then_eq, H. Qed.

Lemma returned_try_then (a b : attempt) (s : t) :
  snd ((a >>> b) s) = snd (a s) && snd (b (fst (slot a s))).
Proof. rewrite try_then_eq. unfold slot. by destruct (snd (a s)). Qed.

Lemma and_then_congr (f f' g : handler) (s : t) :
  f s = f' s -> (f >> g) s = (f' >> g) s.
Proof. intros H. unfold and_then. by rewrite H. Qed.

(** What [save_project] and [close_recording_window] do when
    [os.makedirs] returns, and when it raises. *)
Lemma save_project_returns (r : nat) (s : t) :
  os_makedirs (projects_path s) (fs s) = true ->
  save_project r s
  = (match heap s !! r with
     | Some p =>
         (set_fs (fst (Project.write_record (projects_path s) p (fs s))) s,
          snd (Project.write_record (projects_path s) p (fs s)))
     | None => (s, [])
     end, true).
Proof.
  intros H. unfold save_project. destruct (heap s !! r) as [p|]; [| done].
  rewrite (save_json_returns _ _ _ H).
  by destruct (Project.write_record _ p (fs s)).
Qed.

Lemma save_project_raises (r : nat) (p : Project.t) (s : t) :
  os_makedirs (projects_path s) (fs s) = false ->
  heap s !! r = Some p ->
  save_project r s = (s, [], false).
Proof.
  intros H Hp. unfold save_project. by rewrite Hp, (save_json_raises _ _ _ H).
Qed.

Lemma slot_save_project_raised (r : nat) (s : t) :
  os_makedirs (projects_path s) (fs s) = false ->
  slot (save_project r) s = (s, []).
Proof.
  intros H. unfold slot, save_project. destruct (heap s !! r) as [p|]; [| done].
  by rewrite (save_json_raises _ _ _ H).
Qed.

Lemma close_recording_window_returns (s : t) :
  os_makedirs (projects_path s) (fs s) = true ->
  close_recording_window s
  = (match recording_window s with
     | Some w =>
         match heap s !! RecordingWindow.project w with
         | Some p =>
             (set_fs (fst (Project.write_record (projects_path s) p (fs s))) s,
              snd (Project.write_record (projects_path s) p (fs s)))
         | None => (set_fs (fs s) s, [])
         end
     | None => (s, [])
     end, true).
Proof.
  intros H. unfold close_recording_window, RecordingWindow.closeEvent.
  destruct (recording_window s) as [w|]; [| done].
  destruct (heap s !! RecordingWindow.project w) as [p|]; [| done].
  rewrite (save_json_returns _ _ _ H).
  by destruct (Project.write_record _ p (fs s)).
Qed.

Lemma slot_close_recording_window_raised (s : t) :
  os_makedirs (projects_path s) (fs s) = false ->
  slot close_recording_window s = (s, []).
Proof.
  intros H. unfold slot, close_recording_window, RecordingWindow.closeEvent.
  destruct (recording_window s) as [w|]; [| done].
  destruct (heap s !! RecordingWindow.project w) as [p|];
    [| simpl; by rewrite set_fs_id].
  by rewrite (save_json_raises _ _ _ H).
Qed.

Lemma store_only_save_project (r : nat) : store_only (slot (save_project r)).
Proof.
  intros s.
  destruct (os_makedirs (projects_path s) (fs s)) eqn:H.
  - unfold slot. rewrite (save_project_returns r s H). simpl.
    destruct (heap s !! r) as [p|]; simpl; [| by rewrite set_fs_id].
    by rewrite store_only_write_record.
  - rewrite (slot_save_project_raised r s H). simpl. by rewrite set_fs_id.
Qed.

Lemma store_only_close_recording_window :
  store_only (slot close_recording_window).
Proof.
  intros s.
  destruct (os_makedirs (projects_path s) (fs s)) eqn:H.
  - unfold slot. rewrite (close_recording_window_returns s H). simpl.
    destruct (recording_window s) as [w|]; simpl; [| by rewrite set_fs_id].
    destruct (heap s !! RecordingWindow.project w) as [p|]; simpl;
      [| by rewrite !set_fs_id].
    by rewrite store_only_write_record.
  - rewrite (slot_close_recording_window_raised s H). simpl.
    by rewrite set_fs_id.
Qed.

Lemma store_only_remove_if_exists (old_file : string) :
  store_only (remove_if_exists old_file).
Proof.
  intros s. unfold remove_if_exists, os_remove.
  destruct (os_path_exists old_file (fs s)); [| simpl; by rewrite set_fs_id].
  case_bool_decide; [simpl; by rewrite set_fs_id |].
  destruct (files (fs s) !! old_file); simpl; [done | by rewrite set_fs_id].
Qed.

Lemma store_only_open_project_edit (n : string) :
  store_only (open_project_edit n).
Proof.
  intros s. unfold open_project_edit.
  destruct (Project.load_json _ n (fs s)); simpl; by rewrite set_fs_id.
Qed.

Lemma fs_independent_fs (g : t -> t) (s : t) :
  fs_independent g -> fs (g s) = fs s.
Proof.
  intros Hg. specialize (Hg (fs s) s). rewrite set_fs_id in Hg.
  rewrite Hg at 1. by destruct (g s).
Qed.

Lemma set_fs_set_fs (x y : filesystem) (s : t) :
  set_fs x (set_fs y s) = set_fs x s.
Proof. by destruct s. Qed.

Lemma acts_as_store_only (h : handler) : store_only h -> acts_as id h.
Proof. intros H s. apply H. Qed.

Lemma acts_as_modify (g : t -> t) : fs_independent g -> acts_as g (modify g).
Proof.
  intros Hg s. unfold modify. simpl.
  rewrite <- (fs_independent_fs g s Hg). by rewrite set_fs_id.
Qed.

Lemma acts_as_and_then (g1 g2 : t -> t) (h1 h2 : handler) :
  acts_as g1 h1 -> acts_as g2 h2 -> fs_independent g1 -> fs_independent g2 ->
  acts_as (g2 ∘ g1) (h1 >> h2).
Proof.
  intros H1 H2 I1 I2 s. rewrite and_then_eq. simpl. rewrite replay_app.
  set (s1 := fst (h1 s)). rewrite (H2 s1).
  assert (Hs1 : s1 = set_fs (replay (snd (h1 s)) (fs s)) (g1 s)) by apply H1.
  replace (fs s1) with (replay (snd (h1 s)) (fs s))
    by (rewrite Hs1; by destruct (g1 s)).
  generalize (replay (snd (h2 s1)) (replay (snd (h1 s)) (fs s))). intros x.
  rewrite Hs1, I2. apply set_fs_set_fs.
Qed.

Lemma fs_independent_compose (g1 g2 : t -> t) :
  fs_independent g1 -> fs_independent g2 -> fs_independent (g2 ∘ g1).
Proof. intros H1 H2 x s. simpl. by rewrite H1, H2. Qed.

Lemma acts_as_dep (g : t -> t) (h : t -> handler) :
  (forall s0, acts_as g (h s0)) -> acts_as g (fun self => h self self).
Proof. intros H s. apply (H s s). Qed.

Lemma acts_as_ext (g g' : t -> t) (h : handler) :
  (forall s, g s = g' s) -> acts_as g h -> acts_as g' h.
Proof. intros E H s. rewrite <- E. apply H. Qed.

Lemma fs_independent_id : fs_independent id.
Proof. done. Qed.

Lemma fs_independent_update_project (r : nat) (f : Project.t -> Project.t) :
  fs_independent (update_project r f).
Proof. by intros x []. Qed.

Lemma fs_independent_set_recording_window (w : option RecordingWindow.t) :
  fs_independent (set_recording_window w).
Proof. by intros x []. Qed.

Lemma fs_independent_set_current (r : option nat) :
  fs_independent (set_current_recording_project r).
Proof. by intros x []. Qed.

Lemma fs_independent_clear_stop_path :
  fs_independent
    (fun self =>
       set_obs_controller (OBSController.clear_stop_path (obs_controller self))
                          self).
Proof. by intros x []. Qed.

Lemma fs_independent_set_is_recording (b : bool) :
  fs_independent (set_is_recording b).
Proof. by intros x []. Qed.

Lemma fs_independent_set_timers (l : list Z) : fs_independent (set_timers l).
Proof. by intros x []. Qed.

Lemma acts_as_clear_stop_path :
  acts_as
    (fun self =>
       set_obs_controller (OBSController.clear_stop_path (obs_controller self))
                          self)
    (modify
       (fun self =>
          set_obs_controller (OBSController.clear_stop_path (obs_controller self))
                             self)).
Proof. apply acts_as_modify, fs_independent_clear_stop_path. Qed.

Create HintDb frames.
#[local] Hint Resolve fs_independent_id fs_independent_update_project
  fs_independent_set_recording_window fs_independent_set_current
  fs_independent_clear_stop_path fs_independent_set_is_recording
  fs_independent_set_timers fs_independent_compose
  store_only_save_project store_only_close_recording_window
  store_only_remove_if_exists store_only_open_project_edit
  acts_as_store_only acts_as_modify acts_as_clear_stop_path : frames.

(** ** Frames of statements that may raise *)

Lemma tries_as_ret (g g' : t -> t) (h : handler) :
  acts_as g h -> tries_as g g' (ret h).
Proof. intros H s. apply H. Qed.

Lemma tries_as_store (a : attempt) : store_only (slot a) -> tries_as id id a.
Proof. intros H s. rewrite (H s) at 1. by destruct (snd (a s)). Qed.

Lemma tries_as_try_then (g1 g2 g' g2' : t -> t) (a b : attempt) :
  tries_as g1 g' a -> tries_as g2 g2' b ->
  fs_independent g1 -> fs_independent g2 -> fs_independent g2' ->
  (forall s, g2' (g1 s) = g' s) ->
  tries_as (g2 ∘ g1) g' (a >>> b).
Proof.
  intros Ha Hb I1 I2 I2' Hg s. rewrite try_then_eq.
  specialize (Ha s). destruct (snd (a s)); [| exact Ha].
  cbn [fst snd]. rewrite replay_app.
  set (s1 := fst (fst (a s))) in *. specialize (Hb s1).
  assert (Hfs : fs s1 = replay (snd (fst (a s))) (fs s))
    by (rewrite Ha; by destruct (g1 s)).
  rewrite Hfs in Hb. rewrite Hb.
  generalize (replay (snd (fst (b s1))) (replay (snd (fst (a s))) (fs s))).
  intros x. destruct (snd (b s1)); rewrite Ha.
  - rewrite I2. apply set_fs_set_fs.
  - rewrite I2', Hg. apply set_fs_set_fs.
Qed.

Lemma tries_as_try_ret (g1 g2 g' : t -> t) (a : attempt) (h : handler) :
  tries_as g1 g' a -> acts_as g2 h ->
  fs_independent g1 -> fs_independent g2 ->
  tries_as (g2 ∘ g1) g' (a >>> ret h).
Proof.
  intros Ha Hh I1 I2 s. rewrite try_then_eq.
  specialize (Ha s). destruct (snd (a s)); [| exact Ha].
  cbn [fst snd ret]. rewrite replay_app.
  set (s1 := fst (fst (a s))) in *. rewrite (Hh s1).
  replace (fs s1) with (replay (snd (fst (a s))) (fs s))
    by (rewrite Ha; by destruct (g1 s)).
  generalize (replay (snd (h s1)) (replay (snd (fst (a s))) (fs s))).
  intros x. rewrite Ha, I2. apply set_fs_set_fs.
Qed.

Lemma tries_as_dep (g g' : t -> t) (a : t -> attempt) :
  (forall s0, tries_as g g' (a s0)) -> tries_as g g' (fun self => a self self).
Proof. intros H s. apply (H s s). Qed.

Lemma tries_as_ext (g1 g1' g2 g2' : t -> t) (a : attempt) :
  (forall s, g1 s = g2 s) -> (forall s, g1' s = g2' s) ->
  tries_as g1 g1' a -> tries_as g2 g2' a.
Proof. intros E E' H s. rewrite <- E, <- E'. apply H. Qed.

Lemma tries_as_save_project (r : nat) : tries_as id id (save_project r).
Proof. apply tries_as_store, store_only_save_project. Qed.

Lemma tries_as_close_recording_window :
  tries_as id id close_recording_window.
Proof. apply tries_as_store, store_only_close_recording_window. Qed.

(** The folder and the refused paths are the same all along a handler. *)
Lemma acts_as_keeps_folder (g : t -> t) (h : handler) :
  acts_as g h -> (forall s, projects_path (g s) = projects_path s) ->
  keeps_folder h.
Proof.
  intros H Hg s. rewrite (H s). split.
  - rewrite <- (Hg s). by destruct (g s).
  - replace (fs (set_fs _ (g s))) with (replay (snd (h s)) (fs s))
      by (by destruct (g s)).
    apply replay_locked.
Qed.

Lemma tries_as_keeps_folder (g g' : t -> t) (a : attempt) :
  tries_as g g' a ->
  (forall s, projects_path (g s) = projects_path s) ->
  (forall s, projects_path (g' s) = projects_path s) ->
  keeps_folder (slot a).
Proof.
  intros H Hg Hg' s. unfold slot. rewrite (H s).
  destruct (snd (a s)).
  - split; [rewrite <- (Hg s); by destruct (g s) |].
    replace (fs (set_fs _ (g s))) with (replay (snd (fst (a s))) (fs s))
      by (by destruct (g s)).
    apply replay_locked.
  - split; [rewrite <- (Hg' s); by destruct (g' s) |].
    replace (fs (set_fs _ (g' s))) with (replay (snd (fst (a s))) (fs s))
      by (by destruct (g' s)).
    apply replay_locked.
Qed.

Lemma keeps_folder_makedirs (h : handler) (s : t) :
  keeps_folder h ->
  os_makedirs (projects_path (fst (h s))) (fs (fst (h s)))
  = os_makedirs (projects_path s) (fs s).
Proof. intros H. destruct (H s) as [Hp Hl]. unfold os_makedirs. by rewrite Hp, Hl. Qed.

(** ** Store operations that succeed *)

Lemma save_project_unlocked (r : nat) (p : Project.t) (s : t) :
  os_makedirs (projects_path s) (fs s) = true ->
  heap s !! r = Some p ->
  Project.file_path (projects_path s) (Project.name p) ∉ locked (fs s) ->
  slot (save_project r) s
  = (set_fs (written (Project.file_path (projects_path s) (Project.name p))
                     (Json_text (Project.to_dict (Project.to_obj p))) (fs s)) s,
     [Fs_write (Project.file_path (projects_path s) (Project.name p))
               (Json_text (Project.to_dict (Project.to_obj p)))]).
Proof.
  intros Hm Hp Hl. unfold slot. rewrite (save_project_returns r s Hm), Hp.
  by rewrite (write_record_unlocked _ _ _ Hl).
Qed.

Lemma close_recording_window_unlocked (w : RecordingWindow.t) (p : Project.t)
    (s : t) :
  os_makedirs (projects_path s) (fs s) = true ->
  recording_window s = Some w ->
  heap s !! RecordingWindow.project w = Some p ->
  Project.file_path (projects_path s) (Project.name p) ∉ locked (fs s) ->
  slot close_recording_window s
  = (set_fs (written (Project.file_path (projects_path s) (Project.name p))
                     (Json_text (Project.to_dict (Project.to_obj p))) (fs s)) s,
     [Fs_write (Project.file_path (projects_path s) (Project.name p))
               (Json_text (Project.to_dict (Project.to_obj p)))]).
Proof.
  intros Hm Hw Hp Hl. unfold slot.
  rewrite (close_recording_window_returns s Hm), Hw, Hp.
  by rewrite (write_record_unlocked _ _ _ Hl).
Qed.

Lemma save_project_locked (r : nat) (p : Project.t) (s : t) :
  os_makedirs (projects_path s) (fs s) = true ->
  heap s !! r = Some p ->
  Project.file_path (projects_path s) (Project.name p) ∈ locked (fs s) ->
  slot (save_project r) s = (s, []).
Proof.
  intros Hm Hp Hl. unfold slot. rewrite (save_project_returns r s Hm), Hp.
  rewrite (write_record_locked _ _ _ Hl). simpl. by rewrite set_fs_id.
Qed.

Lemma close_recording_window_locked (w : RecordingWindow.t) (p : Project.t)
    (s : t) :
  os_makedirs (projects_path s) (fs s) = true ->
  recording_window s = Some w ->
  heap s !! RecordingWindow.project w = Some p ->
  Project.file_path (projects_path s) (Project.name p) ∈ locked (fs s) ->
  slot close_recording_window s = (s, []).
Proof.
  intros Hm Hw Hp Hl. unfold slot.
  rewrite (close_recording_window_returns s Hm), Hw, Hp.
  rewrite (write_record_locked _ _ _ Hl). simpl. by rewrite set_fs_id.
Qed.

Lemma close_recording_window_none (s : t) :
  recording_window s = None -> close_recording_window s = (s, [], true).
Proof. intros H. unfold close_recording_window. by rewrite H. Qed.

Lemma open_project_edit_found (p : Project.t) (s : t) :
  files (fs s) !! Project.file_path (projects_path s) (Project.name p)
  = Some (Json_text (Project.to_dict (Project.to_obj p))) ->
  open_project_edit (Project.name p) s = (s, [Show_edit_window (Project.name p)]).
Proof.
  intros H. unfold open_project_edit. by rewrite (load_json_stored _ _ p).
Qed.

Lemma remove_if_exists_done (old_file : string) (s : t) :
  is_Some (files (fs s) !! old_file) ->
  old_file ∉ locked (fs s) ->
  remove_if_exists old_file s
  = (set_fs (removed old_file (fs s)) s, [Fs_remove old_file]).
Proof.
  intros [c Hc] Hl. unfold remove_if_exists, os_remove.
  rewrite (proj2 (os_path_exists_true _ _)) by (rewrite Hc; eauto).
  by rewrite bool_decide_eq_false_2, Hc.
Qed.

Lemma remove_if_exists_absent (old_file : string) (s : t) :
  files (fs s) !! old_file = None ->
  remove_if_exists old_file s = (s, []).
Proof.
  intros H. unfold remove_if_exists.
  by rewrite (proj2 (os_path_exists_false _ _)).
Qed.

(** ** Finalization *)

Ltac pointwise g :=
  match goal with
  | |- fst (?h ?s) = _ => cut (acts_as g h); [intros Hpw; apply (Hpw s) |]
  end.

(** Reduces [acts_as g h], for [h] a sequence of attribute updates and
    store operations, to the fact that [g] is the composed update. *)
Ltac by_frames :=
  eapply acts_as_ext; cycle 1;
  [solve [repeat eapply acts_as_and_then; eauto 8 with frames] |].

Lemma returned_try_ret (a : attempt) (h : handler) (s : t) :
  snd ((a >>> ret h) s) = snd (a s).
Proof. rewrite returned_try_then. apply andb_true_r. Qed.

Lemma slot_try_ret (a : attempt) (h : handler) (s : t) :
  snd (a s) = true -> slot (a >>> ret h) s = (slot a >> h) s.
Proof. apply slot_try_then. Qed.

Lemma ret_try_ret (h1 h2 : handler) (s : t) :
  (ret h1 >>> ret h2) s = ret (h1 >> h2) s.
Proof.
  rewrite try_then_eq. unfold ret. cbn [fst snd]. by rewrite and_then_eq.
Qed.

Lemma try_then_congr (a a' b : attempt) (s : t) :
  a s = a' s -> (a >>> b) s = (a' >>> b) s.
Proof. intros H. unfold try_then. by rewrite H. Qed.

Lemma and_then_congr_r (f g g' : handler) (s : t) :
  g (fst (f s)) = g' (fst (f s)) -> (f >> g) s = (f >> g') s.
Proof. intros H. rewrite !and_then_eq. by rewrite H. Qed.

(** The updates of the project that precede the first [save_json]. *)
Lemma finalize_updates_tries (final_path : string) (r : nat) :
  tries_as (update_project r (finalized_project final_path))
           (update_project r (finalized_project final_path))
    (finalize_store final_path r).
Proof.
  unfold finalized_project, finalize_store.
  destruct (str_truthy final_path);
    [destruct (str_truthy (os_path_basename final_path)) |]; cbv zeta.
  - apply (tries_as_dep _ _
             (fun s0 =>
                ret (modify (update_project r
                               (Project.set_name (os_path_basename final_path))))
                >>> ret (modify (update_project r
                                   (Project.set_video_file_path final_path)))
                >>> ret (remove_if_exists
                           (Project.file_path (projects_path s0)
                              (project_name r s0)))
                >>> save_project r)).
    intros s0.
    eapply tries_as_ext; cycle 2.
    + eapply tries_as_try_then;
        [eapply tries_as_try_ret;
           [eapply tries_as_try_ret;
              [apply tries_as_ret, acts_as_modify; auto with frames
              | apply acts_as_modify; auto with frames | auto with frames ..]
           | apply acts_as_store_only, store_only_remove_if_exists
           | auto with frames ..]
        | apply tries_as_save_project | auto with frames ..].
    + intros []; unfold update_project, set_heap; simpl.
      by rewrite list_alter_alter_eq.
    + intros []; unfold update_project, set_heap; simpl.
      by rewrite list_alter_alter_eq.
  - eapply tries_as_ext; cycle 2.
    + eapply tries_as_try_then;
        [apply tries_as_ret, acts_as_modify; auto with frames
        | apply tries_as_save_project | auto with frames ..].
    + done.
    + done.
  - eapply tries_as_ext; cycle 2; [apply tries_as_save_project | |];
      intros []; unfold update_project, set_heap; simpl;
      by rewrite list_alter_id.
Qed.

Lemma close_window_tries :
  tries_as (set_recording_window None) id finalize_window.
Proof.
  intros s. unfold finalize_window. destruct (recording_window s) eqn:Hw.
  - assert (H : tries_as (set_recording_window None ∘ id) id
                  (close_recording_window
                   >>> ret (modify (set_recording_window None)))).
    { apply tries_as_try_ret; auto with frames.
      apply tries_as_close_recording_window. }
    apply (H s).
  - simpl. destruct s; simpl in *; by subst.
Qed.

(** All of [_finalize_with_path]: the updates of [finalized] when it runs
    to its end, those of [aborted] when an exception leaves it. *)
Lemma finalize_tries (final_path : string) (r : nat) :
  tries_as (finalized final_path r) (aborted final_path r)
           (finalize_statements final_path r).
Proof.
  unfold finalize_statements.
  eapply tries_as_ext; cycle 2.
  - eapply tries_as_try_ret;
      [eapply tries_as_try_ret;
         [eapply tries_as_try_ret;
            [eapply tries_as_try_then;
               [apply finalize_updates_tries | apply close_window_tries
               | auto with frames ..]
            | apply acts_as_store_only; intros s0;
              apply store_only_open_project_edit
            | auto 8 with frames ..]
         | apply acts_as_clear_stop_path | auto 8 with frames ..]
      | apply acts_as_modify; auto with frames | auto 8 with frames ..].
  - done.
  - done.
Qed.

Lemma finalize_state (final_path : string) (r : nat) (s : t) :
  current_recording_project s = Some r ->
  fst (_finalize_with_path final_path s)
  = set_fs (replay (snd (_finalize_with_path final_path s)) (fs s))
           (if snd (finalize_statements final_path r s)
            then finalized final_path r s else aborted final_path r s).
Proof.
  intros Hcur. unfold _finalize_with_path. rewrite Hcur.
  apply (finalize_tries final_path r s).
Qed.

(** When [os.makedirs] returns, no exception leaves [_finalize_with_path]. *)
Lemma finalize_updates_keep_folder (final_path : string) (r : nat) :
  keeps_folder (slot (finalize_store final_path r)).
Proof.
  eapply tries_as_keeps_folder; [apply finalize_updates_tries | |];
    by intros [].
Qed.

Lemma finalize_updates_returned (final_path : string) (r : nat) (s : t) :
  os_makedirs (projects_path s) (fs s) = true ->
  snd (finalize_store final_path r s) = true.
Proof.
  intros Hm. unfold finalize_store. cbv zeta.
  destruct (str_truthy final_path);
    [destruct (str_truthy (os_path_basename final_path)) |]; cbv beta.
  - rewrite returned_try_then, !returned_try_ret. cbn [ret snd andb].
    set (s1 := fst (slot _ s)).
    assert (H1 : os_makedirs (projects_path s1) (fs s1) = true).
    { subst s1. rewrite <- Hm. apply keeps_folder_makedirs.
      eapply (tries_as_keeps_folder _ id);
        [eapply tries_as_try_ret;
           [eapply tries_as_try_ret;
              [apply tries_as_ret, acts_as_modify; auto with frames
              | apply acts_as_modify; auto with frames | auto with frames ..]
           | apply acts_as_store_only, store_only_remove_if_exists
           | auto with frames ..]
        | by intros [] | by intros []]. }
    by rewrite (save_project_returns r s1 H1).
  - rewrite returned_try_then. cbn [ret snd andb slot fst modify].
    by rewrite save_project_returns.
  - by rewrite save_project_returns.
Qed.

Lemma close_window_returned (s : t) :
  os_makedirs (projects_path s) (fs s) = true ->
  snd (finalize_window s) = true.
Proof.
  intros Hm. unfold finalize_window.
  destruct (recording_window s) eqn:Hw; [| done].
  rewrite returned_try_ret. by rewrite close_recording_window_returns.
Qed.

Lemma finalize_returned (final_path : string) (r : nat) (s : t) :
  os_makedirs (projects_path s) (fs s) = true ->
  snd (finalize_statements final_path r s) = true.
Proof.
  intros Hm. unfold finalize_statements.
  rewrite !returned_try_ret, returned_try_then.
  rewrite (finalize_updates_returned final_path r s Hm). cbn [andb].
  apply close_window_returned. rewrite <- Hm.
  apply keeps_folder_makedirs, finalize_updates_keep_folder.
Qed.

Lemma finalize_acts_as (final_path : string) (r : nat) (s : t) :
  os_makedirs (projects_path s) (fs s) = true ->
  current_recording_project s = Some r ->
  fst (_finalize_with_path final_path s)
  = set_fs (replay (snd (_finalize_with_path final_path s)) (fs s))
           (finalized final_path r s).
Proof.
  intros Hm Hcur. rewrite (finalize_state final_path r s Hcur).
  by rewrite (finalize_returned final_path r s Hm).
Qed.

(** Whether or not an exception leaves it, [_finalize_with_path] has
    either done nothing, or all its updates, or those of the project
    only. *)
Lemma finalize_cases (final_path : string) (s : t) :
  _finalize_with_path final_path s = (s, [])
  \/ exists r x, current_recording_project s = Some r
                 /\ locked x = locked (fs s)
                 /\ (fst (_finalize_with_path final_path s)
                     = set_fs x (finalized final_path r s)
                     \/ os_makedirs (projects_path s) (fs s) = false
                        /\ fst (_finalize_with_path final_path s)
                           = set_fs x (aborted final_path r s)).
Proof.
  destruct (current_recording_project s) as [r|] eqn:Hcur.
  - right. exists r. eexists. split; [done |]. split; [apply replay_locked |].
    rewrite (finalize_state final_path r s Hcur).
    destruct (os_makedirs (projects_path s) (fs s)) eqn:Hm.
    + left. by rewrite (finalize_returned final_path r s Hm).
    + destruct (snd (finalize_statements final_path r s));
        [by left | by right].
  - left. unfold _finalize_with_path. by rewrite Hcur.
Qed.

(** The project is updated before anything can raise. *)
Lemma finalize_alters (final_path : string) (r : nat) (s : t) :
  current_recording_project s = Some r ->
  heap (fst (_finalize_with_path final_path s))
  = alter (finalized_project final_path) r (heap s).
Proof.
  intros Hcur. rewrite (finalize_state final_path r s Hcur).
  by destruct (snd (finalize_statements final_path r s)).
Qed.

(** When [os.makedirs] returns, [_finalize_with_path] is the sequence of
    its statements. *)
Lemma finalize_returns (final_path : string) (r : nat) (s : t) :
  os_makedirs (projects_path s) (fs s) = true ->
  current_recording_project s = Some r ->
  _finalize_with_path final_path s
  = ((if str_truthy final_path then
        if str_truthy (os_path_basename final_path) then
          fun self =>
            (modify (update_project r
                       (Project.set_name (os_path_basename final_path)))
             >> modify (update_project r (Project.set_video_file_path final_path))
             >> remove_if_exists
                  (Project.file_path (projects_path self)
                     (project_name r self))
             >> slot (save_project r)) self
        else
          modify (update_project r (Project.set_video_file_path final_path))
          >> slot (save_project r)
      else slot (save_project r))
     >> (fun self =>
           match recording_window self with
           | Some _ =>
               (slot close_recording_window
                >> modify (set_recording_window None)) self
           | None => (self, [])
           end)
     >> (fun self => open_project_edit (project_name r self) self)
     >> modify (fun self =>
                  set_obs_controller
                    (OBSController.clear_stop_path (obs_controller self))
                    self)
     >> modify (set_current_recording_project None)) s.
Proof.
  intros Hm Hcur. unfold _finalize_with_path. rewrite Hcur.
  pose proof (finalize_returned final_path r s Hm) as Hret.
  unfold finalize_statements in *.
  rewrite !returned_try_ret in Hret.
  rewrite slot_try_ret by (by rewrite !returned_try_ret).
  apply and_then_congr.
  rewrite slot_try_ret by (by rewrite !returned_try_ret).
  apply and_then_congr.
  rewrite slot_try_ret by done.
  apply and_then_congr.
  rewrite returned_try_then in Hret. apply andb_true_iff in Hret as [HU HW].
  rewrite slot_try_then by done.
  etransitivity; [apply and_then_congr_r | apply and_then_congr].
  - unfold finalize_window in *. unfold slot at 1.
    destruct (recording_window _) eqn:Hwin; [| done].
    rewrite returned_try_ret in HW.
    by rewrite try_then_eq, HW, and_then_eq.
  - unfold finalize_store. cbv zeta. destruct (str_truthy final_path);
      [destruct (str_truthy (os_path_basename final_path)) |].
    + cbv beta. unfold slot at 1.
      rewrite (try_then_congr _ _ _ s
                 (try_then_congr _ _ _ s (ret_try_ret _ _ s))).
      rewrite (try_then_congr _ _ _ s (ret_try_ret _ _ s)).
      by rewrite try_then_eq, and_then_eq.
    + unfold slot at 1. by rewrite try_then_eq, and_then_eq.
    + done.
Qed.

(** C1. Whenever the push-event cache holds a non-empty path,
    [get_final_record_path] returns that path and sends no request to the
    gateway, whatever the gateway would have answered; a retrieval attempt
    made in such a state therefore finalizes with the cached path, which
    becomes the video path of the session. *)
Theorem pushed_path_wins (gw : gateway) (obs : OBSController.t) (p : string) :
  OBSController.last_known_stop_path obs = Some p ->
  p <> "" ->
  OBSController.get_final_record_path gw obs = (p, [])
  /\ forall (attempts_left : Z) (app : MainApp.t) (r : nat) (q : Project.t),
       obs_controller app = obs ->
       current_recording_project app = Some r ->
       heap app !! r = Some q ->
       _retrieve_final_path_with_retry gw attempts_left app
       = _finalize_with_path p app
       /\ Project.video_file_path
            <$> heap (fst (_retrieve_final_path_with_retry gw attempts_left app))
                !! r
          = Some p.
Proof.
  intros Hc Hp. split; [by apply cached_path_returned |].
  intros n app r q Hobs Hcur Hq.
  rewrite (cached_path_finalizes gw obs p Hc Hp n app Hobs) by eauto.
  split; [done |].
  rewrite (finalize_alters p r app Hcur).
  rewrite list_lookup_alter_eq, Hq. simpl. unfold finalized_project.
  rewrite (proj2 (str_truthy_true p) Hp).
  by destruct (str_truthy (os_path_basename p)).
Qed.

Lemma pushed_path_wins_witness :
  (OBSController.last_known_stop_path obs_cached = Some "/rec/out.mkv"
   /\ "/rec/out.mkv" <> "")
  /\ OBSController.get_final_record_path gw_hint obs_cached
     = ("/rec/out.mkv", [])
  /\ Project.video_file_path
       <$> heap (fst (_retrieve_final_path_with_retry gw_hint 5 stop_pushed))
           !! 0%nat
     = Some "/rec/out.mkv".
Proof.
  split; [split; [reflexivity | discriminate] |].
  destruct (pushed_path_wins gw_hint obs_cached "/rec/out.mkv" eq_refl
              ltac:(discriminate)) as [Hpath Hfin].
  split; [exact Hpath |].
  exact (proj2 (Hfin 5%Z stop_pushed 0%nat two_marks eq_refl eq_refl eq_refl)).
Defined.

(** ** The retrier *)

Lemma retrieve_no_project (gw : gateway) (n : Z) (s : t) :
  current_recording_project s = None ->
  _retrieve_final_path_with_retry gw n s = (s, []).
Proof. intros H. unfold _retrieve_final_path_with_retry. by rewrite H. Qed.

Lemma retrieve_found (gw : gateway) (n : Z) (s : t) (p : string) (calls : trace) :
  is_Some (current_recording_project s) ->
  OBSController.get_final_record_path gw (obs_controller s) = (p, calls) ->
  p <> "" ->
  _retrieve_final_path_with_retry gw n s
  = (fst (_finalize_with_path p s), calls ++ snd (_finalize_with_path p s)).
Proof.
  intros [r Hr] Hq Hp. unfold _retrieve_final_path_with_retry.
  rewrite Hr, Hq. apply str_truthy_true in Hp. rewrite Hp.
  by destruct (_finalize_with_path p s).
Qed.

Lemma retrieve_retry (gw : gateway) (n : Z) (s : t) (calls : trace) :
  is_Some (current_recording_project s) ->
  OBSController.get_final_record_path gw (obs_controller s) = ("", calls) ->
  (1 < n)%Z ->
  _retrieve_final_path_with_retry gw n s
  = (set_timers (timers s ++ [n - 1]%Z) s, calls ++ []).
Proof.
  intros [r Hr] Hq Hn. unfold _retrieve_final_path_with_retry.
  rewrite Hr, Hq. simpl.
  by rewrite (proj2 (Z.gtb_lt n 1)) by lia.
Qed.

Lemma retrieve_exhausted (gw : gateway) (n : Z) (s : t) (calls : trace) :
  is_Some (current_recording_project s) ->
  OBSController.get_final_record_path gw (obs_controller s) = ("", calls) ->
  (n <= 1)%Z ->
  _retrieve_final_path_with_retry gw n s
  = (fst (_finalize_with_path "" s), calls ++ snd (_finalize_with_path "" s)).
Proof.
  intros [r Hr] Hq Hn. unfold _retrieve_final_path_with_retry.
  rewrite Hr, Hq. simpl.
  destruct (Z.gtb_spec n 1); [lia |].
  by destruct (_finalize_with_path "" s).
Qed.

Lemma retrieve_cases (gw : gateway) (n : Z) (s : t) :
  fst (_retrieve_final_path_with_retry gw n s) = s
  \/ ((1 < n)%Z
      /\ fst (_retrieve_final_path_with_retry gw n s)
         = set_timers (timers s ++ [n - 1]%Z) s)
  \/ exists p r x,
       current_recording_project s = Some r
       /\ locked x = locked (fs s)
       /\ (fst (_retrieve_final_path_with_retry gw n s)
           = set_fs x (finalized p r s)
           \/ os_makedirs (projects_path s) (fs s) = false
              /\ fst (_retrieve_final_path_with_retry gw n s)
                 = set_fs x (aborted p r s)).
Proof.
  destruct (current_recording_project s) as [r|] eqn:Hcur;
    [| left; by rewrite retrieve_no_project].
  destruct (OBSController.get_final_record_path gw (obs_controller s))
    as [p calls] eqn:Hq.
  assert (Hfin : forall q,
            exists x, locked x = locked (fs s)
                      /\ (fst (_finalize_with_path q s)
                          = set_fs x (finalized q r s)
                          \/ os_makedirs (projects_path s) (fs s) = false
                             /\ fst (_finalize_with_path q s)
                                = set_fs x (aborted q r s))).
  { intros q.
    destruct (finalize_cases q s) as [H | (r' & x & Hr' & Hx & H)].
    - unfold _finalize_with_path in H. rewrite Hcur in H.
      pose proof (finalize_state q r s Hcur) as Hs.
      unfold _finalize_with_path in Hs. rewrite Hcur, H in Hs. simpl in Hs.
      exists (fs s). split; [done |].
      unfold _finalize_with_path. rewrite Hcur, H. simpl.
      destruct (os_makedirs (projects_path s) (fs s)) eqn:Hm.
      + left. by rewrite (finalize_returned q r s Hm) in Hs.
      + destruct (snd (finalize_statements q r s)); [by left | by right].
    - assert (r' = r) as -> by congruence. eauto. }
  destruct (String.eqb_spec p "") as [-> | Hp].
  - destruct (Z.lt_ge_cases 1 n).
    + right; left. split; [done |]. by erewrite retrieve_retry.
    + right; right. erewrite retrieve_exhausted by (eauto || lia). simpl.
      destruct (Hfin "") as (x & Hx & Hf). exists "", r, x. auto.
  - right; right. erewrite retrieve_found by eauto. simpl.
    destruct (Hfin p) as (x & Hx & Hf). exists p, r, x. auto.
Qed.

(** ** The poller *)

Section Poller.

Variables (gw gw_final : gateway) (t_name t_window : Q) (s : t).

Lemma check_disconnected :
  OBSController.is_connected (obs_controller s) = false ->
  check_record_status gw gw_final t_name t_window s = (s, []).
Proof. intros H. unfold check_record_status. by rewrite H. Qed.

Hypothesis is_conn : OBSController.is_connected (obs_controller s) = true.

Lemma check_no_signal (calls : trace) :
  poll gw = (None, calls) ->
  check_record_status gw gw_final t_name t_window s = (s, calls).
Proof.
  intros H. unfold check_record_status. by rewrite is_conn, H.
Qed.

Lemma check_same_signal (b : bool) (calls : trace) :
  poll gw = (Some b, calls) ->
  is_recording s = b ->
  check_record_status gw gw_final t_name t_window s = (s, calls ++ []).
Proof.
  intros H Hb. unfold check_record_status. rewrite is_conn, H, Hb.
  by destruct b.
Qed.

Lemma check_stop (calls : trace) :
  poll gw = (Some false, calls) ->
  is_recording s = true ->
  check_record_status gw gw_final t_name t_window s
  = (fst (_retrieve_final_path_with_retry gw_final 5
            (set_is_recording false s)),
     calls ++ snd (_retrieve_final_path_with_retry gw_final 5
                     (set_is_recording false s))).
Proof.
  intros H Hb. unfold check_record_status. rewrite is_conn, H, Hb. simpl.
  unfold and_then, modify.
  by destruct (_retrieve_final_path_with_retry _ _ _).
Qed.

Lemma check_start (calls : trace) :
  poll gw = (Some true, calls) ->
  is_recording s = false ->
  os_makedirs (projects_path s) (fs s) = true ->
  let saved :=
    Project.write_record (projects_path s) (placeholder t_name) (fs s) in
  let closed :=
    match recording_window s with
    | Some w =>
        match (heap s ++ [placeholder t_name]) !! RecordingWindow.project w with
        | Some p => Project.write_record (projects_path s) p (fst saved)
        | None => (fst saved, [])
        end
    | None => (fst saved, [])
    end in
  check_record_status gw gw_final t_name t_window s
  = (set_fs (fst closed) (started t_name t_window s),
     calls ++ snd saved ++ snd closed).
Proof.
  intros H Hb Hm saved closed. subst saved closed.
  unfold check_record_status. rewrite is_conn, H, Hb. cbn [negb andb].
  unfold slot, start_statements. fold (placeholder t_name).
  unfold try_then, ret, modify. cbv beta iota zeta.
  change (heap (set_is_recording true s)) with (heap s).
  set (s1 := set_heap (heap s ++ [placeholder t_name])
               (set_is_recording true s)).
  assert (Hm1 : os_makedirs (projects_path s1) (fs s1) = true) by exact Hm.
  rewrite (save_project_returns (length (heap s)) s1 Hm1).
  assert (Hl : heap s1 !! length (heap s) = Some (placeholder t_name))
    by (by apply list_lookup_middle).
  rewrite Hl. cbv beta iota zeta.
  change (projects_path s1) with (projects_path s).
  change (fs s1) with (fs s).
  destruct (Project.write_record (projects_path s) (placeholder t_name)
              (fs s)) as [fs1 tr1] eqn:Hw.
  cbn [fst snd].
  set (s2 := set_current_recording_project (Some (length (heap s)))
               (set_fs fs1 s1)).
  assert (Hm2 : os_makedirs (projects_path s2) (fs s2) = true).
  { unfold os_makedirs in *. cbn [s2 projects_path fs set_fs
      set_current_recording_project].
    replace (locked fs1) with (locked (fs s)); [exact Hm |].
    pose proof (store_only_write_record (projects_path s)
                  (placeholder t_name) (fs s)) as Hr.
    rewrite Hw in Hr. simpl in Hr. rewrite Hr. symmetry. apply replay_locked. }
  rewrite (close_recording_window_returns s2 Hm2). cbv beta iota zeta.
  change (recording_window s2) with (recording_window s).
  change (heap s2) with (heap s ++ [placeholder t_name]).
  change (projects_path s2) with (projects_path s).
  change (fs s2) with fs1.
  destruct (recording_window s) as [w|]; cbn [fst snd].
  - destruct ((heap s ++ [placeholder t_name]) !! RecordingWindow.project w)
      as [p|]; cbn [fst snd]; rewrite ?app_nil_r; by destruct s.
  - rewrite ?app_nil_r. by destruct s.
Qed.

(** When [os.makedirs] raises, the exception leaves the start branch right
    after the project was made: the recording counts as seen, and there is
    neither a current project nor a window for it. *)
Lemma check_start_raises (calls : trace) :
  poll gw = (Some true, calls) ->
  is_recording s = false ->
  os_makedirs (projects_path s) (fs s) = false ->
  check_record_status gw gw_final t_name t_window s
  = (set_heap (heap s ++ [placeholder t_name]) (set_is_recording true s),
     calls ++ []).
Proof.
  intros H Hb Hm.
  unfold check_record_status. rewrite is_conn, H, Hb. cbn [negb andb].
  unfold slot, start_statements. fold (placeholder t_name).
  unfold try_then, ret, modify. cbv beta iota zeta.
  change (heap (set_is_recording true s)) with (heap s).
  set (s1 := set_heap (heap s ++ [placeholder t_name])
               (set_is_recording true s)).
  assert (Hm1 : os_makedirs (projects_path s1) (fs s1) = false) by exact Hm.
  assert (Hl : heap s1 !! length (heap s) = Some (placeholder t_name))
    by (by apply list_lookup_middle).
  by rewrite (save_project_raises (length (heap s)) _ s1 Hm1 Hl).
Qed.

End Poller.

(** ** Runs of the event loop *)



Lemma run_cons (e : event) (evs : list event) (s : t) :
  run (e :: evs) s
  = (fst (run evs (fst (step e s))),
     snd (step e s) ++ snd (run evs (fst (step e s)))).
Proof. simpl. apply and_then_eq. Qed.

Lemma run_app (evs1 evs2 : list event) (s : t) :
  run (evs1 ++ evs2) s
  = (fst (run evs2 (fst (run evs1 s))),
     snd (run evs1 s) ++ snd (run evs2 (fst (run evs1 s)))).
Proof.
  revert s. induction evs1 as [|e evs1 IH]; intros s.
  - simpl. unfold skip. simpl. by destruct (run evs2 s).
  - rewrite <- app_comm_cons, !run_cons, IH. simpl. by rewrite app_assoc.
Qed.

Lemma run_app_fst (evs1 evs2 : list event) (s : t) :
  fst (run (evs1 ++ evs2) s) = fst (run evs2 (fst (run evs1 s))).
Proof. by rewrite run_app. Qed.

(** What one retrieval attempt leaves of the attributes the poller reads. *)
Lemma retrieve_poller_view (gw : gateway) (n : Z) (s : t) :
  let s' := fst (_retrieve_final_path_with_retry gw n s) in
  is_recording s' = is_recording s
  /\ length (heap s') = length (heap s)
  /\ OBSController.is_connected (obs_controller s')
     = OBSController.is_connected (obs_controller s).
Proof.
  destruct (retrieve_cases gw n s)
    as [-> | [[_ ->] | (p & r & x & _ & _ & [-> | [_ ->]])]];
    simpl; try done; by rewrite length_alter.
Qed.





(** ** Retry exhaustion *)

Lemma set_timers_set_timers (a b : list Z) (s : t) :
  set_timers a (set_timers b s) = set_timers a s.
Proof. by destruct s. Qed.

Lemma set_timers_id (s : t) : set_timers (timers s) s = s.
Proof. by destruct s. Qed.

Lemma retrieve_timers (gw : gateway) (n : Z) (s : t) :
  timers (fst (_retrieve_final_path_with_retry gw n s)) = timers s
  \/ ((1 < n)%Z
      /\ timers (fst (_retrieve_final_path_with_retry gw n s))
         = timers s ++ [n - 1]%Z).
Proof.
  destruct (retrieve_cases gw n s)
    as [-> | [[Hn ->] | (p & r & x & _ & _ & [-> | [_ ->]])]];
    simpl; auto.
Qed.

Lemma timer_fire_eq (gw : gateway) (n : Z) (rest : list Z) (s : t) :
  timers s = n :: rest ->
  timer_fire gw s
  = (fst (_retrieve_final_path_with_retry gw n (set_timers rest s)),
     snd (_retrieve_final_path_with_retry gw n (set_timers rest s))).
Proof.
  intros H. unfold timer_fire. rewrite H, and_then_eq. done.
Qed.

Section Exhaustion.

Variables (s : t) (r : nat) (p : Project.t).
Hypothesis current : current_recording_project s = Some r.
Hypothesis stored : heap s !! r = Some p.
Hypothesis window : forall w, recording_window s = Some w ->
                              RecordingWindow.project w = r.
Hypothesis folder : os_makedirs (projects_path s) (fs s) = true.

Lemma finalize_empty_heap :
  heap (fst (_finalize_with_path "" s)) = heap s.
Proof.
  rewrite (finalize_alters "" r s current). by apply list_alter_id.
Qed.

Lemma finalize_empty_trace :
  Project.file_path (projects_path s) (Project.name p) ∉ locked (fs s) ->
  snd (_finalize_with_path "" s)
  = Fs_write (Project.file_path (projects_path s) (Project.name p))
             (Json_text (Project.to_dict (Project.to_obj p)))
    :: match recording_window s with
       | Some _ =>
           [Fs_write (Project.file_path (projects_path s) (Project.name p))
                     (Json_text (Project.to_dict (Project.to_obj p)))]
       | None => []
       end
    ++ [Show_edit_window (Project.name p)].
Proof.
  intros Hl. rewrite (finalize_returns "" r s folder current).
  change (str_truthy "") with false. cbv iota.
  unfold and_then at 1 2 3 4.
  rewrite (save_project_unlocked r p s folder stored Hl). cbv beta iota zeta.
  set (path := Project.file_path (projects_path s) (Project.name p)) in *.
  set (record := Json_text (Project.to_dict (Project.to_obj p))).
  set (s1 := set_fs (written path record (fs s)) s).
  change (recording_window s1) with (recording_window s).
  assert (Hl1 : Project.file_path (projects_path s1) (Project.name p)
                ∉ locked (fs s1)) by done.
  assert (Hm1 : os_makedirs (projects_path s1) (fs s1) = true) by exact folder.
  destruct (recording_window s) as [w|] eqn:Hw.
  - unfold and_then.
    rewrite (close_recording_window_unlocked w p s1 Hm1 Hw); [| | done];
      [| by rewrite (window w eq_refl)].
    cbv beta iota zeta. unfold modify at 1.
    change (project_name r _) with (default "" (Project.name <$> heap s !! r)).
    rewrite stored. cbn [default fmap option_fmap option_map id].
    rewrite open_project_edit_found by apply lookup_insert_eq.
    reflexivity.
  - change (project_name r _) with (default "" (Project.name <$> heap s !! r)).
    rewrite stored. cbn [default fmap option_fmap option_map id].
    rewrite open_project_edit_found by apply lookup_insert_eq.
    reflexivity.
Qed.

Lemma finalize_empty_store :
  Project.file_path (projects_path s) (Project.name p) ∉ locked (fs s) ->
  files (fs (fst (_finalize_with_path "" s)))
    !! Project.file_path (projects_path s) (Project.name p)
  = Some (Json_text (Project.to_dict (Project.to_obj p))).
Proof.
  intros Hl. rewrite (finalize_acts_as "" r s folder current).
  rewrite (finalize_empty_trace Hl). cbn [fs set_fs].
  destruct (recording_window s); simpl; apply lookup_insert_eq.
Qed.
End Exhaustion.

Lemma finalize_timers (final_path : string) (s : t) :
  timers (fst (_finalize_with_path final_path s)) = timers s.
Proof.
  destruct (finalize_cases final_path s)
    as [-> | (r & x & _ & _ & [-> | [_ ->]])]; done.
Qed.

Lemma set_obs_controller_id (s : t) : set_obs_controller (obs_controller s) s = s.
Proof. by destruct s. Qed.

(** While not recording, an event that is neither a poll seeing a
    recording, nor a stop event, nor a retry timer changes nothing and does
    not call the retriever. *)
Lemma idle_step_unchanged (e : event) (s : t) :
  is_recording s = false ->
  no_restart e ->
  (forall pe, e = Push pe -> is_stop_event pe = false) ->
  is_retry_timer e = false ->
  fst (step e s) = s /\ calls_retriever e s = false.
Proof.
  intros Hr Hno Hpush Hnt.
  destruct e as [gw gwf tn tw | gw | now | pe]; simpl in *; try done.
  - rewrite Hr, andb_false_r. split; [| done].
    destruct (OBSController.is_connected (obs_controller s)) eqn:Hc;
      [| by rewrite check_disconnected].
    destruct (poll gw) as [[b|] calls] eqn:Hp; simpl in Hno.
    + destruct b; [done |].
      by rewrite (check_same_signal gw gwf tn tw s Hc false calls).
    + by rewrite (check_no_signal gw gwf tn tw s Hc calls).
  - split; [| done]. unfold global_hotkey_callback. by rewrite Hr.
  - split; [| done]. rewrite deliver_non_stop by auto.
    apply set_obs_controller_id.
Qed.

Lemma idle_timer_unchanged (gw : gateway) (s : t) :
  timers s = [] ->
  fst (step (Retry_timer gw) s) = s /\ calls_retriever (Retry_timer gw) s = false.
Proof. intros H. simpl. unfold timer_fire. by rewrite H. Qed.

(** Idle with no timer pending, such events leave the state as it is. *)
Lemma run_idle (evs : list event) (s : t) :
  is_recording s = false ->
  timers s = [] ->
  Forall no_restart evs ->
  Forall (fun e => forall pe, e = Push pe -> is_stop_event pe = false) evs ->
  fst (run evs s) = s /\ retriever_calls evs s = 0%nat.
Proof.
  intros Hr Ht Hno Hpush. induction evs as [|e evs IH]; [done |].
  apply Forall_cons in Hno as [Hno1 Hno]. apply Forall_cons in Hpush as [Hp1 Hp].
  rewrite run_cons. cbn [fst retriever_calls].
  assert (H : fst (step e s) = s /\ calls_retriever e s = false).
  { destruct (is_retry_timer e) eqn:He.
    - destruct e; try done. by apply idle_timer_unchanged.
    - by apply idle_step_unchanged. }
  destruct H as [-> ->]. by destruct (IH Hno Hp) as [-> ->].
Qed.

(** After the stop, with no new recording seen: from no pending timer the
    retriever is not called again, and from a single pending timer with [j]
    attempts left it is called at most [max 1 j] times. *)
Lemma retriever_calls_bound (evs : list event) (s : t) :
  is_recording s = false ->
  Forall no_restart evs ->
  match timers s with
  | [] => retriever_calls evs s = 0%nat
  | [j] => (retriever_calls evs s <= Z.to_nat (Z.max 1 j))%nat
  | _ => True
  end.
Proof.
  revert s. induction evs as [|e evs IH]; intros s Hr Hno.
  - simpl. destruct (timers s) as [|j [|]]; simpl; try done. lia.
  - apply Forall_cons in Hno as [Hno1 Hno]. cbn [retriever_calls].
    destruct e as [gw gwf tn tw | gw | now | pe].
    + destruct (idle_step_unchanged (Poll gw gwf tn tw) s Hr Hno1
                  ltac:(done) eq_refl) as [-> ->].
      apply (IH s Hr Hno).
    + destruct (timers s) as [|j [|]] eqn:Ht; try done.
      * destruct (idle_timer_unchanged gw s Ht) as [-> ->].
        specialize (IH s Hr Hno). by rewrite Ht in IH.
      * cbn [calls_retriever]. rewrite Ht. cbn [step].
        rewrite (timer_fire_eq gw j [] s Ht). cbn [fst].
        set (s1 := fst (_retrieve_final_path_with_retry gw j (set_timers [] s))).
        assert (Hr1 : is_recording s1 = false).
        { subst s1.
          by destruct (retrieve_poller_view gw j (set_timers [] s)) as (-> & _). }
        specialize (IH s1 Hr1 Hno).
        destruct (retrieve_timers gw j (set_timers [] s)) as [H | [Hj H]];
          fold s1 in H; rewrite H in IH; simpl in IH; lia.
    + destruct (idle_step_unchanged (Hotkey now) s Hr Hno1
                  ltac:(done) eq_refl) as [-> ->].
      apply (IH s Hr Hno).
    + cbn [calls_retriever step modify fst]. simpl plus.
      apply (IH (set_obs_controller (deliver pe (obs_controller s)) s) Hr Hno).
Qed.

(** With [S k] attempts left on the single pending timer and nothing
    bringing a path, the next [S k] timers exhaust the attempts and the
    last one finalizes with the empty path. *)
Lemma run_exhausts (k : nat) (evs : list event) (s0 : t) :
  is_recording s0 = false ->
  is_Some (current_recording_project s0) ->
  Forall no_restart evs ->
  Forall (brings_no_path (obs_controller s0)) evs ->
  (S k <= length (List.filter is_retry_timer evs))%nat ->
  fst (run evs (set_timers [Z.of_nat (S k)] s0))
  = fst (_finalize_with_path "" (set_timers [] s0))
  /\ retriever_calls evs (set_timers [Z.of_nat (S k)] s0) = S k.
Proof.
  intros Hr Hcur. revert k.
  induction evs as [|e evs IH]; intros k Hno Hq Hlen; [simpl in Hlen; lia |].
  apply Forall_cons in Hno as [Hno1 Hno]. apply Forall_cons in Hq as [Hq1 Hq].
  rewrite run_cons. cbn [fst retriever_calls].
  destruct (is_retry_timer e) eqn:He.
  - destruct e as [| gw | |]; try done. simpl in Hlen, Hq1.
    cbn [calls_retriever timers set_timers step].
    rewrite (timer_fire_eq gw (Z.of_nat (S k)) []
               (set_timers [Z.of_nat (S k)] s0) eq_refl),
      set_timers_set_timers. cbn [fst].
    unfold no_path in Hq1.
    destruct (OBSController.get_final_record_path gw (obs_controller s0))
      as [q calls] eqn:Hpath. simpl in Hq1. subst q.
    destruct k as [|k].
    + rewrite (retrieve_exhausted gw _ (set_timers [] s0) calls)
        by (done || lia). cbn [fst].
      destruct (run_idle evs (fst (_finalize_with_path "" (set_timers [] s0))))
        as [-> ->]; try done.
      * destruct (finalize_cases "" (set_timers [] s0))
          as [-> | (r & x & _ & _ & [-> | [_ ->]])]; done.
      * by rewrite finalize_timers.
      * eapply Forall_impl; [exact Hq |]. intros e He' pe ->. exact He'.
    + rewrite (retrieve_retry gw _ (set_timers [] s0) calls) by (done || lia).
      cbn [fst timers set_timers app]. rewrite set_timers_set_timers.
      replace (Z.of_nat (S (S k)) - 1)%Z with (Z.of_nat (S k)) by lia.
      destruct (IH k Hno Hq ltac:(lia)) as [-> ->]. done.
  - assert (Hlen' : (S k <= length (List.filter is_retry_timer evs))%nat).
    { simpl in Hlen. by rewrite He in Hlen. }
    destruct (idle_step_unchanged e (set_timers [Z.of_nat (S k)] s0))
      as [-> ->]; try done.
    + intros pe ->. exact Hq1.
    + by apply IH.
Qed.

(** C3, as stated, fails: the retrier counts attempts per stop, and
    nothing cancels the retry timers of an earlier stop. In
    [stale_retry_pending], a state the application reaches, a recording is
    running while a retry timer of the stop before it is pending with
    three attempts left. After the poll that sees this recording stop, and
    with no new recording seen, the retriever is called six times for the
    session of this recording, which is still the current one after the
    fifth call. *)
Lemma stale_retry_adds_attempts :
  let s := stale_retry_pending in
  let stop := Poll gw_idle gw_idle 118 118 in
  let evs := replicate 5 (Retry_timer gw_idle) in
  reachable "projects" empty_fs s
  /\ connected s
  /\ is_recording s = true
  /\ current_recording_project s = Some 1%nat
  /\ poll gw_idle = (Some false, [Ws_call GetRecordStatus])
  /\ Forall no_restart evs
  /\ retriever_calls (stop :: evs) s = 6%nat
  /\ current_recording_project
       (fst (run (stop :: replicate 4 (Retry_timer gw_idle)) s))
     = Some 1%nat
  /\ ~ attempts_bounded s stop evs.
Proof.
  intros s stop evs.
  split.
  { exists (session_events
              ++ [Poll gw_idle gw_idle 116 116;
                  Poll gw_active gw_idle 117 (Qmake 1171 10);
                  Retry_timer gw_idle]).
    rewrite run_app_fst. reflexivity. }
  split; [reflexivity |]. split; [reflexivity |]. split; [reflexivity |].
  split; [reflexivity |]. split; [repeat constructor |].
  split; [by vm_compute |]. split; [by vm_compute |].
  unfold attempts_bounded. vm_compute. lia.
Qed.

(** C3, amended. Let a connected application be recording, with a current
    project whose video path is empty and which the recording window
    shows if there is one, and with no retry timer of an earlier stop
    pending. After the poll that sees the recording stop, and as long as
    no poll sees a new recording, the retriever is called at most five
    times (once by that poll, then once per retry timer), whatever the
    gateway answers and whatever else happens in between. If none of
    these attempts finds a path (no query finds one and no stop event is
    pushed) and at least four retry timers fire, there are exactly five
    attempts, and the fifth, made by the fourth timer, finalizes with the
    empty path: the application is not recording, no timer is pending and
    the project is unchanged; [os.makedirs] having returned for the
    projects folder, there is no current project and no window any more,
    and, the store taking the write, the record is saved under the
    unchanged placeholder name with an empty video path, from where
    [load_json] reads it back. *)
Theorem retry_exhaustion_keeps_placeholder
    (gw gw_final : gateway) (evs : list event) (t_name t_window : Q)
    (s : t) (r : nat) (p : Project.t) (calls : trace) :
  connected s ->
  is_recording s = true ->
  current_recording_project s = Some r ->
  heap s !! r = Some p ->
  Project.video_file_path p = "" ->
  (forall w, recording_window s = Some w -> RecordingWindow.project w = r) ->
  timers s = [] ->
  poll gw = (Some false, calls) ->
  Forall no_restart evs ->
  let stop := Poll gw gw_final t_name t_window in
  let s2 := fst (run (stop :: evs) s) in
  attempts_bounded s stop evs
  /\ (no_path (obs_controller s) gw_final ->
      Forall (brings_no_path (obs_controller s)) evs ->
      (4 <= length (List.filter is_retry_timer evs))%nat ->
      retriever_calls (stop :: evs) s = 5%nat
      /\ is_recording s2 = false
      /\ timers s2 = []
      /\ heap s2 = heap s
      /\ (os_makedirs (projects_path s) (fs s) = true ->
          current_recording_project s2 = None
          /\ recording_window s2 = None
          /\ (Project.file_path (projects_path s) (Project.name p)
              ∉ locked (fs s) ->
              files (fs s2)
                !! Project.file_path (projects_path s) (Project.name p)
              = Some (Json_text
                        (JObj [("name", JStr (Project.name p));
                               ("video_file_path", JStr "");
                               ("timestamps",
                                JArr (map Project.timestamp_json
                                          (Project.timestamps p)))]))
              /\ Project.load_json (projects_path s) (Project.name p) (fs s2)
                 = Some (Project.to_obj p)))).
Proof.
  intros Hc Hr Hcur Hp Hv Hw Ht Hpoll Hno stop s2.
  set (s0 := set_is_recording false s).
  set (s1 := fst (_retrieve_final_path_with_retry gw_final 5 s0)).
  assert (Hstep : fst (step stop s) = s1).
  { subst stop s1. simpl.
    by rewrite (check_stop gw gw_final t_name t_window s Hc calls). }
  assert (Hcalls : retriever_calls (stop :: evs) s
                   = S (retriever_calls evs s1)).
  { cbn [retriever_calls]. rewrite Hstep. subst stop. simpl.
    unfold connected in Hc. by rewrite Hc, Hr, Hpoll. }
  assert (Hs2 : s2 = fst (run evs s1)).
  { subst s2. by rewrite run_cons, Hstep. }
  split.
  - unfold attempts_bounded. rewrite Hcalls.
    assert (Hr1 : is_recording s1 = false).
    { subst s1. by destruct (retrieve_poller_view gw_final 5 s0) as (-> & _). }
    pose proof (retriever_calls_bound evs s1 Hr1 Hno) as Hb.
    destruct (retrieve_timers gw_final 5 s0) as [H | [_ H]];
      fold s1 in H; rewrite H in Hb; simpl in Hb; rewrite Ht in Hb;
      simpl in Hb; lia.
  - intros Hgw Hall Hlen. unfold no_path in Hgw.
    destruct (OBSController.get_final_record_path gw_final (obs_controller s))
      as [q calls'] eqn:Hq. simpl in Hgw. subst q.
    assert (Hs1 : s1 = set_timers [Z.of_nat 4] s0).
    { subst s1.
      rewrite (retrieve_retry gw_final 5 s0 calls') by (done || lia || eauto).
      simpl. by rewrite Ht. }
    destruct (run_exhausts 3 evs s0) as [Hst Hn]; try done.
    rewrite <- Hs1 in Hst, Hn. rewrite <- Hs2 in Hst.
    assert (Hs0 : set_timers [] s0 = s0).
    { rewrite <- (set_timers_id s0) at 2. simpl. by rewrite Ht. }
    rewrite Hs0 in Hst.
    split; [by rewrite Hcalls, Hn |].
    rewrite Hst.
    split.
    { destruct (finalize_cases "" s0) as [-> | (r' & x & _ & _ & [-> | [_ ->]])];
        done. }
    split; [by rewrite finalize_timers |].
    split; [rewrite (finalize_alters "" r s0 Hcur); by apply list_alter_id |].
    intros Hm.
    assert (Hm0 : os_makedirs (projects_path s0) (fs s0) = true) by exact Hm.
    rewrite (finalize_acts_as "" r s0 Hm0 Hcur). simpl.
    split; [done | split; [done |]].
    intros Hl.
    pose proof (finalize_empty_store s0 r p Hcur Hp Hw Hm0 Hl) as Hf.
    rewrite (finalize_acts_as "" r s0 Hm0 Hcur) in Hf. simpl in Hf.
    split.
    + rewrite Hf. unfold Project.to_dict, Project.to_obj. simpl. by rewrite Hv.
    + by apply load_json_stored.
Qed.

Lemma retry_exhaustion_keeps_placeholder_witness :
  (connected before_stop
   /\ is_recording before_stop = true
   /\ current_recording_project before_stop = Some 0%nat
   /\ heap before_stop !! 0%nat = Some two_marks
   /\ timers before_stop = []
   /\ poll gw_idle = (Some false, [Ws_call GetRecordStatus])
   /\ Forall no_restart quiet_retries
   /\ Forall (brings_no_path (obs_controller before_stop)) quiet_retries
   /\ length (List.filter is_retry_timer quiet_retries) = 5%nat
   /\ os_makedirs (projects_path before_stop) (fs before_stop) = true)
  /\ let stop := Poll gw_idle gw_idle 116 116 in
     let s2 := fst (run (stop :: quiet_retries) before_stop) in
     retriever_calls (stop :: quiet_retries) before_stop = 5%nat
     /\ current_recording_project s2 = None
     /\ heap s2 = [two_marks]
     /\ Project.load_json "projects" "Recording_101" (fs s2)
        = Some (Project.to_obj two_marks).
Proof.
  assert (Hno : Forall no_restart quiet_retries)
    by (repeat constructor; discriminate).
  assert (Hall : Forall (brings_no_path (obs_controller before_stop))
                        quiet_retries)
    by (repeat constructor).
  assert (Hw : forall w, recording_window before_stop = Some w ->
                         RecordingWindow.project w = 0%nat)
    by (intros w [= <-]; reflexivity).
  assert (Hl : Project.file_path (projects_path before_stop)
                 (Project.name two_marks) ∉ locked (fs before_stop))
    by apply not_elem_of_empty.
  split.
  - repeat split; try reflexivity; [exact Hno | exact Hall].
  - destruct (retry_exhaustion_keeps_placeholder gw_idle gw_idle
                quiet_retries 116%Q 116%Q before_stop
                0%nat two_marks [Ws_call GetRecordStatus]
                eq_refl eq_refl eq_refl eq_refl eq_refl Hw eq_refl eq_refl Hno)
      as [_ H].
    destruct (H eq_refl Hall ltac:(simpl; lia))
      as (Hn & _ & _ & Hh & Hst).
    destruct (Hst eq_refl) as (Hcur & _ & Hsaved).
    split; [exact Hn | split; [exact Hcur | split; [exact Hh |]]].
    exact (proj2 (Hsaved Hl)).
Defined.

(** ** Strings and paths *)

Ltac string_app := unfold String.append in *; fold String.append in *.

Lemma string_app_nil_r (a : string) : (a ++ "")%string = a.
Proof. induction a as [|c a IH]; string_app; congruence. Qed.

Lemma string_app_assoc (a b c : string) :
  ((a ++ b) ++ c)%string = (a ++ b ++ c)%string.
Proof. induction a as [|x a IH]; string_app; congruence. Qed.

Lemma string_length_app (a b : string) :
  String.length (a ++ b) = (String.length a + String.length b)%nat.
Proof. induction a as [|c a IH]; string_app; simpl; congruence. Qed.

Lemma string_app_inv_tail (a b s : string) :
  (a ++ s)%string = (b ++ s)%string -> a = b.
Proof.
  revert b. induction a as [|c a IH]; intros [|d b] H; string_app.
  - done.
  - apply (f_equal String.length) in H. simpl in H.
    rewrite string_length_app in H. lia.
  - apply (f_equal String.length) in H. simpl in H.
    rewrite string_length_app in H. lia.
  - injection H as -> H. f_equal. by apply IH.
Qed.

Lemma startswith_sep_app (n s : string) :
  startswith_sep s = false ->
  startswith_sep (n ++ s) = startswith_sep n.
Proof. by destruct n. Qed.

Lemma file_path_relative (folder n : string) :
  startswith_sep n = false ->
  Project.file_path folder n
  = (folder
     ++ (if negb (str_truthy folder) || endswith_sep folder then "" else "/")
     ++ n ++ ".json")%string.
Proof.
  intros Hn. unfold Project.file_path, os_path_join.
  rewrite startswith_sep_app, Hn by done.
  by destruct (negb (str_truthy folder) || endswith_sep folder).
Qed.

Lemma file_path_inj (folder n1 n2 : string) :
  startswith_sep n1 = false ->
  startswith_sep n2 = false ->
  Project.file_path folder n1 = Project.file_path folder n2 ->
  n1 = n2.
Proof.
  intros H1 H2. rewrite !file_path_relative by done. intros H.
  apply (inj (String.app folder)) in H.
  destruct (negb (str_truthy folder) || endswith_sep folder); string_app.
  - by apply string_app_inv_tail in H.
  - injection H as H. by apply string_app_inv_tail in H.
Qed.

Lemma has_sep_startswith (n : string) :
  has_sep n = false -> startswith_sep n = false.
Proof.
  destruct n as [|c n]; [done |]. simpl. by intros [-> _]%orb_false_iff.
Qed.

Lemma basename_from_no_sep (acc p : string) :
  has_sep acc = false -> has_sep (basename_from acc p) = false.
Proof.
  revert acc. induction p as [|c p IH]; intros acc Hacc; simpl; [done |].
  destruct (Ascii.eqb c sep) eqn:Hc; [by apply IH |].
  apply IH. clear IH. induction acc as [|d acc IHa]; simpl in *.
  - by rewrite Hc.
  - apply orb_false_iff in Hacc as [-> Hacc]. simpl. by apply IHa.
Qed.

(** ** Renaming on finalization *)

Section Rename.
Variables (s : t) (r : nat) (p : Project.t) (final_path : string).
Hypothesis current : current_recording_project s = Some r.
Hypothesis stored : heap s !! r = Some p.
Hypothesis window : forall w, recording_window s = Some w ->
                              RecordingWindow.project w = r.
Hypothesis path_found : final_path <> "".
Hypothesis base_found : os_path_basename final_path <> "".
Hypothesis folder : os_makedirs (projects_path s) (fs s) = true.

Let old_path := Project.file_path (projects_path s) (Project.name p).
Let new_path :=
  Project.file_path (projects_path s) (os_path_basename final_path).
Let renamed :=
  {| Project.name := os_path_basename final_path;
     Project.video_file_path := final_path;
     Project.timestamps := Project.timestamps p |}.
Let record := Json_text (Project.to_dict (Project.to_obj renamed)).

Lemma finalize_rename_trace :
  is_Some (files (fs s) !! old_path) ->
  old_path ∉ locked (fs s) ->
  new_path ∉ locked (fs s) ->
  snd (_finalize_with_path final_path s)
  = Fs_remove old_path
    :: Fs_write new_path record
    :: match recording_window s with
       | Some _ => [Fs_write new_path record]
       | None => []
       end
    ++ [Show_edit_window (os_path_basename final_path)].
Proof.
  intros Hex Hlo Hln. rewrite (finalize_returns final_path r s folder current).
  rewrite (proj2 (str_truthy_true _) path_found).
  rewrite (proj2 (str_truthy_true _) base_found).
  cbv beta iota zeta.
  unfold and_then at 1 2 3 4. cbv beta.
  assert (Hname : project_name r s = Project.name p).
  { unfold project_name. by rewrite stored. }
  rewrite Hname. fold old_path.
  unfold and_then at 1 2 3. unfold modify at 1 2. cbv beta iota zeta.
  set (s1 := update_project r (Project.set_video_file_path final_path)
               (update_project r (Project.set_name (os_path_basename final_path))
                  s)).
  assert (Hh1 : heap s1 !! r = Some renamed).
  { subst s1. unfold update_project. simpl.
    by rewrite !list_lookup_alter_eq, stored. }
  rewrite (remove_if_exists_done old_path s1) by done.
  cbv beta iota zeta.
  set (s2 := set_fs (removed old_path (fs s1)) s1).
  assert (Hm2 : os_makedirs (projects_path s2) (fs s2) = true) by exact folder.
  rewrite (save_project_unlocked r renamed s2) by done.
  cbv beta iota zeta.
  change (Project.file_path (projects_path s2) (Project.name renamed))
    with new_path.
  fold record.
  set (s3 := set_fs (written new_path record (fs s2)) s2).
  change (recording_window s3) with (recording_window s).
  assert (Hm3 : os_makedirs (projects_path s3) (fs s3) = true) by exact folder.
  destruct (recording_window s) as [w|] eqn:Hw.
  - unfold and_then.
    rewrite (close_recording_window_unlocked w renamed s3 Hm3 Hw); [| | done];
      [| by rewrite (window w eq_refl)].
    cbv beta iota zeta. unfold modify at 1.
    change (Project.file_path (projects_path s3) (Project.name renamed))
      with new_path.
    fold record.
    change (project_name r _) with (default "" (Project.name <$> heap s1 !! r)).
    rewrite Hh1. cbn [default fmap option_fmap option_map id].
    change (Project.name renamed) with (os_path_basename final_path).
    rewrite (open_project_edit_found renamed) by apply lookup_insert_eq.
    reflexivity.
  - change (project_name r _) with (default "" (Project.name <$> heap s1 !! r)).
    rewrite Hh1. cbn [default fmap option_fmap option_map id].
    rewrite (open_project_edit_found renamed) by apply lookup_insert_eq.
    reflexivity.
Qed.

(** The same when the store refuses the write under the new name. *)
Lemma finalize_rename_refused :
  is_Some (files (fs s) !! old_path) ->
  old_path ∉ locked (fs s) ->
  new_path ∈ locked (fs s) ->
  exists e,
    snd (_finalize_with_path final_path s) = [Fs_remove old_path; e]
    /\ (e = Show_edit_window (os_path_basename final_path)
        \/ e = Show_warning (os_path_basename final_path)).
Proof.
  intros Hex Hlo Hln. rewrite (finalize_returns final_path r s folder current).
  rewrite (proj2 (str_truthy_true _) path_found).
  rewrite (proj2 (str_truthy_true _) base_found).
  cbv beta iota zeta.
  unfold and_then at 1 2 3 4. cbv beta.
  assert (Hname : project_name r s = Project.name p).
  { unfold project_name. by rewrite stored. }
  rewrite Hname. fold old_path.
  unfold and_then at 1 2 3. unfold modify at 1 2. cbv beta iota zeta.
  set (s1 := update_project r (Project.set_video_file_path final_path)
               (update_project r (Project.set_name (os_path_basename final_path))
                  s)).
  assert (Hh1 : heap s1 !! r = Some renamed).
  { subst s1. unfold update_project. simpl.
    by rewrite !list_lookup_alter_eq, stored. }
  rewrite (remove_if_exists_done old_path s1) by done.
  cbv beta iota zeta.
  set (s2 := set_fs (removed old_path (fs s1)) s1).
  assert (Hm2 : os_makedirs (projects_path s2) (fs s2) = true) by exact folder.
  rewrite (save_project_locked r renamed s2) by done.
  cbv beta iota zeta.
  change (recording_window s2) with (recording_window s).
  assert (Hopen : exists e,
            snd (open_project_edit (os_path_basename final_path) s2) = [e]
            /\ (e = Show_edit_window (os_path_basename final_path)
                \/ e = Show_warning (os_path_basename final_path))).
  { unfold open_project_edit.
    destruct (Project.load_json _ _ _); eexists; (split; [reflexivity |]);
      auto. }
  destruct Hopen as (e & He & Hcase). exists e. split; [| exact Hcase].
  destruct (recording_window s) as [w|] eqn:Hw.
  - unfold and_then.
    rewrite (close_recording_window_locked w renamed s2 Hm2 Hw); [| | done];
      [| by rewrite (window w eq_refl)].
    cbv beta iota zeta. unfold modify at 1.
    change (project_name r _) with (default "" (Project.name <$> heap s1 !! r)).
    rewrite Hh1. cbn [default fmap option_fmap option_map id].
    change (Project.name renamed) with (os_path_basename final_path).
    unfold open_project_edit in *.
    change (projects_path (set_recording_window None s2))
      with (projects_path s2).
    change (fs (set_recording_window None s2)) with (fs s2).
    destruct (Project.load_json _ _ _); simpl in *; by rewrite He.
  - change (project_name r _) with (default "" (Project.name <$> heap s1 !! r)).
    rewrite Hh1. cbn [default fmap option_fmap option_map id].
    change (Project.name renamed) with (os_path_basename final_path).
    unfold open_project_edit in *.
    destruct (Project.load_json _ _ _); simpl in *; by rewrite He.
Qed.
End Rename.

(** C2, as stated, fails: the retrieval attempt made in [stop_pushed] finds
    the pushed path and finalizes with it; no write of the new record
    precedes the removal of the placeholder record, and right after the
    removal neither record exists. *)
Lemma rename_leaves_gap :
  let tr := snd (_retrieve_final_path_with_retry gw_idle 5 stop_pushed) in
  ~ written_before_removed "projects/Recording_101.json"
      "projects/out.mkv.json" tr
  /\ ~ never_without_record "projects/Recording_101.json"
         "projects/out.mkv.json" tr (fs stop_pushed).
Proof.
  split.
  - intros (i & j & c & Hlt & _ & Hj).
    destruct j as [|[|[|[|j]]]]; vm_compute in Hj; try discriminate Hj. lia.
  - intros H. specialize (H 1%nat). vm_compute in H.
    destruct H as [[c H] | [c H]]; discriminate H.
Qed.

(** C2, amended. Let finalization rename a session: there is a current
    project, which the recording window shows if there is one; the
    resolved path and its base name are not empty; the placeholder name
    holds no separator and is not the base name, so that the two records
    are two entries of the projects folder; [os.makedirs] returns for that
    folder; and the placeholder record exists and the store lets it be
    removed. Then the record under the old name is removed first. If the
    store takes the write under the new name, the record under the new
    name is written next, so that between the two operations no record is
    stored under the old name, and the new name holds what it held before;
    when finalization is over the record is stored under the new name and
    none under the old one. If the store refuses that write, nothing is
    written: when finalization is over no record is stored under the old
    name, and the new name holds what it held before. *)
Theorem rename_removes_then_writes (final_path : string) (s : t) (r : nat)
    (p : Project.t) :
  current_recording_project s = Some r ->
  heap s !! r = Some p ->
  (forall w, recording_window s = Some w -> RecordingWindow.project w = r) ->
  final_path <> "" ->
  os_path_basename final_path <> "" ->
  has_sep (Project.name p) = false ->
  Project.name p <> os_path_basename final_path ->
  os_makedirs (projects_path s) (fs s) = true ->
  let old_path := Project.file_path (projects_path s) (Project.name p) in
  let new_path :=
    Project.file_path (projects_path s) (os_path_basename final_path) in
  let record :=
    Json_text
      (Project.to_dict
         (Project.to_obj
            {| Project.name := os_path_basename final_path;
               Project.video_file_path := final_path;
               Project.timestamps := Project.timestamps p |})) in
  let out := _finalize_with_path final_path s in
  is_Some (files (fs s) !! old_path) ->
  old_path ∉ locked (fs s) ->
  old_path <> new_path
  /\ take 1 (snd out) = [Fs_remove old_path]
  /\ files (replay (take 1 (snd out)) (fs s)) !! old_path = None
  /\ files (replay (take 1 (snd out)) (fs s)) !! new_path
     = files (fs s) !! new_path
  /\ files (fs (fst out)) !! old_path = None
  /\ (new_path ∉ locked (fs s) ->
      (exists rest,
         snd out = Fs_remove old_path :: Fs_write new_path record :: rest
         /\ forall e, e ∈ rest ->
              e = Fs_write new_path record
              \/ e = Show_edit_window (os_path_basename final_path))
      /\ files (fs (fst out)) !! new_path = Some record)
  /\ (new_path ∈ locked (fs s) ->
      (exists e,
         snd out = [Fs_remove old_path; e]
         /\ (e = Show_edit_window (os_path_basename final_path)
             \/ e = Show_warning (os_path_basename final_path)))
      /\ files (fs (fst out)) !! new_path = files (fs s) !! new_path).
Proof.
  intros Hcur Hp Hw Hfp Hbase Hsep Hname Hm old_path new_path record out
         Hex Hlo.
  assert (Hne : old_path <> new_path).
  { intros E. apply file_path_inj in E; [done | |].
    - by apply has_sep_startswith.
    - apply has_sep_startswith. by apply basename_from_no_sep. }
  assert (Hfs : fs (fst out) = replay (snd out) (fs s)).
  { subst out. by rewrite (finalize_acts_as final_path r s Hm Hcur) at 1. }
  split; [exact Hne |].
  destruct (decide (new_path ∈ locked (fs s))) as [Hln | Hln].
  - destruct (finalize_rename_refused s r p final_path Hcur Hp Hw Hfp Hbase
                Hm Hex Hlo Hln) as (e & Htr & He).
    fold old_path out in Htr.
    assert (Hend : replay (snd out) (fs s) = removed old_path (fs s)).
    { rewrite Htr. by destruct He as [-> | ->]. }
    rewrite Hfs, Hend, Htr.
    split; [done |]. split; [simpl; apply lookup_delete_eq |].
    split; [simpl; by apply lookup_delete_ne |].
    split; [simpl; apply lookup_delete_eq |].
    split; [done |]. intros _.
    split; [by exists e |]. simpl. by apply lookup_delete_ne.
  - assert (Htr := finalize_rename_trace s r p final_path Hcur Hp Hw Hfp Hbase
                     Hm Hex Hlo Hln).
    fold old_path new_path record out in Htr.
    rewrite Hfs, Htr.
    split; [done |]. split; [simpl; apply lookup_delete_eq |].
    split; [simpl; by apply lookup_delete_ne |].
    split.
    { destruct (recording_window s); simpl;
        rewrite !lookup_insert_ne by done; apply lookup_delete_eq. }
    split; [| done]. intros _. split.
    + eexists. split; [reflexivity |]. intros e He.
      destruct (recording_window s); simpl in He;
        repeat (apply elem_of_cons in He as [-> | He]; [by auto |]);
        by apply elem_of_nil in He.
    + destruct (recording_window s); simpl; apply lookup_insert_eq.
Qed.

Lemma rename_removes_then_writes_witness :
  (current_recording_project stop_pushed = Some 0%nat
   /\ heap stop_pushed !! 0%nat = Some two_marks
   /\ "/rec/out.mkv" <> ""
   /\ os_path_basename "/rec/out.mkv" <> ""
   /\ has_sep (Project.name two_marks) = false
   /\ Project.name two_marks <> os_path_basename "/rec/out.mkv"
   /\ os_makedirs (projects_path stop_pushed) (fs stop_pushed) = true
   /\ is_Some (files (fs stop_pushed) !! "projects/Recording_101.json")
   /\ ("projects/Recording_101.json" ∉ locked (fs stop_pushed))
   /\ ("projects/out.mkv.json" ∉ locked (fs stop_pushed)))
  /\ take 2 (snd (_finalize_with_path "/rec/out.mkv" stop_pushed))
     = [Fs_remove "projects/Recording_101.json";
        Fs_write "projects/out.mkv.json"
          (Json_text
             (Project.to_dict
                (Project.to_obj
                   {| Project.name := "out.mkv";
                      Project.video_file_path := "/rec/out.mkv";
                      Project.timestamps := Project.timestamps two_marks |})))]
  /\ files (fs (fst (_finalize_with_path "/rec/out.mkv" stop_pushed)))
       !! "projects/Recording_101.json" = None.
Proof.
  assert (Hw : forall w, recording_window stop_pushed = Some w ->
                         RecordingWindow.project w = 0%nat)
    by (intros w [= <-]; reflexivity).
  assert (Hex : is_Some (files (fs stop_pushed)
                           !! "projects/Recording_101.json"))
    by (eexists; reflexivity).
  assert (Hl : forall x : string, x ∉ locked (fs stop_pushed))
    by (intros x; apply not_elem_of_empty).
  split.
  - repeat split; try reflexivity; try discriminate; try apply Hl. exact Hex.
  - destruct (rename_removes_then_writes "/rec/out.mkv" stop_pushed 0%nat
                two_marks eq_refl eq_refl Hw ltac:(discriminate)
                ltac:(discriminate) eq_refl ltac:(discriminate) eq_refl Hex
                (Hl _))
      as (_ & _ & _ & _ & Hold & Hwritten & _).
    destruct (Hwritten (Hl _)) as ((rest & Htr & _) & _).
    split; [| exact Hold]. rewrite Htr. reflexivity.
Defined.

Lemma round_half_even_cases (a b : Z) :
  (0 < b)%Z ->
  (round_half_even a b = a / b /\ 2 * (a mod b) <= b
   /\ (2 * (a mod b) = b -> Z.even (a / b) = true))%Z
  \/ (round_half_even a b = a / b + 1 /\ b <= 2 * (a mod b)
      /\ (2 * (a mod b) = b -> Z.even (a / b) = false))%Z.
Proof.
  intros Hb. unfold round_half_even.
  destruct (Z.compare_spec (2 * (a mod b)) b) as [H | H | H].
  - destruct (Z.even (a / b)) eqn:He; [left | right]; repeat split; auto; lia.
  - left. repeat split; lia.
  - right. repeat split; lia.
Qed.

Lemma round_half_even_mono (a b c d : Z) :
  (0 < b)%Z -> (0 < d)%Z -> (a * d <= c * b)%Z ->
  (round_half_even a b <= round_half_even c d)%Z.
Proof.
  intros Hb Hd Hle.
  pose proof (Z.div_mod a b ltac:(lia)) as Ha.
  pose proof (Z.mod_pos_bound a b Hb) as Hra.
  pose proof (Z.div_mod c d ltac:(lia)) as Hc.
  pose proof (Z.mod_pos_bound c d Hd) as Hrc.
  set (f1 := (a / b)%Z) in *. set (r1 := (a mod b)%Z) in *.
  set (f2 := (c / d)%Z) in *. set (r2 := (c mod d)%Z) in *.
  assert (Hf : (f1 <= f2)%Z).
  { destruct (Z.le_gt_cases f1 f2) as [|Hgt]; [done | exfalso].
    assert (b * (f2 + 1) <= a)%Z by nia.
    assert (c < d * (f2 + 1))%Z by nia.
    assert (b * (f2 + 1) * d <= a * d)%Z by nia.
    assert (c * b < d * (f2 + 1) * b)%Z by nia.
    lia. }
  destruct (round_half_even_cases a b Hb) as [(-> & H1 & E1) | (-> & H1 & E1)];
    destruct (round_half_even_cases c d Hd) as [(-> & H2 & E2) | (-> & H2 & E2)];
    fold f1 r1 in H1, E1 |- *; fold f2 r2 in H2, E2 |- *; try lia.
  destruct (Z.eq_dec f1 f2) as [Heq | Hneq]; [| lia].
  exfalso. subst f2.
  assert (Hr : (r1 * d <= r2 * b)%Z) by nia.
  destruct (Z.eq_dec (2 * r1) b) as [Hx | Hx];
    destruct (Z.eq_dec (2 * r2) d) as [Hy | Hy].
  - specialize (E1 Hx). specialize (E2 Hy). congruence.
  - nia.
  - nia.
  - nia.
Qed.

Lemma round2_mono (x y : Q) : (x <= y)%Q -> (round2 x <= round2 y)%Q.
Proof.
  intros H. unfold round2, Qle in *. simpl.
  apply Z.mul_le_mono_nonneg_r; [done |].
  apply round_half_even_mono; try done. lia.
Qed.

Lemma round2_nonneg (x : Q) : (0 <= x)%Q -> (0 <= round2 x)%Q.
Proof.
  intros H. apply (Qle_trans _ (round2 0)); [| by apply round2_mono].
  by vm_compute.
Qed.

(** ** Capture order *)

Lemma sessions_ordered_ext (t : Q) (s s' : MainApp.t) :
  heap s' = heap s -> recording_window s' = recording_window s ->
  sessions_ordered t s -> sessions_ordered t s'.
Proof. unfold sessions_ordered. by intros -> ->. Qed.

Lemma sessions_ordered_mono (t t' : Q) (s : MainApp.t) :
  (t <= t')%Q -> sessions_ordered t s -> sessions_ordered t' s.
Proof.
  intros Ht [Hh Hw]. split; [done |]. intros w Hwin.
  destruct (Hw w Hwin) as [Hs Hp]. split; [by eapply Qle_trans |].
  intros p Hlook. eapply Forall_impl; [by apply Hp |]. simpl.
  intros x Hx. eapply Qle_trans; [done |]. apply round2_mono.
  unfold Qminus. apply Qplus_le_compat; [done | apply Qle_refl].
Qed.

Lemma offsets_finalized_project (final_path : string) (p : Project.t) :
  offsets (finalized_project final_path p) = offsets p.
Proof.
  unfold finalized_project.
  by destruct (str_truthy final_path),
    (str_truthy (os_path_basename final_path)).
Qed.

Lemma retrieve_sessions_ordered (gw : gateway) (n : Z) (t : Q) (s : MainApp.t) :
  sessions_ordered t s ->
  sessions_ordered t (fst (_retrieve_final_path_with_retry gw n s)).
Proof.
  intros Hinv.
  destruct (retrieve_cases gw n s)
    as [-> | [[_ ->] | (p & r & x & _ & _ & [-> | [_ ->]])]];
    [done | done | |].
  - destruct Hinv as [Hh _]. split; [| done]. simpl.
    apply Forall_alter; [done |]. intros q _ Hq.
    unfold marks_ordered. by rewrite offsets_finalized_project.
  - destruct Hinv as [Hh Hw]. split; simpl.
    + apply Forall_alter; [done |]. intros q _ Hq.
      unfold marks_ordered. by rewrite offsets_finalized_project.
    + intros w Hwin. destruct (Hw w Hwin) as [Hs Hp]. split; [done |].
      intros q Hq.
      destruct (decide (RecordingWindow.project w = r)) as [E | E].
      * rewrite E, list_lookup_alter_eq in Hq.
        destruct (heap s !! r) as [q0|] eqn:Hq0; [| done].
        injection Hq as <-. rewrite offsets_finalized_project.
        apply Hp. by rewrite E.
      * rewrite list_lookup_alter_ne in Hq by done. by apply Hp.
Qed.

Lemma marks_ordered_snoc (p : Project.t) (x : Q) :
  marks_ordered p -> (0 <= x)%Q ->
  Forall (fun y => (y <= x)%Q) (offsets p) ->
  marks_ordered (Project.add_timestamp x p).
Proof.
  intros [Hs Hn] Hx Hle. unfold marks_ordered, offsets, Project.add_timestamp.
  simpl. rewrite map_app. simpl. split.
  - apply StronglySorted_app_2; [| done | repeat constructor].
    intros x1 x2 H1 H2. apply list_elem_of_singleton in H2 as ->.
    by apply (proj1 (Forall_forall _ _) Hle).
  - apply Forall_app. split; [done | by repeat constructor].
Qed.

Lemma hotkey_sessions_ordered (now t : Q) (s : MainApp.t) :
  (t <= now)%Q -> sessions_ordered t s ->
  sessions_ordered now (fst (global_hotkey_callback now s)).
Proof.
  intros Ht Hinv. unfold global_hotkey_callback.
  destruct (is_recording s), (current_recording_project s) as [r|],
    (recording_window s) as [w|] eqn:Hwin;
    try (by apply (sessions_ordered_mono t)).
  destruct Hinv as [Hh Hw]. destruct (Hw w Hwin) as [Hs Hp].
  set (x := round2 (now - RecordingWindow.recording_start_time w)).
  assert (Hx : (0 <= x)%Q).
  { apply round2_nonneg. unfold Qminus. rewrite <- Qle_minus_iff.
    by eapply Qle_trans. }
  assert (Hb : forall p, heap s !! RecordingWindow.project w = Some p ->
                 Forall (fun y => (y <= x)%Q) (offsets p)).
  { intros p Hlook. eapply Forall_impl; [by apply Hp |]. simpl.
    intros y Hy. eapply Qle_trans; [done |]. apply round2_mono.
    unfold Qminus. apply Qplus_le_compat; [done | apply Qle_refl]. }
  simpl. unfold RecordingWindow.add_timestamp. fold x. split.
  - apply Forall_alter; [done |]. intros p Hlook Hm.
    apply marks_ordered_snoc; auto.
  - simpl. rewrite Hwin. intros w' [= <-]. split; [by eapply Qle_trans |].
    intros p'. rewrite list_lookup_alter_eq.
    destruct (heap s !! RecordingWindow.project w) as [p|] eqn:Hlook;
      [| done].
    intros [= <-]. unfold offsets, Project.add_timestamp. simpl.
    rewrite map_app. apply Forall_app. split; [by apply Hb |].
    repeat constructor. apply Qle_refl.
Qed.

Lemma step_sessions_ordered (e : event) (t : Q) (s : MainApp.t) :
  clock_ok t [e] ->
  sessions_ordered t s ->
  sessions_ordered (clock_after t e) (fst (step e s)).
Proof.
  intros Hclock Hinv. destruct e as [gw gwf tn tw | gw | now | e]; simpl.
  - destruct Hclock as (H1 & H2 & _).
    assert (Ht : (t <= tw)%Q) by (by eapply Qle_trans).
    destruct (OBSController.is_connected (obs_controller s)) eqn:Hc;
      [| rewrite check_disconnected by done;
         by apply (sessions_ordered_mono t)].
    destruct (poll gw) as [[b|] calls] eqn:Hp;
      [| rewrite (check_no_signal gw gwf tn tw s Hc calls) by done;
         by apply (sessions_ordered_mono t)].
    destruct b, (is_recording s) eqn:Hr.
    + rewrite (check_same_signal gw gwf tn tw s Hc true calls) by done.
      by apply (sessions_ordered_mono t).
    + destruct (os_makedirs (projects_path s) (fs s)) eqn:Hm.
      * rewrite (check_start gw gwf tn tw s Hc calls) by done. simpl.
        destruct Hinv as [Hh _]. split; simpl.
        -- apply Forall_app. split; [done |]. repeat constructor.
        -- intros w [= <-]. simpl. split; [apply Qle_refl |].
           intros p. rewrite list_lookup_middle by done. intros [= <-].
           constructor.
      * rewrite (check_start_raises gw gwf tn tw s Hc calls) by done. simpl.
        destruct Hinv as [Hh Hw]. split; simpl.
        -- apply Forall_app. split; [done |]. repeat constructor.
        -- intros w Hwin. destruct (Hw w Hwin) as [Hst Hpw].
           split; [by eapply Qle_trans |]. intros p Hlook.
           assert (Hlt : (RecordingWindow.project w < length (heap s))%nat
                         \/ p = placeholder tn).
           { apply lookup_app_Some in Hlook as [Hl | [_ Hl]].
             - left. by eapply lookup_lt_Some.
             - right. by apply list_lookup_singleton_Some in Hl as [_ <-]. }
           destruct Hlt as [Hlt | ->]; [| constructor].
           rewrite lookup_app_l in Hlook by done.
           eapply Forall_impl; [by apply Hpw |]. simpl.
           intros y Hy. eapply Qle_trans; [done |]. apply round2_mono.
           unfold Qminus. apply Qplus_le_compat; [done | apply Qle_refl].
    + rewrite (check_stop gw gwf tn tw s Hc calls) by done. simpl.
      apply (sessions_ordered_mono t); [done |].
      by apply retrieve_sessions_ordered.
    + rewrite (check_same_signal gw gwf tn tw s Hc false calls) by done.
      by apply (sessions_ordered_mono t).
  - unfold timer_fire. destruct (timers s) as [|n rest]; [done |].
    rewrite and_then_eq. simpl. by apply retrieve_sessions_ordered.
  - destruct Hclock as [H1 _]. by apply (hotkey_sessions_ordered now t).
  - done.
Qed.

Lemma clock_ok_cons (t : Q) (e : event) (evs : list event) :
  clock_ok t (e :: evs) -> clock_ok t [e] /\ clock_ok (clock_after t e) evs.
Proof. destruct e; simpl; tauto. Qed.

Lemma run_sessions_ordered (evs : list event) (t : Q) (s : MainApp.t) :
  clock_ok t evs ->
  sessions_ordered t s ->
  exists t', sessions_ordered t' (fst (run evs s)).
Proof.
  revert t s. induction evs as [|e evs IH]; intros t s Hclock Hinv.
  - by exists t.
  - rewrite run_cons. simpl fst.
    apply clock_ok_cons in Hclock as [He Hevs].
    apply (IH _ _ Hevs). by apply step_sessions_ordered.
Qed.

Lemma initial_sessions_ordered (folder : string) (fs0 : filesystem) (t : Q) :
  sessions_ordered t (initial folder fs0).
Proof. split; [constructor | done]. Qed.

(** C8. Along every run of the application in which the successive
    [time.time()] readings never decrease, every project ever created has
    its offsets in non-decreasing order, in the order they were appended,
    and none of them negative; and each appended value is the reading of
    the clock minus the start time of the recording window, rounded to
    hundredths, appended at the end of the list with an empty note. *)
Theorem offsets_never_decrease (evs : list event) (folder : string)
    (fs0 : filesystem) (t0 : Q) :
  clock_ok t0 evs ->
  Forall marks_ordered (heap (fst (run evs (initial folder fs0))))
  /\ forall (now : Q) (s : MainApp.t) (r : nat) (w : RecordingWindow.t)
            (p : Project.t),
       is_recording s = true ->
       current_recording_project s = Some r ->
       recording_window s = Some w ->
       heap s !! RecordingWindow.project w = Some p ->
       heap (fst (global_hotkey_callback now s)) !! RecordingWindow.project w
       = Some
           {| Project.name := Project.name p;
              Project.video_file_path := Project.video_file_path p;
              Project.timestamps :=
                Project.timestamps p
                ++ [{| Project.sec :=
                         round2 (now - RecordingWindow.recording_start_time w);
                       Project.note := "" |}] |}.
Proof.
  intros Hclock. split.
  - destruct (run_sessions_ordered evs t0 (initial folder fs0) Hclock
                (initial_sessions_ordered folder fs0 t0)) as [t' [H _]].
    exact H.
  - intros now s r w p Hr Hcur Hw Hp. unfold global_hotkey_callback.
    rewrite Hr, Hcur, Hw. simpl. unfold RecordingWindow.add_timestamp.
    by rewrite list_lookup_alter_eq, Hp.
Qed.

Lemma offsets_never_decrease_witness :
  clock_ok 100 session_events
  /\ Forall marks_ordered (heap before_stop)
  /\ offsets <$> heap before_stop = [[Qmake 500 100; Qmake 1230 100]].
Proof.
  assert (Hclock : clock_ok 100 session_events).
  { simpl. repeat split; by vm_compute. }
  split; [exact Hclock |]. split; [| reflexivity].
  exact (proj1 (offsets_never_decrease session_events "projects" empty_fs 100
                  Hclock)).
Defined.
(** * Further properties of the engine *)

(** ** Well-formed states *)

Lemma write_record_keeps_locked (folder : string) (p : Project.t)
    (fs0 : filesystem) :
  locked (fst (Project.write_record folder p fs0)) = locked fs0.
Proof. rewrite store_only_write_record. apply replay_locked. Qed.

(** No event changes the projects folder or the refused paths, so
    [os.makedirs] answers the same all along a run. *)
Lemma step_keeps_folder (e : event) : keeps_folder (step e).
Proof.
  intros s. destruct e as [gw gwf tn tw | gw | now | pe]; simpl.
  - destruct (OBSController.is_connected (obs_controller s)) eqn:Hc;
      [| by rewrite check_disconnected].
    destruct (poll gw) as [[b|] calls] eqn:Hp;
      [| by rewrite (check_no_signal gw gwf tn tw s Hc calls)].
    destruct b, (is_recording s) eqn:Hr.
    + by rewrite (check_same_signal gw gwf tn tw s Hc true calls).
    + destruct (os_makedirs (projects_path s) (fs s)) eqn:Hm.
      * rewrite (check_start gw gwf tn tw s Hc calls) by done. simpl.
        split; [done |].
        destruct (recording_window s) as [w|];
          [destruct (_ !! RecordingWindow.project w) |];
          cbn [fst]; by rewrite ?write_record_keeps_locked.
      * by rewrite (check_start_raises gw gwf tn tw s Hc calls).
    + rewrite (check_stop gw gwf tn tw s Hc calls) by done. simpl.
      destruct (retrieve_cases gwf 5 (set_is_recording false s))
        as [-> | [[_ ->] | (p & r & x & _ & Hx & [-> | [_ ->]])]]; done.
    + by rewrite (check_same_signal gw gwf tn tw s Hc false calls).
  - unfold timer_fire. destruct (timers s) as [|n rest]; [done |].
    rewrite and_then_eq. simpl.
    destruct (retrieve_cases gw n (set_timers rest s))
      as [-> | [[_ ->] | (p & r & x & _ & Hx & [-> | [_ ->]])]]; done.
  - unfold global_hotkey_callback.
    by destruct (is_recording s), (current_recording_project s),
      (recording_window s).
  - done.
Qed.

Lemma step_makedirs (e : event) (s : t) :
  os_makedirs (projects_path (fst (step e s))) (fs (fst (step e s)))
  = os_makedirs (projects_path s) (fs s).
Proof. apply keeps_folder_makedirs, step_keeps_folder. Qed.

Lemma run_makedirs (evs : list event) (s : t) :
  os_makedirs (projects_path (fst (run evs s))) (fs (fst (run evs s)))
  = os_makedirs (projects_path s) (fs s).
Proof.
  revert s. induction evs as [|e evs IH]; intros s; [done |].
  rewrite run_cons. simpl. by rewrite IH, step_makedirs.
Qed.

Lemma initial_well_formed (folder : string) (fs0 : filesystem) :
  well_formed (initial folder fs0).
Proof.
  split; [done | split; [by intros r [=] | split; [constructor |]]].
  by intros [r [=]].
Qed.

Lemma retrieve_well_formed (gw : gateway) (n : Z) (s : t) :
  (1 <= n <= 5)%Z ->
  well_formed s ->
  well_formed (fst (_retrieve_final_path_with_retry gw n s)).
Proof.
  intros Hn (Ha & Hb & Hc & Hd).
  destruct (retrieve_cases gw n s)
    as [-> | [[Hlt ->] | (p & r & x & Hcur & _ & [-> | [Hm _]])]].
  - done.
  - split; [done | split; [done | split; [| done]]].
    unfold timers_in_range. simpl.
    apply Forall_app. split; [done |]. repeat constructor; lia.
  - split; [done | split; [by intros r' [=] | split; [done |]]].
    by intros [r' [=]].
  - rewrite Hd in Hm by eauto. done.
Qed.

Lemma step_well_formed (e : event) (s : t) :
  well_formed s -> well_formed (fst (step e s)).
Proof.
  intros Hwf.
  assert (Hfolder : folder_made s -> is_Some (current_recording_project s) ->
                    os_makedirs (projects_path (fst (step e s)))
                                (fs (fst (step e s))) = true).
  { intros Hd Hcur. rewrite step_makedirs. by apply Hd. }
  destruct e as [gw gwf tn tw | gw | now | pe]; simpl in *.
  - destruct (OBSController.is_connected (obs_controller s)) eqn:Hc;
      [| by rewrite check_disconnected].
    destruct (poll gw) as [[b|] calls] eqn:Hp;
      [| by rewrite (check_no_signal gw gwf tn tw s Hc calls)].
    destruct b, (is_recording s) eqn:Hr.
    + by rewrite (check_same_signal gw gwf tn tw s Hc true calls).
    + destruct (os_makedirs (projects_path s) (fs s)) eqn:Hm.
      * pose proof (step_makedirs (Poll gw gwf tn tw) s) as Hk. simpl in Hk.
        rewrite (check_start gw gwf tn tw s Hc calls) in * by done.
        simpl in *.
        destruct Hwf as (Ha & Hb & Hc' & Hd).
        split; [done |]. split; [| split; [done |]].
        -- intros r [= <-]. exists (placeholder tn), tn. simpl.
           by rewrite list_lookup_middle.
        -- intros _. etransitivity; [exact Hk | exact Hm].
      * rewrite (check_start_raises gw gwf tn tw s Hc calls) by done. simpl.
        destruct Hwf as (Ha & Hb & Hc' & Hd).
        split; [done |]. split; [| split; [done |]].
        -- intros r Hcur. simpl in Hcur.
           destruct (Hb r Hcur) as (p & t & Hlook & Hn & Hv).
           exists p, t. simpl. split; [| done].
           apply lookup_app_l_Some, Hlook.
        -- intros Hcur. simpl in *. by apply Hd.
    + rewrite (check_stop gw gwf tn tw s Hc calls) by done. simpl.
      by apply retrieve_well_formed.
    + by rewrite (check_same_signal gw gwf tn tw s Hc false calls).
  - unfold timer_fire. destruct (timers s) as [|n rest] eqn:Ht; [done |].
    rewrite and_then_eq. simpl.
    destruct Hwf as (Ha & Hb & Hc & Hd). unfold timers_in_range in Hc.
    rewrite Ht in Hc. apply Forall_cons in Hc as [Hn Hrest].
    apply retrieve_well_formed; [lia |]. done.
  - unfold global_hotkey_callback.
    destruct (is_recording s), (current_recording_project s) as [r|] eqn:Hcur,
      (recording_window s) as [w|] eqn:Hw; try done.
    destruct Hwf as (Ha & Hb & Hc & Hd). unfold window_shows_current in Ha.
    rewrite Hcur, Hw in Ha. simpl.
    split; [| split; [| split; [done |]]].
    + unfold window_shows_current. simpl. by rewrite Hcur, Hw.
    + intros r'. simpl. rewrite Hcur. intros [= <-].
      destruct (Hb r Hcur) as (p & t & Hp & Hname & Hv).
      eexists _, t. unfold RecordingWindow.add_timestamp.
      rewrite Ha, list_lookup_alter_eq, Hp. simpl. done.
    + intros _. unfold folder_made in Hd. rewrite Hcur in Hd. simpl.
      apply Hd. eauto.
  - done.
Qed.

Lemma run_well_formed (evs : list event) (s : t) :
  well_formed s -> well_formed (fst (run evs s)).
Proof.
  revert s. induction evs as [|e evs IH]; intros s Hwf; [done |].
  rewrite run_cons. simpl. by apply IH, step_well_formed.
Qed.

Lemma reachable_well_formed (folder : string) (fs0 : filesystem) (s : t) :
  reachable folder fs0 s -> well_formed s.
Proof.
  intros [evs ->]. apply run_well_formed, initial_well_formed.
Qed.

(** X1. In every state reached from start-up by polls, retry timers,
    hotkey presses and push events there is a recording window exactly
    when there is a current project, and the window shows that very
    project; a hotkey press that is accepted therefore puts its mark, the
    time elapsed since the window opened, at the end of the current
    project's list. *)
Theorem window_always_shows_current (folder : string) (fs0 : filesystem)
    (s : t) :
  reachable folder fs0 s ->
  window_shows_current s
  /\ forall (now : Q) (r : nat) (p : Project.t),
       is_recording s = true ->
       current_recording_project s = Some r ->
       heap s !! r = Some p ->
       exists w,
         recording_window s = Some w
         /\ RecordingWindow.project w = r
         /\ heap (fst (global_hotkey_callback now s)) !! r
            = Some (Project.add_timestamp
                      (round2 (now - RecordingWindow.recording_start_time w)) p).
Proof.
  intros Hreach. destruct (reachable_well_formed _ _ _ Hreach) as (Ha & _).
  split; [done |]. intros now r p Hr Hcur Hp.
  unfold window_shows_current in Ha. rewrite Hcur in Ha.
  destruct (recording_window s) as [w|] eqn:Hw; [| done].
  exists w. split; [done | split; [done |]].
  unfold global_hotkey_callback. rewrite Hr, Hcur, Hw. simpl.
  unfold RecordingWindow.add_timestamp.
  by rewrite Ha, list_lookup_alter_eq, Hp.
Qed.

Lemma before_stop_reachable : reachable "projects" empty_fs before_stop.
Proof. by exists session_events. Defined.

Lemma window_always_shows_current_witness :
  reachable "projects" empty_fs before_stop
  /\ window_shows_current before_stop
  /\ Project.timestamps
       <$> heap (fst (global_hotkey_callback 114 before_stop)) !! 0%nat
     = Some (Project.timestamps two_marks
             ++ [{| Project.sec := Qmake 1290 100; Project.note := "" |}]).
Proof.
  split; [exact before_stop_reachable |].
  destruct (window_always_shows_current "projects" empty_fs before_stop
              before_stop_reachable) as [Ha Hk].
  split; [exact Ha |].
  destruct (Hk 114%Q 0%nat two_marks eq_refl eq_refl eq_refl)
    as (w & Hw & _ & Hh).
  injection Hw as <-. rewrite Hh. reflexivity.
Defined.

(** X2. In every state reached from start-up by polls, retry timers,
    hotkey presses and push events, the current project keeps the
    placeholder name the poller gave it and an empty video path: name and
    path of a session change only when it is finalized, which also ends
    its being the current project. *)
Theorem current_session_unresolved (folder : string) (fs0 : filesystem)
    (s : t) (r : nat) :
  reachable folder fs0 s ->
  current_recording_project s = Some r ->
  exists p t,
    heap s !! r = Some p
    /\ Project.name p = ("Recording_" ++ pretty (int t))%string
    /\ Project.video_file_path p = ""
    /\ forall final_path,
         current_recording_project (fst (_finalize_with_path final_path s))
         = None.
Proof.
  intros Hreach Hcur.
  destruct (reachable_well_formed _ _ _ Hreach) as (_ & Hb & _ & Hd).
  destruct (Hb r Hcur) as (p & t & Hp & Hn & Hv).
  exists p, t. split; [done | split; [done | split; [done |]]].
  intros fp. by rewrite (finalize_acts_as fp r s (Hd (mk_is_Some _ _ Hcur)) Hcur).
Qed.

Lemma current_session_unresolved_witness :
  reachable "projects" empty_fs before_stop
  /\ current_recording_project before_stop = Some 0%nat
  /\ exists p, heap before_stop !! 0%nat = Some p
               /\ Project.name p = "Recording_101"
               /\ Project.video_file_path p = "".
Proof.
  split; [exact before_stop_reachable | split; [reflexivity |]].
  destruct (current_session_unresolved "projects" empty_fs before_stop 0%nat
              before_stop_reachable eq_refl) as (p & t & Hp & _ & Hv & _).
  exists p. split; [exact Hp | split; [| exact Hv]].
  injection Hp as <-. reflexivity.
Defined.

(** X3. In every state reached from start-up by polls, retry timers,
    hotkey presses and push events, every pending retry timer carries
    between one and four attempts; so the callback of a timer never runs
    with no attempt left, and it gives up (finalizing with the empty path
    when the query finds nothing) exactly when the timer carries one. *)
Theorem pending_retries_in_range (folder : string) (fs0 : filesystem)
    (s : t) (n : Z) (rest : list Z) (gw : gateway) :
  reachable folder fs0 s ->
  timers s = n :: rest ->
  (1 <= n <= 4)%Z
  /\ (is_Some (current_recording_project s) ->
      no_path (obs_controller s) gw ->
      (n = 1%Z ->
       fst (timer_fire gw s)
       = fst (_finalize_with_path "" (set_timers rest s)))
      /\ (n <> 1%Z ->
          fst (timer_fire gw s) = set_timers (rest ++ [n - 1]%Z) s)).
Proof.
  intros Hreach Ht.
  destruct (reachable_well_formed _ _ _ Hreach) as (_ & _ & Hc & _).
  unfold timers_in_range in Hc. rewrite Ht in Hc.
  apply Forall_cons in Hc as [Hn _]. split; [done |].
  intros Hcur Hno. rewrite (timer_fire_eq gw n rest s Ht). simpl.
  unfold no_path in Hno.
  destruct (OBSController.get_final_record_path gw (obs_controller s))
    as [q calls] eqn:Hq. simpl in Hno. subst q. split.
  - intros ->.
    by rewrite (retrieve_exhausted gw 1 (set_timers rest s) calls).
  - intros Hne.
    rewrite (retrieve_retry gw n (set_timers rest s) calls) by (done || lia).
    simpl. apply set_timers_set_timers.
Qed.

Lemma pending_retries_in_range_witness :
  let s := fst (run [Poll gw_idle gw_idle 116 116] before_stop) in
  reachable "projects" empty_fs s
  /\ timers s = [4%Z]
  /\ fst (timer_fire gw_idle s) = set_timers [3%Z] s.
Proof.
  intros s.
  assert (Hreach : reachable "projects" empty_fs s).
  { exists (session_events ++ [Poll gw_idle gw_idle 116 116]).
    subst s. unfold before_stop. by rewrite run_app. }
  split; [exact Hreach | split; [reflexivity |]].
  destruct (pending_retries_in_range "projects" empty_fs s 4 [] gw_idle
              Hreach eq_refl) as [_ H].
  destruct (H ltac:(by eexists) eq_refl) as [_ Hne].
  exact (Hne ltac:(discriminate)).
Defined.

(** ** Marks are kept *)

Lemma marks_kept_refl (s : t) : marks_kept s s.
Proof. intros i p Hp. by exists p. Qed.

Lemma marks_kept_heap (s s' : t) : heap s' = heap s -> marks_kept s s'.
Proof. intros H i p Hp. exists p. by rewrite H. Qed.

Lemma marks_kept_trans (s1 s2 s3 : t) :
  marks_kept s1 s2 -> marks_kept s2 s3 -> marks_kept s1 s3.
Proof.
  intros H12 H23 i p Hp. destruct (H12 i p Hp) as (p2 & Hp2 & Hpre).
  destruct (H23 i p2 Hp2) as (p3 & Hp3 & Hpre'). exists p3.
  split; [done |]. by etrans.
Qed.

Lemma marks_kept_alter (f : Project.t -> Project.t) (r : nat) (s s' : t) :
  heap s' = alter f r (heap s) ->
  (forall p, Project.timestamps p `prefix_of` Project.timestamps (f p)) ->
  marks_kept s s'.
Proof.
  intros Hh Hf i p Hp. rewrite Hh.
  destruct (decide (r = i)) as [-> | Hne].
  - exists (f p). by rewrite list_lookup_alter_eq, Hp.
  - exists p. by rewrite list_lookup_alter_ne.
Qed.

Lemma retrieve_marks_kept (gw : gateway) (n : Z) (s : t) :
  marks_kept s (fst (_retrieve_final_path_with_retry gw n s)).
Proof.
  destruct (retrieve_cases gw n s)
    as [-> | [[_ ->] | (p & r & x & _ & _ & [-> | [_ ->]])]].
  - apply marks_kept_refl.
  - by apply marks_kept_heap.
  - apply (marks_kept_alter (finalized_project p) r); [done |].
    intros q. unfold finalized_project.
    by destruct (str_truthy p), (str_truthy (os_path_basename p)).
  - apply (marks_kept_alter (finalized_project p) r); [done |].
    intros q. unfold finalized_project.
    by destruct (str_truthy p), (str_truthy (os_path_basename p)).
Qed.

Lemma step_marks_kept (e : event) (s : t) : marks_kept s (fst (step e s)).
Proof.
  destruct e as [gw gwf tn tw | gw | now | pe]; simpl.
  - destruct (OBSController.is_connected (obs_controller s)) eqn:Hc;
      [| rewrite check_disconnected by done; apply marks_kept_refl].
    destruct (poll gw) as [[b|] calls] eqn:Hp;
      [| rewrite (check_no_signal gw gwf tn tw s Hc calls) by done;
         apply marks_kept_refl].
    destruct b, (is_recording s) eqn:Hr.
    + rewrite (check_same_signal gw gwf tn tw s Hc true calls) by done.
      apply marks_kept_refl.
    + destruct (os_makedirs (projects_path s) (fs s)) eqn:Hm;
        [rewrite (check_start gw gwf tn tw s Hc calls) by done
        | rewrite (check_start_raises gw gwf tn tw s Hc calls) by done];
        simpl; intros i p Hp'; exists p; simpl; (split; [| done]);
        by apply lookup_app_l_Some.
    + rewrite (check_stop gw gwf tn tw s Hc calls) by done. simpl.
      apply (marks_kept_trans _ (set_is_recording false s));
        [by apply marks_kept_heap | apply retrieve_marks_kept].
    + rewrite (check_same_signal gw gwf tn tw s Hc false calls) by done.
      apply marks_kept_refl.
  - unfold timer_fire. destruct (timers s) as [|n rest];
      [apply marks_kept_refl |].
    rewrite and_then_eq. simpl.
    apply (marks_kept_trans _ (set_timers rest s));
      [by apply marks_kept_heap | apply retrieve_marks_kept].
  - unfold global_hotkey_callback.
    destruct (is_recording s), (current_recording_project s),
      (recording_window s) as [w|]; try apply marks_kept_refl.
    simpl. eapply marks_kept_alter; [reflexivity |].
    intros p. simpl. by apply prefix_app_r.
  - by apply marks_kept_heap.
Qed.

(** X4. No event ever drops a project or a mark: whatever events are
    handled, from whatever state, every project stays at its reference and
    its list of marks, notes included, is only ever extended at the end. *)
Theorem marks_never_lost (evs : list event) (s : t) :
  marks_kept s (fst (run evs s)).
Proof.
  revert s. induction evs as [|e evs IH]; intros s.
  - apply marks_kept_refl.
  - rewrite run_cons. simpl.
    eapply marks_kept_trans; [apply step_marks_kept | apply IH].
Qed.

(** ** Effects are accounted for *)

Lemma write_record_effects (folder : string) (p : Project.t)
    (fs0 : filesystem) :
  Forall (fun e => e = Fs_write (Project.file_path folder (Project.name p))
                                (record_of p))
         (snd (Project.write_record folder p fs0)).
Proof.
  unfold Project.write_record. destruct (write_json _ _ _); repeat constructor.
Qed.

Lemma save_json_effects (folder : string) (p : Project.t)
    (fs0 fs1 : filesystem) (tr : trace) :
  Project.save_json folder p fs0 = Ok (fs1, tr) ->
  Forall (fun e => e = Fs_write (Project.file_path folder (Project.name p))
                                (record_of p)) tr.
Proof.
  unfold Project.save_json. destruct (os_makedirs folder fs0); [| done].
  intros [= H]. pose proof (write_record_effects folder p fs0) as He.
  by rewrite H in He.
Qed.

Lemma store_only_frame (h : handler) (s : t) :
  store_only h ->
  heap (fst (h s)) = heap s
  /\ projects_path (fst (h s)) = projects_path s
  /\ recording_window (fst (h s)) = recording_window s
  /\ current_recording_project (fst (h s)) = current_recording_project s
  /\ obs_controller (fst (h s)) = obs_controller s.
Proof. intros H. by rewrite (H s). Qed.

(** The first part of [_finalize_with_path]: the project is updated, the
    record under its old name removed if the path has a base name, and the
    project saved. *)
Lemma finalize_store_shape (final_path : string) (r : nat) (s : t) :
  exists (m : t) (pre : trace),
    heap m = alter (finalized_project final_path) r (heap s)
    /\ projects_path m = projects_path s
    /\ locked (fs m) = locked (fs s)
    /\ Forall (fun e => e = Fs_remove (Project.file_path (projects_path s)
                                         (project_name r s))) pre
    /\ finalize_store final_path r s
       = (fst (fst (save_project r m)),
          pre ++ snd (fst (save_project r m)),
          snd (save_project r m)).
Proof.
  unfold finalize_store, finalized_project.
  destruct (str_truthy final_path);
    [destruct (str_truthy (os_path_basename final_path)) |]; cbv zeta beta.
  - set (m0 := update_project r
                 (Project.set_video_file_path final_path)
                 (update_project r
                    (Project.set_name (os_path_basename final_path)) s)).
    set (rm := remove_if_exists
                 (Project.file_path (projects_path s) (project_name r s))).
    exists (fst (rm m0)), (snd (rm m0)).
    destruct (store_only_frame rm m0 (store_only_remove_if_exists _))
      as (Hh & Hp & _).
    split; [rewrite Hh; subst m0; simpl; by rewrite list_alter_alter_eq |].
    split; [by rewrite Hp |].
    split; [by rewrite (store_only_locked rm m0
                          (store_only_remove_if_exists _)) |].
    split.
    + subst rm. unfold remove_if_exists.
      destruct (os_path_exists _ _); [| constructor].
      destruct (os_remove _ _); repeat constructor.
    + unfold try_then, ret, modify. cbv beta iota zeta. fold m0. fold rm.
      destruct (rm m0) as [s2 tr2]. cbn [fst snd].
      by destruct (save_project r s2) as [[s3 tr3] ok].
  - exists (update_project r (Project.set_video_file_path final_path) s), [].
    split; [done |]. split; [done |]. split; [done |]. split; [constructor |].
    unfold try_then, ret, modify. cbv beta iota zeta.
    by destruct (save_project r _) as [[s3 tr3] ok].
  - exists s, []. split; [symmetry; by apply list_alter_id |].
    split; [done |]. split; [done |]. split; [constructor |].
    by destruct (save_project r s) as [[s3 tr3] ok].
Qed.

(** With a folder that cannot be made, the exception of the first
    [save_json] leaves [_finalize_with_path]. *)
Lemma finalize_store_raises (final_path : string) (r : nat) (s : t) :
  os_makedirs (projects_path s) (fs s) = false ->
  is_Some (heap s !! r) ->
  snd (finalize_store final_path r s) = false.
Proof.
  intros Hm [p Hp].
  destruct (finalize_store_shape final_path r s)
    as (m & pre & Hh & Hpp & Hl & _ & ->). cbn [snd].
  assert (Hq : heap m !! r = Some (finalized_project final_path p))
    by (by rewrite Hh, list_lookup_alter_eq, Hp).
  rewrite (save_project_raises r _ m) with (2 := Hq); [done |].
  unfold os_makedirs in *. by rewrite Hpp, Hl.
Qed.

Lemma finalize_raises (final_path : string) (r : nat) (s : t) :
  os_makedirs (projects_path s) (fs s) = false ->
  is_Some (heap s !! r) ->
  snd (finalize_statements final_path r s) = false.
Proof.
  intros Hm Hp. unfold finalize_statements.
  rewrite !returned_try_ret, returned_try_then.
  by rewrite (finalize_store_raises final_path r s Hm Hp).
Qed.

Section FinalizeEffects.

Variables (s : t) (r : nat) (final_path : string).
Hypothesis current : current_recording_project s = Some r.

Let s' := fst (_finalize_with_path final_path s).

Lemma finalize_heap :
  heap s' = alter (finalized_project final_path) r (heap s).
Proof. subst s'. by apply finalize_alters. Qed.

Lemma finalize_projects_path : projects_path s' = projects_path s.
Proof.
  subst s'. rewrite (finalize_state final_path r s current).
  by destruct (snd (finalize_statements final_path r s)).
Qed.

Lemma finalize_current_returned :
  snd (finalize_statements final_path r s) = true ->
  current_recording_project s' = None.
Proof.
  intros H. subst s'. by rewrite (finalize_state final_path r s current), H.
Qed.

Lemma finalize_current_raised :
  snd (finalize_statements final_path r s) = false ->
  current_recording_project s' = Some r.
Proof.
  intros H. subst s'. rewrite (finalize_state final_path r s current), H.
  exact current.
Qed.

(** A state in the middle of the finalization, after the attribute
    updates on the project. *)
Let mid (m : t) : Prop :=
  heap m = heap s' /\ projects_path m = projects_path s.

(** A statement run in the middle of the finalization: its effects are
    accounted for, and the state stays in the middle. *)
Let good (a : attempt) (m : t) : Prop :=
  Forall (effect_ok s s') (snd (fst (a m))) /\ mid (fst (fst (a m))).

Lemma good_try_then (a b : attempt) (m : t) :
  good a m ->
  (snd (a m) = true -> mid (fst (fst (a m))) -> good b (fst (fst (a m)))) ->
  good (a >>> b) m.
Proof.
  intros [Ha Hm] Hb. unfold good. rewrite try_then_eq.
  destruct (snd (a m)) eqn:E; cbn [fst snd]; [| done].
  destruct (Hb eq_refl Hm) as [Hb1 Hb2]. split; [by apply Forall_app | done].
Qed.

Lemma good_modify (f : t -> t) (m : t) :
  heap (f m) = heap m -> projects_path (f m) = projects_path m ->
  mid m -> good (ret (modify f)) m.
Proof.
  intros Hh Hp [Hm1 Hm2]. split; [constructor |]. split; simpl; congruence.
Qed.

Lemma mid_save_project (m : t) : mid m -> good (save_project r) m.
Proof.
  intros [Hh Hp]. unfold good, save_project.
  destruct (heap m !! r) as [q|] eqn:Hq; [| by split; [constructor |]].
  destruct (Project.save_json _ q (fs m)) as [[fs1 tr]|x] eqn:Hs;
    cbn [fst snd]; [| by split; [constructor |]].
  split; [| done].
  eapply Forall_impl; [exact (save_json_effects _ _ _ _ _ Hs) |].
  intros e ->. simpl.
  exists q. rewrite <- Hh, Hp. split; [| done].
  by apply list_elem_of_lookup_2 in Hq.
Qed.

Lemma mid_close_recording_window (m : t) :
  mid m -> good close_recording_window m.
Proof.
  intros [Hh Hp]. unfold good, close_recording_window,
    RecordingWindow.closeEvent.
  destruct (recording_window m) as [w|]; [| by split; [constructor |]].
  destruct (heap m !! RecordingWindow.project w) as [q|] eqn:Hq;
    [| by split; [constructor |]].
  destruct (Project.save_json _ q (fs m)) as [[fs1 tr]|x] eqn:Hs;
    cbn [fst snd]; [| by split; [constructor |]].
  split; [| done].
  eapply Forall_impl; [exact (save_json_effects _ _ _ _ _ Hs) |].
  intros e ->. simpl.
  exists q. rewrite <- Hh, Hp. split; [| done].
  by apply list_elem_of_lookup_2 in Hq.
Qed.

Lemma finalize_store_effects : good (finalize_store final_path r) s.
Proof.
  destruct (finalize_store_shape final_path r s)
    as (m & pre & Hh & Hpp & Hl & Hpre & Heq).
  assert (Hmid : mid m) by (split; [by rewrite finalize_heap | done]).
  destruct (mid_save_project m Hmid) as [He Hm'].
  unfold good. rewrite Heq. cbn [fst snd]. split; [| done].
  apply Forall_app. split; [| done].
  eapply Forall_impl; [exact Hpre |]. intros e ->. simpl. exists r.
  split; [exact current |]. split; [done |]. split.
  - intros Hm. apply finalize_current_returned.
    by apply finalize_returned.
  - intros Hm Hp. apply finalize_current_raised.
    by apply finalize_raises.
Qed.

Lemma finalize_window_effects (m : t) : mid m -> good finalize_window m.
Proof.
  intros Hm. unfold good, finalize_window.
  destruct (recording_window m) as [w|]; [| by split; [constructor |]].
  apply good_try_then; [by apply mid_close_recording_window |].
  intros _ Hm'. by apply good_modify.
Qed.

Lemma finalize_effects :
  Forall (effect_ok s s') (snd (_finalize_with_path final_path s)).
Proof.
  unfold _finalize_with_path. rewrite current.
  assert (H : good (finalize_statements final_path r) s); [| apply H].
  unfold finalize_statements.
  apply good_try_then; [apply good_try_then; [apply good_try_then;
    [apply good_try_then; [apply finalize_store_effects |] |] |] |].
  - intros _ Hm. by apply finalize_window_effects.
  - intros Hret [Hh Hp].
    assert (Hnone : current_recording_project s' = None).
    { apply finalize_current_returned. unfold finalize_statements.
      by rewrite !returned_try_ret. }
    unfold good, ret. cbn [fst snd]. unfold open_project_edit.
    assert (Hn : forall m, heap m = heap s' ->
                           project_name r m = project_name r s')
      by (intros m Hm; unfold project_name; by rewrite Hm).
    rewrite (Hn _ Hh).
    destruct (Project.load_json _ _ _); cbn [fst snd];
      (split; [repeat constructor; simpl; by exists r | done]).
  - intros _ Hm. by apply good_modify.
  - intros _ Hm. by apply good_modify.
Qed.

End FinalizeEffects.

Lemma effect_ok_ext (s0 s s' : t) (e : effect) :
  obs_controller s0 = obs_controller s ->
  projects_path s0 = projects_path s ->
  current_recording_project s0 = current_recording_project s ->
  heap s0 = heap s ->
  fs s0 = fs s ->
  effect_ok s0 s' e -> effect_ok s s' e.
Proof.
  intros Ho Hp Hc Hh Hf. destruct e; simpl; unfold project_name;
    by rewrite ?Ho, ?Hp, ?Hc, ?Hh, ?Hf.
Qed.

Lemma poll_effects (gw : gateway) (s s' : t) :
  OBSController.is_connected (obs_controller s) = true ->
  Forall (effect_ok s s') (snd (poll gw)).
Proof.
  intros Hc. unfold poll.
  destruct (reply_GetRecordStatus gw) as [|[d|]]; simpl;
    [| by repeat constructor | by repeat constructor].
  destruct (reply_GetRecordingStatus gw) as [o|]; [| by repeat constructor].
  destruct (getIsRecording o), (getRecordingFilename o);
    by repeat constructor.
Qed.

Lemma get_final_record_path_effects (gw : gateway) (s s' : t) :
  Forall (effect_ok s s')
         (snd (OBSController.get_final_record_path gw (obs_controller s))).
Proof.
  unfold OBSController.get_final_record_path.
  destruct (OBSController.is_connected (obs_controller s)) eqn:Hc;
    destruct (OBSController.ws (obs_controller s));
    destruct (OBSController.last_known_stop_path (obs_controller s)) as [p|];
    simpl; repeat case_match; simpl; repeat constructor; done.
Qed.

Lemma retrieve_effects (gw : gateway) (n : Z) (s : t) :
  Forall (effect_ok s (fst (_retrieve_final_path_with_retry gw n s)))
         (snd (_retrieve_final_path_with_retry gw n s)).
Proof.
  destruct (current_recording_project s) as [r|] eqn:Hcur;
    [| rewrite retrieve_no_project by done; constructor].
  pose proof (get_final_record_path_effects gw s) as Hcalls.
  destruct (OBSController.get_final_record_path gw (obs_controller s))
    as [p calls] eqn:Hq. simpl in Hcalls.
  destruct (String.eqb_spec p "") as [-> | Hp].
  - destruct (Z.lt_ge_cases 1 n).
    + rewrite (retrieve_retry gw n s calls) by eauto. simpl.
      rewrite app_nil_r. apply Hcalls.
    + rewrite (retrieve_exhausted gw n s calls) by (eauto || lia). simpl.
      apply Forall_app. split; [apply Hcalls |]. by apply (finalize_effects s r).
  - rewrite (retrieve_found gw n s p calls) by eauto. simpl.
    apply Forall_app. split; [apply Hcalls |]. by apply (finalize_effects s r).
Qed.

(** Every effect of every event is accounted for. *)
Lemma step_effects (e : event) (s : t) :
  Forall (effect_ok s (fst (step e s))) (snd (step e s)).
Proof.
  destruct e as [gw gwf tn tw | gw | now | pe]; simpl.
  - destruct (OBSController.is_connected (obs_controller s)) eqn:Hc;
      [| rewrite check_disconnected by done; constructor].
    pose proof (fun s' => poll_effects gw s s' Hc) as Hcalls.
    destruct (poll gw) as [[b|] calls] eqn:Hp; simpl in Hcalls;
      [| rewrite (check_no_signal gw gwf tn tw s Hc calls) by done;
         apply Hcalls].
    destruct b, (is_recording s) eqn:Hr.
    + rewrite (check_same_signal gw gwf tn tw s Hc true calls) by done.
      simpl. rewrite app_nil_r. apply Hcalls.
    + destruct (os_makedirs (projects_path s) (fs s)) eqn:Hm;
        [| rewrite (check_start_raises gw gwf tn tw s Hc calls) by done;
           simpl; rewrite app_nil_r; apply Hcalls].
      rewrite (check_start gw gwf tn tw s Hc calls) by done. simpl.
      apply Forall_app. split; [apply Hcalls |]. apply Forall_app. split.
      * eapply Forall_impl; [apply write_record_effects |]. intros e ->. simpl.
        exists (placeholder tn). split; [| done].
        apply elem_of_app. right. by apply list_elem_of_singleton.
      * destruct (recording_window s) as [w|]; [| constructor].
        destruct (_ !! RecordingWindow.project w) as [q|] eqn:Hq;
          [| constructor].
        eapply Forall_impl; [apply write_record_effects |]. intros e ->. simpl.
        exists q. split; [| done]. by apply list_elem_of_lookup_2 in Hq.
    + rewrite (check_stop gw gwf tn tw s Hc calls) by done. simpl.
      apply Forall_app. split; [apply Hcalls |].
      eapply Forall_impl; [apply retrieve_effects |]. intros e.
      by apply effect_ok_ext.
    + rewrite (check_same_signal gw gwf tn tw s Hc false calls) by done.
      simpl. rewrite app_nil_r. apply Hcalls.
  - unfold timer_fire. destruct (timers s) as [|n rest]; [constructor |].
    rewrite and_then_eq. simpl.
    eapply Forall_impl; [apply retrieve_effects |]. intros e.
    by apply effect_ok_ext.
  - unfold global_hotkey_callback.
    destruct (is_recording s), (current_recording_project s),
      (recording_window s); constructor.
  - constructor.
Qed.

(** X5. The only file an event ever removes is the record stored under the
    name the current project has when the event arrives; with no current
    project nothing is removed, and records of other projects are never
    removed. Where [os.makedirs] returns for the projects folder, the
    event that removes the record ends that project's session; where it
    raises, the [save_json] that follows the removal does not return, and
    the project, once its record was removed, is still the current one. *)
Theorem only_own_record_removed (e : event) (s : t) (path : string) :
  Fs_remove path ∈ snd (step e s) ->
  exists r,
    current_recording_project s = Some r
    /\ path = Project.file_path (projects_path s) (project_name r s)
    /\ (os_makedirs (projects_path s) (fs s) = true ->
        current_recording_project (fst (step e s)) = None)
    /\ (os_makedirs (projects_path s) (fs s) = false ->
        is_Some (heap s !! r) ->
        current_recording_project (fst (step e s)) = Some r).
Proof.
  intros Hin.
  pose proof (proj1 (Forall_forall _ _) (step_effects e s) _ Hin) as H.
  simpl in H. destruct H as (r & Hcur & -> & Hret & Hraise). by exists r.
Qed.

Lemma only_own_record_removed_witness :
  (Fs_remove "projects/Recording_101.json"
     ∈ snd (step (Poll gw_idle gw_idle 116 116) pushed_before_poll))
  /\ current_recording_project pushed_before_poll = Some 0%nat
  /\ project_name 0 pushed_before_poll = "Recording_101".
Proof.
  assert (Hin : Fs_remove "projects/Recording_101.json"
                  ∈ snd (step (Poll gw_idle gw_idle 116 116) pushed_before_poll))
    by (apply (list_elem_of_lookup_2 _ 1%nat); reflexivity).
  split; [exact Hin |].
  destruct (only_own_record_removed _ _ _ Hin) as (r & Hcur & _ & _).
  split; reflexivity.
Defined.

(** X6. Whatever an event writes is the record of a project of the
    resulting state, written under that project's own name; such a record
    is never corrupt: from any store that holds it under that path,
    [load_json] returns the project. *)
Theorem written_records_load_back (e : event) (s : t) (path : string)
    (c : file_content) :
  Fs_write path c ∈ snd (step e s) ->
  exists q,
    q ∈ heap (fst (step e s))
    /\ path = Project.file_path (projects_path s) (Project.name q)
    /\ c = Json_text (Project.to_dict (Project.to_obj q))
    /\ forall fs1 : filesystem,
         files fs1 !! path = Some c ->
         Project.load_json (projects_path s) (Project.name q) fs1
         = Some (Project.to_obj q).
Proof.
  intros Hin.
  pose proof (proj1 (Forall_forall _ _) (step_effects e s) _ Hin) as H.
  simpl in H. destruct H as (q & Hq & -> & ->). exists q.
  split; [done | split; [done | split; [done |]]].
  intros fs1 Hf. by apply load_json_stored.
Qed.

Lemma written_records_load_back_witness :
  (Fs_write "projects/out.mkv.json"
     (Json_text
        (Project.to_dict
           (Project.to_obj
              {| Project.name := "out.mkv";
                 Project.video_file_path := "/rec/out.mkv";
                 Project.timestamps := Project.timestamps two_marks |})))
     ∈ snd (step (Poll gw_idle gw_idle 116 116) pushed_before_poll))
  /\ exists q,
       q ∈ heap (fst (step (Poll gw_idle gw_idle 116 116) pushed_before_poll))
       /\ Project.name q = "out.mkv".
Proof.
  match goal with
  | |- ?A /\ _ =>
      assert (Hin : A)
        by (apply (list_elem_of_lookup_2 _ 2%nat); reflexivity)
  end.
  split; [exact Hin |].
  destruct (written_records_load_back _ _ _ _ Hin) as (q & Hq & Hpath & Hc & _).
  exists q. split; [exact Hq |].
  injection Hc as Hn _ _. congruence.
Defined.

(** X7. No event sends a request to the gateway while the controller is
    not connected: the poll returns at once, a retrieval attempt answers
    from the cache or with the empty path, and the other events never
    query. *)
Theorem disconnected_never_queried (e : event) (s : t) (rq : request) :
  OBSController.is_connected (obs_controller s) = false ->
  Ws_call rq ∉ snd (step e s).
Proof.
  intros Hoff Hin.
  pose proof (proj1 (Forall_forall _ _) (step_effects e s) _ Hin) as H.
  simpl in H. congruence.
Qed.

Lemma disconnected_never_queried_witness :
  OBSController.is_connected (obs_controller offline) = false
  /\ (Ws_call GetRecordStatus
      ∉ snd (step (Poll gw_idle gw_idle 116 116) offline))
  /\ snd (step (Poll gw_idle gw_idle 116 116) offline) = [].
Proof.
  split; [reflexivity |]. split; [| reflexivity].
  apply (disconnected_never_queried (Poll gw_idle gw_idle 116 116) offline
           GetRecordStatus eq_refl).
Defined.


(** ** Finalization, whatever the path *)

(** X8. Whatever path the retriever resolved (none, one with a base name,
    one without), finalization leaves the session in the store as it is in
    memory: the project gets the base name as its name if there is one,
    the path as its video path if there is one, and keeps its marks; its
    record is then loaded back from under its final name, the edit window
    is opened for that name as the last effect, and the application has no
    current project, no window and an empty cache. [os.makedirs] must
    return for the projects folder, and the store must accept the write
    under the final name. *)
Theorem finalization_persists_session (final_path : string) (s : t) (r : nat)
    (p : Project.t) :
  current_recording_project s = Some r ->
  heap s !! r = Some p ->
  window_shows_current s ->
  os_makedirs (projects_path s) (fs s) = true ->
  let p' :=
    {| Project.name :=
         if str_truthy final_path && str_truthy (os_path_basename final_path)
         then os_path_basename final_path else Project.name p;
       Project.video_file_path :=
         if str_truthy final_path then final_path
         else Project.video_file_path p;
       Project.timestamps := Project.timestamps p |} in
  Project.file_path (projects_path s) (Project.name p') ∉ locked (fs s) ->
  let out := _finalize_with_path final_path s in
  heap (fst out) !! r = Some p'
  /\ Project.load_json (projects_path s) (Project.name p') (fs (fst out))
     = Some (Project.to_obj p')
  /\ last (snd out) = Some (Show_edit_window (Project.name p'))
  /\ current_recording_project (fst out) = None
  /\ recording_window (fst out) = None
  /\ OBSController.last_known_stop_path (obs_controller (fst out)) = None.
Proof.
  intros Hcur Hp Hwin Hmk p' Hl out.
  assert (Hp' : finalized_project final_path p = p').
  { subst p'. unfold finalized_project.
    destruct (str_truthy final_path),
      (str_truthy (os_path_basename final_path)); by destruct p. }
  assert (Hstate := finalize_acts_as final_path r s Hmk Hcur).
  fold out in Hstate.
  assert (Hheap : heap (fst out) !! r = Some p').
  { rewrite Hstate. simpl. by rewrite list_lookup_alter_eq, Hp, <- Hp'. }
  set (path := Project.file_path (projects_path s) (Project.name p')) in *.
  (* a state in the middle of the finalization, the project updated *)
  set (mid := fun m : t =>
         heap m !! r = Some p' /\ projects_path m = projects_path s
         /\ recording_window m = recording_window s
         /\ locked (fs m) = locked (fs s)).
  assert (Hmid : forall m, mid m ->
            os_makedirs (projects_path m) (fs m) = true).
  { intros m (_ & Hm2 & _ & Hm4). unfold os_makedirs in *.
    by rewrite Hm2, Hm4. }
  assert (Hsave : forall m, mid m ->
            snd (slot (save_project r) m) = [Fs_write path (record_of p')]
            /\ mid (fst (slot (save_project r) m))
            /\ files (fs (fst (slot (save_project r) m))) !! path
               = Some (record_of p')).
  { intros m Hm. pose proof (Hmid m Hm) as Hmk'.
    destruct Hm as (Hm1 & Hm2 & Hm3 & Hm4).
    rewrite (save_project_unlocked r p' m Hmk' Hm1) by (by rewrite Hm2, Hm4).
    rewrite Hm2. fold path. simpl. split; [done |]. split; [done |].
    apply lookup_insert_eq. }
  subst out. rewrite (finalize_returns final_path r s Hmk Hcur) in *.
  match goal with
  | |- context [ (?U >> ?W >> ?O >> ?C >> ?N) s ] =>
      set (hU := U) in *; set (hW := W) in *; set (hO := O) in *
  end.
  rewrite !and_then_eq in *. cbn [snd fst modify] in *.
  rewrite !app_nil_r in *.
  assert (HU : mid (fst (hU s))
               /\ files (fs (fst (hU s))) !! path = Some (record_of p')).
  { subst hU. unfold finalized_project in Hp'.
    destruct (str_truthy final_path);
      [destruct (str_truthy (os_path_basename final_path)) |].
    - cbv beta zeta. rewrite !and_then_eq. cbn [snd fst modify].
      set (m0 := update_project r
                   (Project.set_video_file_path final_path)
                   (update_project r
                      (Project.set_name (os_path_basename final_path)) s)).
      set (rm := remove_if_exists
                   (Project.file_path (projects_path s) (project_name r s))).
      assert (Hm1 : mid (fst (rm m0))).
      { destruct (store_only_frame rm m0 (store_only_remove_if_exists _))
          as (Hh & Hpp & Hw & _).
        split; [| split; [| split]].
        - rewrite Hh. subst m0. simpl.
          by rewrite !list_lookup_alter_eq, Hp, <- Hp'.
        - by rewrite Hpp.
        - by rewrite Hw.
        - by rewrite (store_only_locked rm m0 (store_only_remove_if_exists _)). }
      destruct (Hsave _ Hm1) as (_ & Hm2 & Hf). done.
    - rewrite and_then_eq. cbn [snd fst modify].
      refine (let H := Hsave _ _ in conj (proj1 (proj2 H)) (proj2 (proj2 H))).
      split; [| done]. simpl. by rewrite list_lookup_alter_eq, Hp, <- Hp'.
    - refine (let H := Hsave _ _ in conj (proj1 (proj2 H)) (proj2 (proj2 H))).
      split; [| done]. by rewrite Hp, <- Hp'. }
  destruct HU as [(Hu1 & Hu2 & Hu3 & Hu4) HfU].
  set (m1 := fst (hU s)) in *.
  assert (HW : heap (fst (hW m1)) !! r = Some p'
               /\ projects_path (fst (hW m1)) = projects_path s
               /\ files (fs (fst (hW m1))) !! path = Some (record_of p')).
  { subst hW. cbv beta. rewrite Hu3.
    unfold window_shows_current in Hwin. rewrite Hcur in Hwin.
    destruct (recording_window s) as [w|] eqn:Hw; [| done].
    rewrite and_then_eq. cbn [snd fst modify].
    rewrite (close_recording_window_unlocked w p' m1);
      [| by apply Hmid | done | by rewrite Hwin | by rewrite Hu2, Hu4].
    simpl. rewrite Hu2. fold path. split; [done | split; [done |]].
    apply lookup_insert_eq. }
  destruct HW as (Hw1 & Hw2 & Hw3).
  set (m2 := fst (hW m1)) in *.
  assert (HO : hO m2 = (m2, [Show_edit_window (Project.name p')])).
  { subst hO. cbv beta. unfold project_name. rewrite Hw1.
    cbn [default fmap option_fmap option_map id].
    apply open_project_edit_found. by rewrite Hw2. }
  rewrite HO in *. cbn [fst snd] in *.
  split; [done |]. split.
  - simpl. by apply load_json_stored.
  - split; [apply last_snoc |]. by rewrite Hstate.
Qed.

Lemma finalization_persists_session_witness :
  (current_recording_project stop_pushed = Some 0%nat
   /\ heap stop_pushed !! 0%nat = Some two_marks
   /\ window_shows_current stop_pushed
   /\ os_makedirs (projects_path stop_pushed) (fs stop_pushed) = true
   /\ os_path_basename "/rec/" = "")
  /\ let out := _finalize_with_path "/rec/" stop_pushed in
     heap (fst out) !! 0%nat
     = Some {| Project.name := "Recording_101";
               Project.video_file_path := "/rec/";
               Project.timestamps := Project.timestamps two_marks |}
     /\ Project.load_json "projects" "Recording_101" (fs (fst out))
        = Some (Project.to_obj
                  {| Project.name := "Recording_101";
                     Project.video_file_path := "/rec/";
                     Project.timestamps := Project.timestamps two_marks |}).
Proof.
  split; [repeat split; reflexivity |].
  destruct (finalization_persists_session "/rec/" stop_pushed 0%nat two_marks
              eq_refl eq_refl eq_refl eq_refl ltac:(apply not_elem_of_empty))
    as (Hh & Hl & _).
  split; [exact Hh | exact Hl].
Defined.

(** ** Without a current project *)

(** X9. With no current project, no event but a poll that starts a session
    changes a project or a file: retrieval attempts of pending retry
    timers, a poll that sees the recording stop, hotkey presses and push
    events leave every project and every file as they are, and their only
    effects are requests to the gateway. In particular a session is
    finalized at most once. *)
Theorem idle_events_touch_nothing (e : event) (s : t) :
  current_recording_project s = None ->
  (forall gw gwf tn tw, e = Poll gw gwf tn tw ->
     is_recording s = true \/ fst (poll gw) <> Some true) ->
  heap (fst (step e s)) = heap s
  /\ fs (fst (step e s)) = fs s
  /\ current_recording_project (fst (step e s)) = None
  /\ Forall (fun eff => exists rq, eff = Ws_call rq) (snd (step e s)).
Proof.
  intros Hcur Hpoll.
  assert (Hcalls : forall gw, Forall (fun eff => exists rq, eff = Ws_call rq)
                                     (snd (poll gw))).
  { intros gw. unfold poll. repeat case_match; simpl; repeat constructor; eauto. }
  destruct e as [gw gwf tn tw | gw | now | pe]; simpl.
  - destruct (OBSController.is_connected (obs_controller s)) eqn:Hc;
      [| rewrite check_disconnected by done; repeat split; [done | constructor]].
    specialize (Hpoll gw gwf tn tw eq_refl). specialize (Hcalls gw).
    destruct (poll gw) as [[b|] calls] eqn:Hp; simpl in *;
      [| rewrite (check_no_signal gw gwf tn tw s Hc calls) by done; done].
    destruct b, (is_recording s) eqn:Hr.
    + rewrite (check_same_signal gw gwf tn tw s Hc true calls) by done.
      simpl. by rewrite app_nil_r.
    + by destruct Hpoll.
    + rewrite (check_stop gw gwf tn tw s Hc calls) by done.
      rewrite retrieve_no_project by done. simpl. by rewrite app_nil_r.
    + rewrite (check_same_signal gw gwf tn tw s Hc false calls) by done.
      simpl. by rewrite app_nil_r.
  - unfold timer_fire. destruct (timers s) as [|n rest];
      [repeat split; [done | constructor] |].
    rewrite and_then_eq. simpl. rewrite retrieve_no_project by done.
    repeat split; [done | constructor].
  - unfold global_hotkey_callback. rewrite Hcur.
    destruct (is_recording s); repeat split; (done || constructor).
  - repeat split; [done | constructor].
Qed.

Lemma idle_events_touch_nothing_witness :
  let s := fst (run (Poll gw_idle gw_idle 116 116 :: quiet_retries)
                    before_stop) in
  current_recording_project s = None
  /\ heap (fst (step (Retry_timer gw_hint) s)) = heap s
  /\ fs (fst (step (Hotkey 130) s)) = fs s.
Proof.
  intros s. split; [reflexivity |]. split.
  - apply (idle_events_touch_nothing (Retry_timer gw_hint) s eq_refl).
    intros gw gwf tn tw [=].
  - apply (idle_events_touch_nothing (Hotkey 130) s eq_refl).
    intros gw gwf tn tw [=].
Defined.

(** ** Retries and the recording flag *)

(** X10. A retry does not look at the recording flag: when the last retry
    left by an earlier stop fires without a path while the next recording
    is running, it finalizes the session of that recording. The flag stays
    set, but there is no current project and no window any more, so every
    later hotkey press is ignored, and the poll that sees this recording
    stop only clears the flag. This is for a projects folder for which
    [os.makedirs] returns, so that the [save_json] of the finalization
    returns. *)
Theorem last_retry_ends_running_session (gw : gateway) (s : t) (n : Z)
    (rest : list Z) (r : nat) :
  is_recording s = true ->
  current_recording_project s = Some r ->
  timers s = n :: rest ->
  (n <= 1)%Z ->
  no_path (obs_controller s) gw ->
  os_makedirs (projects_path s) (fs s) = true ->
  let s' := fst (step (Retry_timer gw) s) in
  is_recording s' = true
  /\ current_recording_project s' = None
  /\ recording_window s' = None
  /\ heap s' = heap s
  /\ (forall now, step (Hotkey now) s' = (s', []))
  /\ (forall gw' gwf tn tw,
        fst (poll gw') = Some false ->
        fst (step (Poll gw' gwf tn tw) s')
        = if OBSController.is_connected (obs_controller s')
          then set_is_recording false s' else s').
Proof.
  intros Hrec Hcur Htm Hn Hno Hmk s'.
  assert (Hs' : exists x, s' = set_fs x (finalized "" r (set_timers rest s))).
  { subst s'. simpl. rewrite (timer_fire_eq gw n rest s Htm). simpl.
    destruct (OBSController.get_final_record_path gw (obs_controller s))
      as [q calls] eqn:Hq.
    unfold no_path in Hno. rewrite Hq in Hno. simpl in Hno. subst q.
    rewrite (retrieve_exhausted gw n (set_timers rest s) calls); eauto.
    simpl. eexists. apply finalize_acts_as; [exact Hmk | exact Hcur]. }
  destruct Hs' as [x Hs']. clearbody s'.
  assert (Hrec' : is_recording s' = true) by by subst s'.
  assert (Hcur' : current_recording_project s' = None) by by subst s'.
  split; [done |]. split; [done |]. split; [by subst s' |].
  split; [subst s'; simpl; by apply list_alter_id |].
  split.
  { intros now. simpl. unfold global_hotkey_callback.
    by rewrite Hrec', Hcur'. }
  intros gw' gwf tn tw Hp. simpl.
  destruct (OBSController.is_connected (obs_controller s')) eqn:Hc.
  - destruct (poll gw') as [sig calls] eqn:Hpoll. simpl in Hp. subst sig.
    rewrite (check_stop gw' gwf tn tw s' Hc calls) by done.
    by rewrite retrieve_no_project.
  - by rewrite check_disconnected.
Qed.

Lemma overlapping_reachable : reachable "projects" empty_fs overlapping.
Proof.
  exists (session_events
            ++ [Poll gw_idle gw_idle 116 116;
                Poll gw_active gw_idle 117 (Qmake 1171 10);
                Retry_timer gw_idle; Retry_timer gw_idle; Retry_timer gw_idle]).
  rewrite run_app_fst. reflexivity.
Defined.

Lemma last_retry_ends_running_session_witness :
  reachable "projects" empty_fs overlapping
  /\ (is_recording overlapping = true
      /\ current_recording_project overlapping = Some 1%nat
      /\ timers overlapping = [1]
      /\ os_makedirs (projects_path overlapping) (fs overlapping) = true)
  /\ let s' := fst (step (Retry_timer gw_idle) overlapping) in
     is_recording s' = true
     /\ current_recording_project s' = None
     /\ forall now, step (Hotkey now) s' = (s', []).
Proof.
  split; [exact overlapping_reachable |].
  split; [repeat split; reflexivity |].
  destruct (last_retry_ends_running_session gw_idle overlapping 1 [] 1%nat
              eq_refl eq_refl eq_refl ltac:(lia) eq_refl eq_refl)
    as (H1 & H2 & _ & _ & H5 & _).
  split; [exact H1 |]. split; [exact H2 | exact H5].
Defined.

(** X11. Saving a project touches one record only: when [save_json]
    returns, a project with another name loads after it exactly as it did
    before, whatever the write did. This is for two names that hold no
    separator, so that the two records are two entries of the one folder
    (with a separator a name can spell the file of another record, or a
    file outside the folder). *)
Theorem save_json_leaves_other_records (folder n : string) (p : Project.t)
    (fs0 : filesystem) :
  has_sep (Project.name p) = false ->
  has_sep n = false ->
  n <> Project.name p ->
  forall (fs1 : filesystem) (tr : trace),
    Project.save_json folder p fs0 = Ok (fs1, tr) ->
    Project.load_json folder n fs1 = Project.load_json folder n fs0.
Proof.
  intros Hp Hn Hne fs1 tr.
  assert (Hpath : Project.file_path folder (Project.name p)
                  <> Project.file_path folder n).
  { intros H. apply file_path_inj in H;
      [congruence | by apply has_sep_startswith ..]. }
  unfold Project.save_json. destruct (os_makedirs folder fs0); [| done].
  unfold Project.write_record, write_json.
  case_bool_decide; intros [= <- _]; [done |].
  unfold Project.load_json, os_path_exists, read_json. simpl.
  by rewrite lookup_insert_ne.
Qed.

Lemma save_json_leaves_other_records_witness :
  let fs1 := fst (Project.write_record "projects" two_marks empty_fs) in
  let fs2 :=
    fst (Project.write_record "projects" (new_project "talk") fs1) in
  Project.save_json "projects" (new_project "talk") fs1
  = Ok (fs2, [Fs_write "projects/talk.json" (record_of (new_project "talk"))])
  /\ Project.load_json "projects" "Recording_101" fs2
     = Some (Project.to_obj two_marks).
Proof.
  intros fs1 fs2. split; [reflexivity |].
  rewrite (save_json_leaves_other_records "projects" "Recording_101"
             (new_project "talk") fs1 eq_refl eq_refl ltac:(discriminate)
             fs2 _ eq_refl).
  reflexivity.
Defined.

Lemma endswith_sep_snoc (pre : string) :
  endswith_sep (pre ++ String sep "") = true.
Proof.
  induction pre as [|c pre IH]; [done |].
  simpl. destruct (pre ++ String sep "")%string eqn:E; [by destruct pre |].
  done.
Qed.

Lemma endswith_sep_app (a b : string) :
  endswith_sep b = true -> endswith_sep (a ++ b) = true.
Proof.
  intros Hb. induction a as [|c a IH]; [done |].
  simpl. destruct (a ++ b)%string eqn:E.
  - destruct a, b; simpl in *; discriminate.
  - done.
Qed.

Lemma basename_from_split (acc p : string) :
  exists pre,
    (acc ++ p)%string = (pre ++ basename_from acc p)%string
    /\ (pre = "" \/ endswith_sep pre = true).
Proof.
  revert acc. induction p as [|c p IH]; intros acc; simpl.
  - exists "". split; [by rewrite string_app_nil_r | by left].
  - destruct (Ascii.eqb_spec c sep) as [-> | Hc].
    + destruct (IH "") as (pre & Hpre & Hends).
      change ("" ++ p)%string with p in Hpre.
      exists (acc ++ String sep pre)%string. split.
      * rewrite string_app_assoc. string_app. by rewrite <- Hpre.
      * right. apply endswith_sep_app.
        destruct Hends as [-> | Hends]; [done |].
        by apply (endswith_sep_app (String sep "") pre).
    + destruct (IH (acc ++ String c "")%string) as (pre & Hpre & Hends).
      exists pre. split; [| done].
      rewrite <- Hpre, string_app_assoc. done.
Qed.

(** X12. The name a finalized project takes from the video path is what
    follows the last separator of that path, so it holds no separator and
    the record of the renamed project lies directly in the projects
    folder. *)
Theorem renamed_record_stays_in_folder (folder final_path : string) :
  let base_name := os_path_basename final_path in
  has_sep base_name = false
  /\ (exists pre, final_path = (pre ++ base_name)%string
                  /\ (pre = "" \/ endswith_sep pre = true))
  /\ Project.file_path folder base_name
     = (folder
        ++ (if negb (str_truthy folder) || endswith_sep folder
            then "" else "/")
        ++ base_name ++ ".json")%string.
Proof.
  intros base_name. subst base_name. unfold os_path_basename.
  assert (H := basename_from_no_sep "" final_path eq_refl).
  split; [done |]. split; [apply (basename_from_split "" final_path) |].
  apply file_path_relative.
  by destruct (basename_from "" final_path); [| simpl in *; destruct (Ascii.eqb a sep)].
Qed.

(** ** Listing the projects folder *)

Lemma substring_0_app (a b : string) :
  substring 0 (String.length a) (a ++ b) = a.
Proof.
  induction a as [|c a IH]; string_app; simpl; [by destruct b | by rewrite IH].
Qed.

Lemma substring_skip_app (a b : string) :
  substring (String.length a) (String.length b) (a ++ b) = b.
Proof.
  induction a as [|c a IH]; string_app; simpl; [| done].
  induction b as [|d b IHb]; simpl; [done | by rewrite IHb].
Qed.

Lemma substring_split (n : nat) (s : string) :
  (n <= String.length s)%nat ->
  s = (substring 0 n s ++ substring n (String.length s - n) s)%string.
Proof.
  revert n. induction s as [|c s IH]; intros [|n] Hn; simpl in *; try lia.
  - done.
  - string_app. f_equal.
    clear. induction s as [|d s IHs]; simpl; [done | by rewrite <- IHs].
  - string_app. f_equal. apply IH. lia.
Qed.

Lemma endswith_app (pre suffix : string) :
  endswith (pre ++ suffix) suffix = true
  /\ drop_last (String.length suffix) (pre ++ suffix) = pre.
Proof.
  unfold endswith, drop_last. rewrite string_length_app.
  replace (String.length pre + String.length suffix - String.length suffix)%nat
    with (String.length pre) by lia.
  rewrite substring_skip_app, substring_0_app, String.eqb_refl.
  split; [| done]. apply andb_true_iff. split; [| done].
  apply Nat.leb_le. lia.
Qed.

Lemma endswith_inv (s suffix : string) :
  endswith s suffix = true ->
  s = (drop_last (String.length suffix) s ++ suffix)%string.
Proof.
  unfold endswith, drop_last. intros [Hlen Heq]%andb_true_iff.
  apply Nat.leb_le in Hlen. apply String.eqb_eq in Heq.
  pose proof (substring_split (String.length s - String.length suffix) s
                ltac:(lia)) as Hs.
  replace (String.length s - (String.length s - String.length suffix))%nat
    with (String.length suffix) in Hs by lia.
  by rewrite Heq in Hs.
Qed.

(** The loop of [list_projects] is a filter. *)
Lemma list_projects_loop (acc files : list string) :
  foldl (fun projects f =>
           if String.eqb f "config.json" then projects
           else if endswith f ".json" then projects ++ [drop_last 5 f]
           else projects) acc files
  = acc ++ omap (fun f => if String.eqb f "config.json" then None
                          else if endswith f ".json" then Some (drop_last 5 f)
                          else None) files.
Proof.
  revert acc. induction files as [|f files IH]; intros acc; simpl.
  - by rewrite app_nil_r.
  - rewrite IH. destruct (String.eqb f "config.json"); [done |].
    destruct (endswith f ".json"); [| done].
    by rewrite <- app_assoc.
Qed.

(** X13. [list_projects] lists a name exactly when the folder holds the
    file of that name with the extension [.json] and the name is not
    [config]: every record in the folder is found, the settings file never
    is, and a project saved under the name [config] is not listed
    either. A folder that does not exist lists nothing. *)
Theorem list_projects_lists_records (files : list string) (n : string) :
  (n ∈ list_projects (Some files)
   <-> n <> "config" /\ (n ++ ".json")%string ∈ files)
  /\ list_projects None = [].
Proof.
  split; [| done]. unfold list_projects.
  rewrite list_projects_loop, app_nil_l, list_elem_of_omap. split.
  - intros (f & Hf & Hg).
    destruct (String.eqb_spec f "config.json") as [| Hcfg]; [done |].
    destruct (endswith f ".json") eqn:He; [| done].
    injection Hg as <-. apply endswith_inv in He.
    change (String.length ".json") with 5%nat in He.
    split; [| by rewrite <- He].
    intros Hn. rewrite Hn in He. by apply Hcfg.
  - intros [Hn Hf]. exists (n ++ ".json")%string. split; [done |].
    destruct (String.eqb_spec (n ++ ".json") "config.json") as [E |].
    { destruct Hn. by apply (string_app_inv_tail n "config" ".json"). }
    destruct (endswith_app n ".json") as [-> Hd]. f_equal. exact Hd.
Qed.

(** ** Showing a duration *)

Lemma format_duration_eq (x : Q) :
  format_duration x
  = ((if (0 <? round0 x / 3600)%Z
      then pretty (round0 x / 3600)%Z ++ hours_suffix else "")
     ++ (if ((0 <? (round0 x mod 3600) / 60)%Z || (0 <? round0 x / 3600)%Z)%bool
         then pretty ((round0 x mod 3600) / 60)%Z ++ minutes_suffix else "")
     ++ pretty (round0 x mod 60)%Z ++ seconds_suffix)%string.
Proof.
  unfold format_duration.
  destruct (0 <? round0 x / 3600)%Z; simpl;
    destruct (0 <? (round0 x mod 3600) / 60)%Z; simpl; string_app;
    by rewrite ?string_app_assoc.
Qed.

Lemma mod_3600_mod_60 (s : Z) : ((s mod 3600) mod 60 = s mod 60)%Z.
Proof. Z.div_mod_to_equations. lia. Qed.

(** X14. A duration below one hour, a negative one included, is shown by
    its remainder modulo one hour: the hours are left out, and minutes and
    seconds are those of the remainder. So a mark one second before the
    start of the window reads as 59 minutes 59 seconds. *)
Theorem format_duration_wraps_below_hour (x y : Q) :
  (round0 x < 3600)%Z ->
  (round0 y < 3600)%Z ->
  (round0 x mod 3600 = round0 y mod 3600)%Z ->
  format_duration x = format_duration y.
Proof.
  intros Hx Hy Hxy. rewrite !format_duration_eq.
  assert (Hsx : (round0 x mod 60 = round0 y mod 60)%Z).
  { rewrite <- (mod_3600_mod_60 (round0 x)), <- (mod_3600_mod_60 (round0 y)).
    by rewrite Hxy. }
  rewrite Hxy, Hsx.
  destruct (Z.ltb_spec 0 (round0 x / 3600)) as [H |];
    [exfalso; clear -H Hx; Z.div_mod_to_equations; lia |].
  destruct (Z.ltb_spec 0 (round0 y / 3600)) as [H' |];
    [exfalso; clear -H' Hy; Z.div_mod_to_equations; lia |].
  done.
Qed.

Lemma format_duration_wraps_below_hour_witness :
  format_duration (-1) = format_duration 3599
  /\ format_duration (Qmake (-1) 2) = format_duration 0.
Proof.
  split.
  - apply (format_duration_wraps_below_hour (-1) 3599); by vm_compute.
  - apply (format_duration_wraps_below_hour (Qmake (-1) 2) 0); by vm_compute.
Defined.
Lemma pretty_N_char_digit (y : N) :
  ((48 <=? nat_of_ascii (pretty_N_char y))%nat
   && (nat_of_ascii (pretty_N_char y) <=? 57)%nat)%bool = true.
Proof. unfold pretty_N_char. repeat case_match; reflexivity. Qed.

Lemma pretty_N_go_digits (x : N) (s : string) :
  digits s = true -> digits (pretty_N_go x s) = true.
Proof.
  revert s. induction (N.lt_wf_0 x) as [x _ IH]; intros s Hs.
  assert (x = 0 \/ 0 < x)%N as [-> | Hx] by lia.
  - by rewrite pretty_N_go_0.
  - rewrite pretty_N_go_step by done. apply IH.
    + apply N.div_lt; lia.
    + cbn [digits]. by rewrite pretty_N_char_digit, Hs.
Qed.

Lemma pretty_Z_digits (z : Z) : (0 <= z)%Z -> digits (pretty z) = true.
Proof.
  intros Hz. destruct z as [|p|p]; [done | | lia].
  unfold pretty, pretty_Z, pretty, pretty_positive, pretty, pretty_N.
  destruct (decide (N.pos p = 0%N)); [done |].
  by apply pretty_N_go_digits.
Qed.

(** A run of digits ends at the first character that is not a digit. *)
Lemma digits_split (d1 d2 : string) (c1 c2 : ascii) (r1 r2 : string) :
  digits d1 = true -> digits d2 = true ->
  digits (String c1 "") = false -> digits (String c2 "") = false ->
  (d1 ++ String c1 r1)%string = (d2 ++ String c2 r2)%string ->
  d1 = d2 /\ c1 = c2 /\ r1 = r2.
Proof.
  intros H1 H2 Hc1 Hc2. revert d2 H2.
  induction d1 as [|a d1 IH]; intros [|b d2] H2 H; string_app.
  - by injection H as -> ->.
  - injection H as -> _. cbn [digits] in *.
    apply andb_true_iff in H2 as [H2 _].
    rewrite andb_true_r in Hc1, Hc2. congruence.
  - injection H as -> _. cbn [digits] in *.
    apply andb_true_iff in H1 as [H1 _].
    rewrite andb_true_r in Hc1, Hc2. congruence.
  - injection H as -> H. cbn [digits] in H1, H2.
    apply andb_true_iff in H1 as [_ H1]. apply andb_true_iff in H2 as [_ H2].
    destruct (IH H1 d2 H2 H) as (-> & -> & ->). done.
Qed.

Ltac split_digits H :=
  repeat match type of H with
         | String _ _ = String _ _ => injection H as H
         end;
  string_app;
  apply digits_split in H;
  [destruct H as (? & ? & H)
  | apply pretty_Z_digits; Z.div_mod_to_equations; lia
  | apply pretty_Z_digits; Z.div_mod_to_equations; lia
  | reflexivity | reflexivity].

(** X15. Two durations that are not negative are shown alike only when
    they round to the same number of seconds: the text of a mark tells its
    whole second. *)
Theorem format_duration_injective (x y : Q) :
  (0 <= round0 x)%Z ->
  (0 <= round0 y)%Z ->
  format_duration x = format_duration y ->
  round0 x = round0 y.
Proof.
  rewrite !format_duration_eq.
  generalize (round0 x) (round0 y). clear x y. intros s t Hs Ht H.
  rewrite ?string_app_assoc in H.
  unfold hours_suffix, minutes_suffix, seconds_suffix in H.
  destruct (Z.ltb_spec 0 (s / 3600)) as [Hh1 | Hh1];
    destruct (Z.ltb_spec 0 ((s mod 3600) / 60)) as [Hm1 | Hm1];
    destruct (Z.ltb_spec 0 (t / 3600)) as [Hh2 | Hh2];
    destruct (Z.ltb_spec 0 ((t mod 3600) / 60)) as [Hm2 | Hm2];
    cbn [orb] in H; rewrite ?string_app_assoc in H; string_app;
    split_digits H; try discriminate;
    try (split_digits H; try discriminate);
    try (split_digits H; try discriminate);
    repeat match goal with
           | E : pretty _ = pretty _ |- _ => apply (inj pretty) in E
           end;
    Z.div_mod_to_equations; lia.
Qed.

Lemma format_duration_injective_witness :
  format_duration (Qmake 37254 10) = format_duration 3725
  /\ round0 (Qmake 37254 10) = round0 3725.
Proof.
  split; [by vm_compute |].
  apply (format_duration_injective (Qmake 37254 10) 3725); by vm_compute.
Defined.

(** ** Projects made by hand *)

(** X16. Creating a project by hand makes the project, and leaves the
    recording flag as it is. Where [os.makedirs] returns for the projects
    folder, the new project becomes the current one and gets the window,
    so a hotkey press after it marks the new project when a recording is
    running and is ignored when none is; and if the store accepts the
    write, the empty record is stored under the new name, replacing
    whatever record that name had. Where [os.makedirs] raises, nothing
    else happens: the current project, the window and the store are as
    before. This is for a new name without a separator, the window that
    is closed on the way showing a project of another name, without a
    separator either, so that its record, written last, is another entry
    of the folder. *)
Theorem create_and_open_project_replaces_record (project_name : string)
    (t_window : Q) (s : t) :
  has_sep project_name = false ->
  (forall w q, recording_window s = Some w ->
               heap s !! RecordingWindow.project w = Some q ->
               has_sep (Project.name q) = false
               /\ Project.name q <> project_name) ->
  let out := create_and_open_project project_name t_window s in
  let s' := fst out in
  let r := length (heap s) in
  heap s' = heap s ++ [new_project project_name]
  /\ is_recording s' = is_recording s
  /\ (os_makedirs (projects_path s) (fs s) = true ->
      current_recording_project s' = Some r
      /\ recording_window s' = Some (RecordingWindow.__init__ r t_window)
      /\ (Project.file_path (projects_path s) project_name ∉ locked (fs s) ->
          Project.load_json (projects_path s) project_name (fs s')
          = Some (Project.to_obj (new_project project_name)))
      /\ forall now,
           heap (fst (global_hotkey_callback now s'))
           = if is_recording s
             then heap s
                  ++ [Project.add_timestamp (round2 (now - t_window)%Q)
                        (new_project project_name)]
             else heap s')
  /\ (os_makedirs (projects_path s) (fs s) = false ->
      current_recording_project s' = current_recording_project s
      /\ recording_window s' = recording_window s
      /\ fs s' = fs s
      /\ snd out = []).
Proof.
  intros Hn Hw out s' r.
  set (np := new_project project_name).
  set (path := Project.file_path (projects_path s) project_name).
  set (s1 := set_heap (heap s ++ [np]) s).
  assert (Hnp : heap s1 !! r = Some np) by apply list_lookup_middle, eq_refl.
  assert (Hpaths : forall w q, recording_window s = Some w ->
             heap s !! RecordingWindow.project w = Some q ->
             Project.file_path (projects_path s) (Project.name q) <> path).
  { intros w q Ew Eq E. destruct (Hw w q Ew Eq) as [Hq Hne].
    apply file_path_inj in E; [done | by apply has_sep_startswith ..]. }
  destruct (os_makedirs (projects_path s) (fs s)) eqn:Hm.
  - assert (Hm1 : os_makedirs (projects_path s1) (fs s1) = true) by exact Hm.
    destruct (Project.write_record (projects_path s) np (fs s))
      as [fs1 tr1] eqn:Hw1.
    set (s2 := set_fs fs1 s1).
    assert (Hl1 : locked fs1 = locked (fs s)).
    { pose proof (write_record_keeps_locked (projects_path s) np (fs s)) as H.
      by rewrite Hw1 in H. }
    assert (Hm2 : os_makedirs (projects_path s2) (fs s2) = true).
    { unfold os_makedirs in *. simpl. by rewrite Hl1. }
    assert (Hfs1 : path ∉ locked (fs s) ->
                   files fs1 !! path = Some (record_of np)).
    { intros Hl. rewrite (write_record_unlocked _ np _ Hl) in Hw1.
      injection Hw1 as <- _. apply lookup_insert_eq. }
    assert (Hclose : exists x,
               close_recording_window s2
               = (set_fs x s2, snd (fst (close_recording_window s2)), true)
               /\ (path ∉ locked (fs s) ->
                   files x !! path = Some (record_of np))).
    { rewrite (close_recording_window_returns s2 Hm2).
      change (recording_window s2) with (recording_window s).
      change (heap s2) with (heap s ++ [np]).
      change (projects_path s2) with (projects_path s).
      change (fs s2) with fs1.
      destruct (recording_window s) as [w|] eqn:Ew;
        [| exists fs1; split; [reflexivity | done]].
      destruct ((heap s ++ [np]) !! RecordingWindow.project w) as [q|] eqn:Eq;
        [| exists fs1; split; [reflexivity | done]].
      eexists. split; [reflexivity |]. intros Hl.
      unfold Project.write_record, write_json.
      case_bool_decide; simpl; [by apply Hfs1 |].
      destruct (decide (Project.file_path (projects_path s) (Project.name q)
                        = path)) as [E | E].
      - rewrite E. apply lookup_app_Some in Eq as [Eq | [_ Eq]];
          [by destruct (Hpaths w q) |].
        apply list_lookup_singleton_Some in Eq as [_ <-].
        apply lookup_insert_eq.
      - rewrite lookup_insert_ne by done. by apply Hfs1. }
    destruct Hclose as (x & Hclose & Hx).
    assert (Hs' : s' = set_current_recording_project (Some r)
                         (set_recording_window
                            (Some (RecordingWindow.__init__ r t_window))
                            (set_fs x s2))).
    { subst s' out. unfold create_and_open_project, slot, create_statements.
      cbv zeta. fold np. fold r.
      unfold try_then, ret, modify. cbv beta iota zeta. fold s1.
      rewrite (save_project_returns r s1 Hm1), Hnp.
      change (projects_path s1) with (projects_path s).
      change (fs s1) with (fs s). rewrite Hw1. cbn [fst snd]. fold s2.
      rewrite Hclose. reflexivity. }
    clearbody s'. subst s'.
    split; [done |]. split; [done |]. split; [| intros [=]]. intros _.
    split; [done |]. split; [done |].
    split; [intros Hl; apply load_json_stored; by apply Hx |].
    intros now. unfold global_hotkey_callback. simpl.
    destruct (is_recording s); [| done].
    unfold RecordingWindow.add_timestamp. simpl.
    rewrite alter_app_r_alt by (subst r; lia).
    subst r. by rewrite Nat.sub_diag.
  - assert (Hout : out = (s1, [])).
    { subst out. unfold create_and_open_project, slot, create_statements.
      cbv zeta. fold np. fold r.
      unfold try_then, ret, modify. cbv beta iota zeta. fold s1.
      by rewrite (save_project_raises r np s1 Hm Hnp). }
    subst s'. rewrite Hout.
    split; [done |]. split; [done |]. split; [intros [=] |]. done.
Qed.

Lemma create_and_open_project_replaces_record_witness :
  let s' := fst (create_and_open_project "talk" 200 before_stop) in
  (current_recording_project before_stop = Some 0%nat
   /\ os_makedirs (projects_path before_stop) (fs before_stop) = true)
  /\ current_recording_project s' = Some 1%nat
  /\ Project.load_json "projects" "talk" (fs s')
     = Some (Project.to_obj (new_project "talk")).
Proof.
  intros s'. split; [split; reflexivity |].
  destruct (create_and_open_project_replaces_record "talk" 200 before_stop)
    as (_ & _ & Hok & _).
  - reflexivity.
  - intros w q [= <-] [= <-]. split; [reflexivity | discriminate].
  - destruct (Hok eq_refl) as (Hcur & _ & Hload & _).
    split; [exact Hcur |]. apply Hload, not_elem_of_empty.
Defined.

(** ** Records as they are read *)

(** X17. What [from_dict] builds is normalised and stable: a video path
    that is missing or falsy has become the empty string, marks that are
    missing or falsy have become the empty list, and the dict of the
    project built reads back as that same project. *)
Theorem from_dict_normalises (dct : json) (o : Project.obj) :
  Project.from_dict dct = Ok o ->
  Project.from_dict (Project.to_dict o) = Ok o
  /\ (truthy (Project.obj_video_file_path o) = false ->
      Project.obj_video_file_path o = JStr "")
  /\ (truthy (Project.obj_timestamps o) = false ->
      Project.obj_timestamps o = JArr []).
Proof.
  unfold Project.from_dict.
  destruct (subscript dct "name") as [n | e]; [| done].
  intros [= <-]. unfold Project.to_dict, Project.__init__. simpl.
  set (v := dict_get dct "video_file_path" (JStr "")).
  set (ts := dict_get dct "timestamps" (JArr [])).
  destruct (truthy v) eqn:Hv, (truthy ts) eqn:Hts;
    rewrite ?Hv, ?Hts; simpl; repeat split; congruence.
Qed.

Lemma from_dict_normalises_witness :
  let dct := JObj [("name", JStr "talk"); ("timestamps", JNull);
                   ("video_file_path", JNum 0)] in
  let o := {| Project.obj_name := JStr "talk";
              Project.obj_video_file_path := JStr "";
              Project.obj_timestamps := JArr [] |} in
  Project.from_dict dct = Ok o
  /\ Project.from_dict (Project.to_dict o) = Ok o.
Proof.
  intros dct o. split; [reflexivity |].
  apply (from_dict_normalises dct o). reflexivity.
Defined.

(** ** Sequences of push events *)

(** X18. After any sequence of push events the cache holds the path of the
    last stop event of the sequence, empty or not, and is as it was when
    the sequence has no stop event; the connection state is never
    touched. A path pushed by one stop event is thus lost to a later stop
    event that carries none. *)
Theorem last_stop_event_decides_cache (es : list push_event)
    (obs : OBSController.t) :
  let obs' := foldl (fun o e => deliver e o) obs es in
  OBSController.last_known_stop_path obs'
  = match last (List.filter is_stop_event es) with
    | Some e => Some (event_path e)
    | None => OBSController.last_known_stop_path obs
    end
  /\ OBSController.is_connected obs' = OBSController.is_connected obs
  /\ OBSController.ws obs' = OBSController.ws obs.
Proof.
  induction es as [|e es IH] using rev_ind; [done |].
  cbv zeta in *. rewrite foldl_snoc, List.filter_app. simpl.
  destruct IH as (IH1 & IH2 & IH3).
  destruct (is_stop_event e) eqn:He.
  - rewrite last_snoc, deliver_stop by done. done.
  - rewrite app_nil_r, deliver_non_stop by done. done.
Qed.
